(** * DLQ reconciliation for EventBridge rules: a shallow embedding of
    [src/lambda/main.py] and the properties of its reconciliation core.

    Python values are modelled as follows.
    - [str] is [string]; characters are 8-bit, which covers the alphabet
      that rule names, queue names, URLs and ARNs are drawn from.
    - [int] is [Z] where the source subtracts (name lengths), [nat] for the
      counters that only ever grow.
    - a target dictionary is a [gmap string json]; the set of live rule
      names is a [gset string]; lists are lists.
    - the two service clients ([EVENTS], [SQS]) are an explicit [World]
      that every call reads, updates and appends itself to; exceptions
      are an error result. *)

From Stdlib Require Import ZArith Ascii String Lia DecimalString.
From stdpp Require Import base gmap strings list.

Set Warnings "-register-all".

Local Open Scope Z_scope.

(** ** Python string primitives *)

Module Py.

(** [len(s)] *)
Definition len (s : string) : Z := Z.of_nat (String.length s).

(** truth value of a string: non-empty *)
Definition truthy (s : string) : bool :=
match s with EmptyString => false | String _ _ => true end.

(** the first [n] characters *)
Fixpoint take (n : nat) (s : string) : string :=
match n, s with
| S n', String c s' => String c (take n' s')
| _, _ => EmptyString
end.

(** [s[:stop]]: a negative [stop] counts from the end, and the bounds
  are clamped to the string. *)
Definition slice_to (s : string) (stop : Z) : string :=
if stop <? 0 then take (Z.to_nat (len s + stop)) s
else take (Z.to_nat stop) s.

(** [s.split(sep)] for a one-character separator; never empty. *)
Fixpoint split (sep : ascii) (s : string) : list string :=
match s with
| EmptyString => [EmptyString]
| String c s' =>
    if Ascii.eqb c sep then EmptyString :: split sep s'
    else match split sep s' with
         | [] => [String c EmptyString]
         | p :: ps => String c p :: ps
         end
end.

(** [sep.join(parts)] *)
Fixpoint join (sep : string) (parts : list string) : string :=
match parts with
| [] => EmptyString
| [p] => p
| p :: ps => p +:+ sep +:+ join sep ps
end.

(** [s.count(c)] for a one-character [c] *)
Fixpoint count (c : ascii) (s : string) : Z :=
match s with
| EmptyString => 0
| String c' s' => (if Ascii.eqb c' c then 1 else 0) + count c s'
end.

(** [s.startswith(p)] *)
Fixpoint startswith (p s : string) : bool :=
match p, s with
| EmptyString, _ => true
| String a p', String b s' => Ascii.eqb a b && startswith p' s'
| String _ _, EmptyString => false
end.

(** [s.endswith(p)] *)
Fixpoint endswith (p s : string) : bool :=
String.eqb p s ||
match s with
| EmptyString => false
| String _ s' => endswith p s'
end.

(** [needle in hay] for strings *)
Fixpoint contains (needle hay : string) : bool :=
startswith needle hay ||
match hay with
| EmptyString => false
| String _ hay' => contains needle hay'
end.

(** [s.lower()] on the ASCII letters *)
Definition lower_char (c : ascii) : ascii :=
let n := nat_of_ascii c in
if (65 <=? n)%nat && (n <=? 90)%nat then ascii_of_nat (n + 32) else c.

Fixpoint lower (s : string) : string :=
match s with
| EmptyString => EmptyString
| String c s' => String (lower_char c) (lower s')
end.

(** [parts[-1]] of a list of strings ([IndexError] cannot arise where
  the source uses it: [split] never returns an empty list) *)
Definition last_part (parts : list string) : string :=
List.last parts EmptyString.

End Py.

(** ** Naming codec: [generate_dlq_name] *)

Definition suffix : string := "-rule-dlq".

Definition generate_dlq_name (rule_name env_prefix : string) : string :=
  if Py.truthy env_prefix then
    let prefix_with_dash := env_prefix +:+ "-" in
    let max_rule_len := 80 - Py.len prefix_with_dash - Py.len suffix in
    let rule_name :=
      if Py.len rule_name >? max_rule_len
      then Py.slice_to rule_name max_rule_len else rule_name in
    prefix_with_dash +:+ rule_name +:+ suffix
  else
    let max_rule_len := 80 - Py.len suffix in
    let rule_name :=
      if Py.len rule_name >? max_rule_len
      then Py.slice_to rule_name max_rule_len else rule_name in
    rule_name +:+ suffix.

(** ** Name recovery: the parsing inside [list_all_dlq_queues] *)

(** The search loop
    [for i in range(len(parts) - 2): if parts[i] == "rule" and
    parts[i + 1] == "dlq": rule_dlq_index = i; break],
    with [-1] when the loop finds nothing.  [range] of a negative number
    is empty, as is [seq 0 (length parts - 2)] on [nat]. *)
Definition is_rule_dlq_at (parts : list string) (i : nat) : bool :=
  bool_decide (parts !! i = Some "rule") &&
  bool_decide (parts !! (i + 1)%nat = Some "dlq").

Definition find_rule_dlq_index (parts : list string) : Z :=
  match List.find (is_rule_dlq_at parts) (seq 0 (length parts - 2)) with
  | Some i => Z.of_nat i
  | None => -1
  end.

(** [parts[1:stop]] for [stop > 0] *)
Definition parts_between (parts : list string) (stop : Z) : list string :=
  take (Z.to_nat stop - 1) (drop 1 parts).

(** What the loop body computes from a queue name: the recovered rule
    name when the queue is appended to the result, [None] when it is
    passed over. *)
Definition extract_rule_name (queue_name : string) : option string :=
  if Py.contains "-rule-dlq" queue_name then
    if Py.count "-" queue_name >=? 3 then
      let parts := Py.split "-" queue_name in
      let rule_dlq_index := find_rule_dlq_index parts in
      if rule_dlq_index >? 0
      then Some (Py.join "-" (parts_between parts rule_dlq_index))
      else None
    else None
  else None.

(** The dictionaries appended to [queues]. *)
Record DlqQueue := {
  dq_name : string;
  dq_url : string;
  dq_rule_name : string
}.

Definition queue_name_of_url (url : string) : string :=
  Py.last_part (Py.split "/" url).

Definition dlq_queue_of_url (url : string) : option DlqQueue :=
  let queue_name := queue_name_of_url url in
  match extract_rule_name queue_name with
  | Some rule_name =>
      Some {| dq_name := queue_name; dq_url := url; dq_rule_name := rule_name |}
  | None => None
  end.

(** ** JSON values, as the service responses and [json.loads] give them *)

Inductive json :=
| JNull
| JBool (b : bool)
| JNum (n : Z)
| JStr (s : string)
| JArr (items : list json)
| JObj (fields : list (string * json)).

(** A target as [list_targets_by_rule] returns it and [put_targets]
    takes it: a dictionary from field name to value. *)
Abbreviation Target := (gmap string json).

(** A rule as [list_rules] returns it: [Name] is always there,
    [ManagedBy] only for rules a service owns. *)
Record Rule := {
  Name : string;
  ManagedBy : option string
}.

(** ** Exceptions and results *)

Inductive exn :=
| ClientError (code : string)
| JSONDecodeError
| KeyError (key : string)
| IndexError
| AttributeError
| TypeError
| LambdaTimeout.

Inductive result (A : Type) :=
| Ok (a : A)
| Raise (e : exn).
Arguments Ok {A} a.
Arguments Raise {A} e.

Definition rbind {A B} (r : result A) (k : A -> result B) : result B :=
  match r with
  | Ok a => k a
  | Raise e => Raise e
  end.

Module Json.

(** truth value of a Python object *)
Definition truthy (v : json) : bool :=
match v with
| JNull => false
| JBool b => b
| JNum n => negb (n =? 0)
| JStr s => Py.truthy s
| JArr l => match l with [] => false | _ => true end
| JObj l => match l with [] => false | _ => true end
end.

(** [v == s] for a string literal or variable [s] *)
Definition eq_str (v : json) (s : string) : bool :=
match v with
| JStr s' => String.eqb s' s
| _ => false
end.

Fixpoint assoc (k : string) (l : list (string * json)) : option json :=
match l with
| [] => None
| (k', v) :: l' => if String.eqb k' k then Some v else assoc k l'
end.

(** [d[k] = v] on a dictionary: in place when the key is there, at the
  end otherwise *)
Fixpoint assoc_set (k : string) (v : json) (l : list (string * json))
: list (string * json) :=
match l with
| [] => [(k, v)]
| (k', v') :: l' =>
    if String.eqb k' k then (k, v) :: l' else (k', v') :: assoc_set k v l'
end.

(** [d.get(k)]; an object that is no dictionary has no [get] *)
Definition get (k : string) (d : json) : result (option json) :=
match d with
| JObj l => Ok (assoc k l)
| _ => Raise AttributeError
end.

(** [d.get(k, default)] *)
Definition get_default (k : string) (dflt : json) (d : json) : result json :=
match d with
| JObj l => Ok (default dflt (assoc k l))
| _ => Raise AttributeError
end.

(** [s in v] for a string [s] *)
Definition contains (s : string) (v : json) : result bool :=
match v with
| JStr hay => Ok (Py.contains s hay)
| JArr l => Ok (existsb (fun x => eq_str x s) l)
| JObj l => Ok (existsb (fun kv => String.eqb (fst kv) s) l)
| _ => Raise TypeError
end.

(** [v.split(":")[-1]]: only strings split *)
Definition last_segment (sep : ascii) (v : json) : result string :=
match v with
| JStr s => Ok (Py.last_part (Py.split sep s))
| _ => Raise AttributeError
end.

End Json.

(** [str(n)] of an integer *)
Definition str_of_int (n : Z) : string := NilZero.string_of_int (Z.to_int n).

(** ** The services *)

(** The text of a queue's [Policy] attribute: either the serialisation
    of a JSON document ([json.loads] gives the document back, [json.dumps]
    produces it) or a text that [json.loads] rejects. *)
Inductive PolicyText :=
| PolicyJson (doc : json)
| PolicyRaw (text : string).

Record Queue := {
  q_name : string;
  q_url : string;
  q_arn : string;
  q_attributes : gmap string string;
  q_tags : gmap string string;
  q_policy : option PolicyText;
  q_visible : Z;
  q_not_visible : Z
}.

(** Every request the code sends, with its arguments. *)
Inductive Call :=
| ListRules (bus : string) (token : option nat)
| ListTargetsByRule (rule bus : string) (token : option nat)
| PutTargets (rule bus : string) (targets : list Target)
| GetQueueUrl (name : string)
| GetQueueAttributes (url : string) (names : list string)
| ListQueues
| CreateQueue (name : string) (attributes tags : gmap string string)
| SetQueueAttributes (url : string) (policy : json)
| DeleteQueue (url : string).

(** The state of both services, the requests sent so far (oldest first)
    and the failures to come: [w_faults w n c] is the error code with
    which the service answers request [c] when it is the [n]-th one. *)
Record World := {
  w_rules : list (list Rule);
  w_targets : gmap string (list Target);
  w_queues : list Queue;
  w_trace : list Call;
  w_faults : nat -> Call -> option string
}.

Definition M (A : Type) : Type := World -> result A * World.

Definition ret {A} (a : A) : M A := fun w => (Ok a, w).

Definition raise {A} (e : exn) : M A := fun w => (Raise e, w).

Definition bind {A B} (m : M A) (k : A -> M B) : M B := fun w =>
  match m w with
  | (Ok a, w') => k a w'
  | (Raise e, w') => (Raise e, w')
  end.

Definition lift {A} (r : result A) : M A := fun w => (r, w).

(** [try: m except ClientError: h] *)
Definition except_client_error {A} (m : M A) (h : string -> M A) : M A := fun w =>
  match m w with
  | (Raise (ClientError code), w') => h code w'
  | other => other
  end.

Declare Scope m_scope.
Delimit Scope m_scope with M.
Notation "'let*' x ':=' m 'in' k" := (bind m (fun x => k))
  (at level 10, x name, m at level 100, k at level 200, only parsing) : m_scope.
Notation "'let+' x ':=' r 'in' k" := (rbind r (fun x => k))
  (at level 10, x name, r at level 100, k at level 200, only parsing) : m_scope.
Local Open Scope m_scope.

(** [try: m except ...: h]: [h e] is the handler when the clause
    catches [e], [None] when [e] propagates. *)
Definition try_except {A} (m : M A) (h : exn -> option (M A)) : M A := fun w =>
  match m w with
  | (Raise e, w') =>
      match h e with
      | Some k => k w'
      | None => (Raise e, w')
      end
  | other => other
  end.

(** [except ClientError] *)
Definition on_client_error {A} (k : string -> M A) (e : exn) : option (M A) :=
  match e with
  | ClientError code => Some (k code)
  | _ => None
  end.

(** [d[key]] *)
Definition require {A} (key : string) (v : option A) : result A :=
  match v with
  | Some a => Ok a
  | None => Raise (KeyError key)
  end.

(** *** Sending a request *)

Definition record_call (c : Call) (w : World) : World :=
  {| w_rules := w_rules w;
     w_targets := w_targets w;
     w_queues := w_queues w;
     w_trace := w_trace w ++ [c];
     w_faults := w_faults w |}.

Definition set_targets (ts : gmap string (list Target)) (w : World) : World :=
  {| w_rules := w_rules w;
     w_targets := ts;
     w_queues := w_queues w;
     w_trace := w_trace w;
     w_faults := w_faults w |}.

Definition set_queues (qs : list Queue) (w : World) : World :=
  {| w_rules := w_rules w;
     w_targets := w_targets w;
     w_queues := qs;
     w_trace := w_trace w;
     w_faults := w_faults w |}.

(** A request is logged, then either fails with the code the world
    holds for it or is answered by the service. *)
Definition request {A} (c : Call) (answer : M A) : M A := fun w =>
  match w_faults w (length (w_trace w)) c with
  | Some code => (Raise (ClientError code), record_call c w)
  | None => answer (record_call c w)
  end.

(** *** The rule and target registry *)

Module Events.

(** One page of rules; a token is the index of the next page. *)
Definition list_rules (bus : string) (token : option nat)
: M (list Rule * option nat) :=
request (ListRules bus token) (fun w =>
  let i := default 0%nat token in
  let next := if (S i <? length (w_rules w))%nat then Some (S i) else None in
  (Ok (nth i (w_rules w) [], next), w)).

(** A rule's targets come in one page. *)
Definition list_targets_by_rule (rule bus : string) (token : option nat)
: M (list Target * option nat) :=
request (ListTargetsByRule rule bus token) (fun w =>
  (Ok (default [] (w_targets w !! rule), None), w)).

Definition target_id (t : Target) : option string :=
match t !! "Id" with
| Some (JStr id) => Some id
| _ => None
end.

Definition same_id (t u : Target) : bool :=
bool_decide (target_id t = target_id u).

(** A target replaces the ones with its id, or is added. *)
Definition upsert_target (ts : list Target) (t : Target) : list Target :=
if existsb (same_id t) ts
then map (fun u => if same_id t u then t else u) ts
else ts ++ [t].

(** Targets without a string id are refused as a whole. *)
Definition put_targets (rule bus : string) (targets : list Target) : M unit :=
request (PutTargets rule bus targets) (fun w =>
  if forallb (fun t => bool_decide (is_Some (target_id t))) targets then
    let old := default [] (w_targets w !! rule) in
    (Ok tt, set_targets (<[rule := foldl upsert_target old targets]> (w_targets w)) w)
  else (Raise (ClientError "ValidationException"), w)).

End Events.

(** *** The queue service *)

Definition NonExistentQueue : string := "AWS.SimpleQueueService.NonExistentQueue".

(** What [get_queue_attributes] answers: the attributes asked for that
    the queue has. *)
Record QueueAttributes := {
  QueueArn : option string;
  Policy : option PolicyText;
  ApproximateNumberOfMessages : option Z;
  ApproximateNumberOfMessagesNotVisible : option Z
}.

Module Sqs.

Definition url_base : string := "https://sqs.us-east-1.amazonaws.com/123456789012/".
Definition arn_base : string := "arn:aws:sqs:us-east-1:123456789012:".

Definition by_name (name : string) (q : Queue) : bool := String.eqb (q_name q) name.
Definition by_url (url : string) (q : Queue) : bool := String.eqb (q_url q) url.

Definition asked (name : string) (names : list string) : bool :=
existsb (String.eqb name) names.

Definition attributes_of (q : Queue) (names : list string) : QueueAttributes :=
{| QueueArn := if asked "QueueArn" names then Some (q_arn q) else None;
   Policy := if asked "Policy" names then q_policy q else None;
   ApproximateNumberOfMessages :=
     if asked "ApproximateNumberOfMessages" names then Some (q_visible q) else None;
   ApproximateNumberOfMessagesNotVisible :=
     if asked "ApproximateNumberOfMessagesNotVisible" names
     then Some (q_not_visible q) else None |}.

Definition get_queue_url (name : string) : M string :=
request (GetQueueUrl name) (fun w =>
  match List.find (by_name name) (w_queues w) with
  | Some q => (Ok (q_url q), w)
  | None => (Raise (ClientError NonExistentQueue), w)
  end).

Definition get_queue_attributes (url : string) (names : list string)
: M QueueAttributes :=
request (GetQueueAttributes url names) (fun w =>
  match List.find (by_url url) (w_queues w) with
  | Some q => (Ok (attributes_of q names), w)
  | None => (Raise (ClientError NonExistentQueue), w)
  end).

Definition list_queues : M (list string) :=
request ListQueues (fun w => (Ok (map q_url (w_queues w)), w)).

(** Queue names: 1 to 80 letters, digits, hyphens and underscores. *)
Definition valid_char (c : ascii) : bool :=
let n := nat_of_ascii c in
((48 <=? n) && (n <=? 57) || (65 <=? n) && (n <=? 90)
 || (97 <=? n) && (n <=? 122) || (n =? 45) || (n =? 95))%nat.

Fixpoint all_chars (p : ascii -> bool) (s : string) : bool :=
match s with
| EmptyString => true
| String c s' => p c && all_chars p s'
end.

Definition valid_name (name : string) : bool :=
(1 <=? Py.len name) && (Py.len name <=? 80) && all_chars valid_char name.

Definition new_queue (name : string) (attributes tags : gmap string string) : Queue :=
{| q_name := name;
   q_url := url_base +:+ name;
   q_arn := arn_base +:+ name;
   q_attributes := attributes;
   q_tags := tags;
   q_policy := None;
   q_visible := 0;
   q_not_visible := 0 |}.

Definition create_queue (name : string) (attributes tags : gmap string string)
: M string :=
request (CreateQueue name attributes tags) (fun w =>
  if negb (valid_name name)
  then (Raise (ClientError "InvalidParameterValue"), w)
  else match List.find (by_name name) (w_queues w) with
       | Some q => (Raise (ClientError "QueueAlreadyExists"), w)
       | None =>
           let q := new_queue name attributes tags in
           (Ok (q_url q), set_queues (w_queues w ++ [q]) w)
       end).

Definition with_policy (doc : json) (q : Queue) : Queue :=
{| q_name := q_name q;
   q_url := q_url q;
   q_arn := q_arn q;
   q_attributes := q_attributes q;
   q_tags := q_tags q;
   q_policy := Some (PolicyJson doc);
   q_visible := q_visible q;
   q_not_visible := q_not_visible q |}.

(** Only ever called with the [Policy] attribute, the serialised [doc]. *)
Definition set_queue_attributes (url : string) (doc : json) : M unit :=
request (SetQueueAttributes url doc) (fun w =>
  match List.find (by_url url) (w_queues w) with
  | Some _ =>
      (Ok tt,
       set_queues (map (fun q => if by_url url q then with_policy doc q else q)
                       (w_queues w)) w)
  | None => (Raise (ClientError NonExistentQueue), w)
  end).

Definition delete_queue (url : string) : M unit :=
request (DeleteQueue url) (fun w =>
  match List.find (by_url url) (w_queues w) with
  | Some _ =>
      (Ok tt, set_queues (List.filter (fun q => negb (by_url url q)) (w_queues w)) w)
  | None => (Raise (ClientError NonExistentQueue), w)
  end).

End Sqs.

(** ** The program *)

(** The [while True] loops of [list_all_rules] and [list_targets]: fetch
    a page, extend the list, go on while the response carries a token.
    [fuel] bounds the number of pages fetched; running out of it is the
    invocation being killed. *)
Fixpoint paginate {A} (fuel : nat) (fetch : option nat -> M (list A * option nat))
    (next_token : option nat) (items : list A) : M (list A) :=
  match fuel with
  | O => raise LambdaTimeout
  | S fuel' =>
      let* resp := fetch next_token in
      let items := items ++ fst resp in
      match snd resp with
      | Some token => paginate fuel' fetch (Some token) items
      | None => ret items
      end
  end.

Definition list_all_rules (event_bus_name : string) : M (list Rule) := fun w =>
  paginate (S (length (w_rules w))) (Events.list_rules event_bus_name) None [] w.

Definition list_targets (rule_name event_bus_name : string) : M (list Target) :=
  paginate 1 (Events.list_targets_by_rule rule_name event_bus_name) None [].

Definition is_not_found (code : string) : bool :=
  String.eqb code "AWS.SimpleQueueService.NonExistentQueue"
  || String.eqb code "QueueDoesNotExist".

(** [get_queue_by_name]: [Some (url, arn)] for the pair, [None] for
    [(None, None)]. *)
Definition get_queue_by_name (name : string) : M (option (string * string)) :=
  try_except
    (let* q_url := Sqs.get_queue_url name in
     let* attrs := Sqs.get_queue_attributes q_url ["QueueArn"] in
     let* arn := lift (require "QueueArn" (QueueArn attrs)) in
     ret (Some (q_url, arn)))
    (on_client_error (fun code =>
       if is_not_found code then ret None else raise (ClientError code))).

(** [if q_url:] on the result of [get_queue_by_name] *)
Definition url_truthy (q : option (string * string)) : bool :=
  match q with
  | Some (q_url, _) => Py.truthy q_url
  | None => false
  end.

Definition list_all_dlq_queues : M (list DlqQueue) :=
  try_except
    (let* queue_urls := Sqs.list_queues in
     ret (omap dlq_queue_of_url queue_urls))
    (on_client_error (fun _ => ret [])).

(** [t.get("DeadLetterConfig") and t["DeadLetterConfig"].get("Arn")]:
    the ARN when the whole condition is true. *)
Definition dead_letter_arn (t : Target) : result (option json) :=
  match t !! "DeadLetterConfig" with
  | Some config =>
      if Json.truthy config then
        let+ arn := Json.get "Arn" config in
        Ok (match arn with
            | Some a => if Json.truthy a then Some a else None
            | None => None
            end)
      else Ok None
  | None => Ok None
  end.

(** The loop of [rule_has_dlq_attached]. *)
Fixpoint any_dlq_exists (targets : list Target) : M bool :=
  match targets with
  | [] => ret false
  | target :: rest =>
      let* arn := lift (dead_letter_arn target) in
      match arn with
      | Some dlq_arn =>
          let* queue_name := lift (Json.last_segment ":" dlq_arn) in
          let* q := get_queue_by_name queue_name in
          match q with
          | Some _ => ret true
          | None => any_dlq_exists rest
          end
      | None => any_dlq_exists rest
      end
  end.

Definition rule_has_dlq_attached (rule_name event_bus_name : string) : M bool :=
  try_except
    (let* targets := list_targets rule_name event_bus_name in
     any_dlq_exists targets)
    (on_client_error (fun _ => ret false)).

(** *** Rewriting a target *)

Definition copied_keys : list string :=
  ["RoleArn"; "Input"; "InputPath"; "InputTransformer"; "KinesisParameters";
   "RunCommandParameters"; "EcsParameters"; "BatchParameters"; "SqsParameters";
   "HttpParameters"; "RedshiftDataParameters"; "RetryPolicy"].

(** [for key in (...): if key in t: clone[key] = t[key]] *)
Definition copy_keys (t : Target) (clone : Target) : Target :=
  foldl (fun clone key =>
           match t !! key with
           | Some v => <[key := v]> clone
           | None => clone
           end) clone copied_keys.

(** [clone = {"Id": t["Id"], "Arn": t["Arn"]}] and the copy loop *)
Definition clone_target (t : Target) : result Target :=
  let+ id := require "Id" (t !! "Id") in
  let+ arn := require "Arn" (t !! "Arn") in
  Ok (copy_keys t (<["Arn" := arn]> (<["Id" := id]> ∅))).

(** The first [continue] of the attach loop. *)
Definition not_attachable (t : Target) : result bool :=
  let target_arn := default (JStr "") (t !! "Arn") in
  if negb (Json.truthy target_arn) then Ok true
  else if Json.eq_str target_arn "arn:aws:events:::" then Ok true
  else Json.contains ":archive/" target_arn.

(** The loop of [attach_dlq_to_targets]: the list [to_update]. *)
Fixpoint targets_to_attach (queue_arn : string) (targets : list Target)
  : result (list Target) :=
  match targets with
  | [] => Ok []
  | t :: rest =>
      let+ skip := not_attachable t in
      if skip then targets_to_attach queue_arn rest
      else
        let+ arn := dead_letter_arn t in
        match arn with
        | Some _ => targets_to_attach queue_arn rest
        | None =>
            let+ clone := clone_target t in
            let clone := <["DeadLetterConfig" := JObj [("Arn", JStr queue_arn)]]> clone in
            let+ to_update := targets_to_attach queue_arn rest in
            Ok (clone :: to_update)
        end
  end.

Definition attach_dlq_to_targets (rule_name event_bus_name queue_arn : string)
  : M nat :=
  try_except
    (let* targets := list_targets rule_name event_bus_name in
     let* to_update := lift (targets_to_attach queue_arn targets) in
     let* _ := match to_update with
               | [] => ret tt
               | _ => Events.put_targets rule_name event_bus_name to_update
               end in
     ret (length to_update))
    (on_client_error (fun _ => ret 0%nat)).

(** *** The policy merger *)

Definition get_rule_arn (rule_name bus_arn : string) : result string :=
  let parts := Py.split ":" bus_arn in
  let+ region := match parts !! 3%nat with Some x => Ok x | None => Raise IndexError end in
  let+ account_id := match parts !! 4%nat with Some x => Ok x | None => Raise IndexError end in
  let bus_name := Py.last_part (Py.split "/" bus_arn) in
  Ok ("arn:aws:events:" +:+ region +:+ ":" +:+ account_id +:+ ":rule/"
      +:+ bus_name +:+ "/" +:+ rule_name).

Definition desired_statement (queue_arn rule_arn : string) : json :=
  JObj [("Sid", JStr ("AllowEventBridgeSend-" +:+ Py.last_part (Py.split "/" rule_arn)));
        ("Effect", JStr "Allow");
        ("Principal", JObj [("Service", JStr "events.amazonaws.com")]);
        ("Action", JStr "sqs:SendMessage");
        ("Resource", JStr queue_arn);
        ("Condition", JObj [("ArnEquals", JObj [("aws:SourceArn", JStr rule_arn)])])].

Definition empty_policy : json :=
  JObj [("Version", JStr "2012-10-17"); ("Statement", JArr [])].

(** [json.loads] *)
Definition json_loads (text : PolicyText) : result json :=
  match text with
  | PolicyJson doc => Ok doc
  | PolicyRaw _ => Raise JSONDecodeError
  end.

Definition policy_text_truthy (text : PolicyText) : bool :=
  match text with
  | PolicyJson _ => true
  | PolicyRaw s => Py.truthy s
  end.

(** The inner [try] of [update_queue_policy]. *)
Definition read_policy (queue_url : string) : M json :=
  try_except
    (let* resp := Sqs.get_queue_attributes queue_url ["Policy"] in
     match Policy resp with
     | Some existing_policy_str =>
         if policy_text_truthy existing_policy_str
         then lift (json_loads existing_policy_str)
         else ret empty_policy
     | None => ret empty_policy
     end)
    (fun e => match e with
              | ClientError _ | JSONDecodeError => Some (ret empty_policy)
              | _ => None
              end).

(** [x == s] where [x] is the result of a [get] *)
Definition opt_eq_str (x : option json) (s : string) : bool :=
  match x with
  | Some v => Json.eq_str v s
  | None => false
  end.

(** The condition of the scan, with Python's short-circuit [and]. *)
Definition statement_matches (rule_arn : string) (st : json) : result bool :=
  let+ principal := Json.get_default "Principal" (JObj []) st in
  let+ service := Json.get "Service" principal in
  if opt_eq_str service "events.amazonaws.com" then
    let+ action := Json.get "Action" st in
    if opt_eq_str action "sqs:SendMessage" then
      let+ condition := Json.get_default "Condition" (JObj []) st in
      let+ arn_equals := Json.get_default "ArnEquals" (JObj []) condition in
      let+ source := Json.get "aws:SourceArn" arn_equals in
      Ok (opt_eq_str source rule_arn)
    else Ok false
  else Ok false.

(** [for st in statements: if ...: return False] *)
Fixpoint statement_exists (rule_arn : string) (statements : list json)
  : result bool :=
  match statements with
  | [] => Ok false
  | st :: rest =>
      let+ found := statement_matches rule_arn st in
      if found then Ok true else statement_exists rule_arn rest
  end.

(** What [for st in statements] iterates over. *)
Definition iterate (statements : json) : result (list json) :=
  match statements with
  | JArr items => Ok items
  | JObj fields => Ok (map (fun kv => JStr (fst kv)) fields)
  | JStr s => Ok (map (fun c => JStr (String c EmptyString)) (list_ascii_of_string s))
  | _ => Raise TypeError
  end.

(** [statements.append(st)] *)
Definition append_statement (statements st : json) : result json :=
  match statements with
  | JArr items => Ok (JArr (items ++ [st]))
  | _ => Raise AttributeError
  end.

(** [policy["Statement"] = statements] *)
Definition set_statement (policy statements : json) : result json :=
  match policy with
  | JObj fields => Ok (JObj (Json.assoc_set "Statement" statements fields))
  | _ => Raise TypeError
  end.

Definition update_queue_policy (queue_url queue_arn rule_arn : string) : M bool :=
  try_except
    (let desired := desired_statement queue_arn rule_arn in
     let* policy := read_policy queue_url in
     let* statements := lift (Json.get_default "Statement" (JArr []) policy) in
     let* items := lift (iterate statements) in
     let* found := lift (statement_exists rule_arn items) in
     if found then ret false
     else
       let* statements := lift (append_statement statements desired) in
       let* policy := lift (set_statement policy statements) in
       let* _ := Sqs.set_queue_attributes queue_url policy in
       ret true)
    (on_client_error (fun _ => ret false)).

(** *** Provisioning one rule *)

Record Settings := {
  message_retention_seconds : Z;
  visibility_timeout_seconds : Z;
  max_message_size : Z;
  sse_enabled : bool
}.

(** The per-rule operation record. *)
Record Operation := {
  op_rule_name : string;
  op_dlq_name : string;
  queue_created : bool;
  policy_updated : bool;
  targets_updated : nat;
  status : string;
  reason : string
}.

Definition queue_attributes (settings : Settings) : gmap string string :=
  <["SqsManagedSseEnabled" := if sse_enabled settings then "true" else "false"]>
  (<["MaximumMessageSize" := str_of_int (max_message_size settings)]>
  (<["VisibilityTimeout" := str_of_int (visibility_timeout_seconds settings)]>
  (<["MessageRetentionPeriod" := str_of_int (message_retention_seconds settings)]> ∅))).

Definition ensure_queue_and_policy (rule_name dlq_name : string)
    (tags : gmap string string) (settings : Settings) (event_bus_arn : string)
    (dry_run : bool) (event_bus_name : string) : M Operation :=
  if dry_run then
    ret {| op_rule_name := rule_name; op_dlq_name := dlq_name;
           queue_created := true; policy_updated := true;
           targets_updated := 1; status := "would_create"; reason := "" |}
  else
    let* attached := rule_has_dlq_attached rule_name event_bus_name in
    if attached then
      ret {| op_rule_name := rule_name; op_dlq_name := dlq_name;
             queue_created := false; policy_updated := false;
             targets_updated := 0; status := "skipped"; reason := "dlq_exists" |}
    else
      let* found := get_queue_by_name dlq_name in
      let* q :=
        match found with
        | None =>
            let* q_url := Sqs.create_queue dlq_name (queue_attributes settings) tags in
            let* attrs := Sqs.get_queue_attributes q_url ["QueueArn"] in
            let* q_arn := lift (require "QueueArn" (QueueArn attrs)) in
            ret (q_url, q_arn, true)
        | Some (q_url, q_arn) => ret (q_url, q_arn, false)
        end in
      let '(q_url, q_arn, created) := q in
      let* rule_arn := lift (get_rule_arn rule_name event_bus_arn) in
      let* policy := update_queue_policy q_url q_arn rule_arn in
      let* updated := attach_dlq_to_targets rule_name event_bus_name q_arn in
      ret {| op_rule_name := rule_name; op_dlq_name := dlq_name;
             queue_created := created; policy_updated := policy;
             targets_updated := updated;
             status := if created || (0 <? updated)%nat then "updated" else "no_change";
             reason := "" |}.

(** *** Orphan cleanup *)

Record OrphanedQueue := {
  oq_queue_name : string;
  oq_rule_name : string;
  oq_action : string
}.

Record OrphanCleanup := {
  orphaned_queues : list OrphanedQueue;
  deleted_count : nat
}.

(** [managed_by and "aws" in managed_by.lower()] *)
Definition is_aws_managed (rule : Rule) : bool :=
  match ManagedBy rule with
  | Some managed_by => Py.truthy managed_by && Py.contains "aws" (Py.lower managed_by)
  | None => false
  end.

(** The set [rule_names] built by the first loop. *)
Definition live_rule_names (rules : list Rule) : gset string :=
  foldl (fun names rule =>
           if is_aws_managed rule then names else names ∪ {[Name rule]})
        ∅ rules.

(** The dictionary appended to [result["orphaned_queues"]]. *)
Definition orphan_entry (dry_run : bool) (queue : DlqQueue) : OrphanedQueue :=
  {| oq_queue_name := dq_name queue;
     oq_rule_name := dq_rule_name queue;
     oq_action := if dry_run then "would_delete" else "deleted" |}.

(** [potential_rule not in rule_names] *)
Definition is_orphan (rule_names : gset string) (queue : DlqQueue) : bool :=
  bool_decide (dq_rule_name queue ∉ rule_names).

(** The loop over [dlq_queues]. *)
Fixpoint cleanup_queues (rule_names : gset string) (dry_run : bool)
    (dlq_queues : list DlqQueue) (result : OrphanCleanup) : M OrphanCleanup :=
  match dlq_queues with
  | [] => ret result
  | queue :: rest =>
      if is_orphan rule_names queue then
        let result :=
          {| orphaned_queues := orphaned_queues result ++ [orphan_entry dry_run queue];
             deleted_count := deleted_count result |} in
        if dry_run then cleanup_queues rule_names dry_run rest result
        else
          let* result :=
            try_except
              (let* _ := Sqs.delete_queue (dq_url queue) in
               ret {| orphaned_queues := orphaned_queues result;
                      deleted_count := S (deleted_count result) |})
              (on_client_error (fun _ => ret result)) in
          cleanup_queues rule_names dry_run rest result
      else cleanup_queues rule_names dry_run rest result
  end.

Definition cleanup_orphaned_dlqs (rules : list Rule) (dry_run : bool)
  : M OrphanCleanup :=
  let result := {| orphaned_queues := []; deleted_count := 0 |} in
  if dry_run then ret result
  else
    let rule_names := live_rule_names rules in
    let* dlq_queues := list_all_dlq_queues in
    cleanup_queues rule_names dry_run dlq_queues result.

(** *** One reconciliation pass *)

Record Summary := {
  queues_created : nat;
  policies_updated : nat;
  targets_attached : nat;
  rules_total : nat;
  rules_skipped : nat;
  operations : list Operation;
  orphaned_cleanup : OrphanCleanup
}.

(** The local variables the rule loop updates. *)
Record Tally := {
  t_operations : list Operation;
  t_created : nat;
  t_policies : nat;
  t_attached : nat;
  t_skipped : nat
}.

Definition skip_one (t : Tally) : Tally :=
  {| t_operations := t_operations t; t_created := t_created t;
     t_policies := t_policies t; t_attached := t_attached t;
     t_skipped := S (t_skipped t) |}.

Definition count_operation (operation : Operation) (t : Tally) : Tally :=
  {| t_operations := t_operations t ++ [operation];
     t_created := if queue_created operation then S (t_created t) else t_created t;
     t_policies := if policy_updated operation then S (t_policies t) else t_policies t;
     t_attached := if (0 <? targets_updated operation)%nat
                   then (t_attached t + targets_updated operation)%nat
                   else t_attached t;
     t_skipped := t_skipped t |}.

(** [rule_name in skip_rules] *)
Definition in_list (s : string) (l : list string) : bool :=
  existsb (String.eqb s) l.

Fixpoint reconcile_rules (event_bus_name event_bus_arn : string)
    (tags : gmap string string) (settings : Settings) (dry_run : bool)
    (env_prefix : string) (skip_rules : list string)
    (rules : list Rule) (t : Tally) : M Tally :=
  match rules with
  | [] => ret t
  | rule :: rest =>
      let rule_name := Name rule in
      if is_aws_managed rule then
        reconcile_rules event_bus_name event_bus_arn tags settings dry_run
          env_prefix skip_rules rest (skip_one t)
      else if in_list rule_name skip_rules then
        reconcile_rules event_bus_name event_bus_arn tags settings dry_run
          env_prefix skip_rules rest (skip_one t)
      else
        let dlq_name := generate_dlq_name rule_name env_prefix in
        let* operation :=
          ensure_queue_and_policy rule_name dlq_name tags settings event_bus_arn
            dry_run event_bus_name in
        reconcile_rules event_bus_name event_bus_arn tags settings dry_run
          env_prefix skip_rules rest (count_operation operation t)
  end.

Definition reconcile_bus (event_bus_name event_bus_arn : string)
    (tags : gmap string string) (settings : Settings) (dry_run : bool)
    (env_prefix : string) (skip_rules : list string) : M Summary :=
  let* rules := list_all_rules event_bus_name in
  let* t := reconcile_rules event_bus_name event_bus_arn tags settings dry_run
              env_prefix skip_rules rules
              {| t_operations := []; t_created := 0; t_policies := 0;
                 t_attached := 0; t_skipped := 0 |} in
  let* orphan_cleanup := cleanup_orphaned_dlqs rules dry_run in
  ret {| queues_created := t_created t;
         policies_updated := t_policies t;
         targets_attached := t_attached t;
         rules_total := length rules;
         rules_skipped := t_skipped t;
         operations := t_operations t;
         orphaned_cleanup := orphan_cleanup |}.

(** *** Bulk teardown *)

Record DeletedQueue := {
  dl_rule_name : string;
  dl_dlq_name : string;
  dl_action : string
}.

Record Teardown := {
  td_deleted_count : nat;
  td_deleted_queues : list DeletedQueue;
  td_rules_processed : nat
}.

(** The local variables [deleted_queues] and [deleted_count]. *)
Record Deleted := {
  d_queues : list DeletedQueue;
  d_count : nat
}.

(** [t.get("DeadLetterConfig") and t["DeadLetterConfig"].get("Arn") == q_arn] *)
Definition points_to (q_arn : string) (t : Target) : result bool :=
  match t !! "DeadLetterConfig" with
  | Some config =>
      if Json.truthy config then
        let+ arn := Json.get "Arn" config in
        Ok (opt_eq_str arn q_arn)
      else Ok false
  | None => Ok false
  end.

(** The detach loop: the list [to_update]. *)
Fixpoint targets_to_detach (q_arn : string) (targets : list Target)
  : result (list Target) :=
  match targets with
  | [] => Ok []
  | t :: rest =>
      let+ hit := points_to q_arn t in
      if hit then
        let+ clone := clone_target t in
        let+ to_update := targets_to_detach q_arn rest in
        Ok (clone :: to_update)
      else targets_to_detach q_arn rest
  end.

Definition message_count_names : list string :=
  ["ApproximateNumberOfMessages"; "ApproximateNumberOfMessagesNotVisible"].

(** The guard: [true] stands for the [continue]. *)
Definition has_messages (q_url : string) : M bool :=
  try_except
    (let* attrs := Sqs.get_queue_attributes q_url message_count_names in
     let msg_count := default 0 (ApproximateNumberOfMessages attrs)
                      + default 0 (ApproximateNumberOfMessagesNotVisible attrs) in
     ret (msg_count >? 0))
    (on_client_error (fun _ => ret false)).

(** The body of the rule loop outside dry-run, for a rule that is
    neither managed nor to be skipped. *)
Definition delete_rule_dlq (event_bus_name : string) (force_delete : bool)
    (rule_name dlq_name : string) (d : Deleted) : M Deleted :=
  try_except
    (let* q := get_queue_by_name dlq_name in
     match q with
     | Some (q_url, q_arn) =>
         if Py.truthy q_url then
           let* keep := if force_delete then ret false else has_messages q_url in
           if keep then ret d
           else
             let* targets := list_targets rule_name event_bus_name in
             let* to_update := lift (targets_to_detach q_arn targets) in
             let* _ := match to_update with
                       | [] => ret tt
                       | _ => Events.put_targets rule_name event_bus_name to_update
                       end in
             let* _ := Sqs.delete_queue q_url in
             ret {| d_queues := d_queues d ++
                      [{| dl_rule_name := rule_name; dl_dlq_name := dlq_name;
                          dl_action := "deleted" |}];
                    d_count := S (d_count d) |}
         else ret d
     | None => ret d
     end)
    (on_client_error (fun _ => ret d)).

Fixpoint cleanup_rules (event_bus_name : string) (dry_run force_delete : bool)
    (env_prefix : string) (skip_rules : list string)
    (rules : list Rule) (d : Deleted) : M Deleted :=
  match rules with
  | [] => ret d
  | rule :: rest =>
      let rule_name := Name rule in
      if is_aws_managed rule then
        cleanup_rules event_bus_name dry_run force_delete env_prefix skip_rules rest d
      else if in_list rule_name skip_rules then
        cleanup_rules event_bus_name dry_run force_delete env_prefix skip_rules rest d
      else
        let dlq_name := generate_dlq_name rule_name env_prefix in
        let* d :=
          if dry_run then
            let* q := get_queue_by_name dlq_name in
            if url_truthy q then
              ret {| d_queues := d_queues d ++
                       [{| dl_rule_name := rule_name; dl_dlq_name := dlq_name;
                           dl_action := "would_delete" |}];
                     d_count := d_count d |}
            else ret d
          else delete_rule_dlq event_bus_name force_delete rule_name dlq_name d in
        cleanup_rules event_bus_name dry_run force_delete env_prefix skip_rules rest d
  end.

Definition cleanup_all_dlqs (event_bus_name : string) (dry_run force_delete : bool)
    (env_prefix : string) (skip_rules : list string) : M Teardown :=
  let* rules := list_all_rules event_bus_name in
  let* d := cleanup_rules event_bus_name dry_run force_delete env_prefix skip_rules
              rules {| d_queues := []; d_count := 0 |} in
  ret {| td_deleted_count := d_count d;
         td_deleted_queues := d_queues d;
         td_rules_processed :=
           length (List.filter (fun r => negb (is_aws_managed r)) rules) |}.

(** ** Observations *)

(** The statements of a queue's policy, as [update_queue_policy] would
    read them: none when there is no policy, no parsable one, or no list
    under [Statement]. *)
Definition policy_statements (q : Queue) : list json :=
  match q_policy q with
  | Some (PolicyJson (JObj fields)) =>
      match Json.assoc "Statement" fields with
      | Some (JArr items) => items
      | _ => []
      end
  | _ => []
  end.

(** A statement with the triple (principal the events service, action
    send-message, source ARN [source]): one the scan recognises. *)
Definition grants (source : string) (st : json) : bool :=
  match statement_matches source st with
  | Ok true => true
  | _ => false
  end.

Definition grant_count (source : string) (statements : list json) : nat :=
  length (List.filter (grants source) statements).

(** No queue's policy has two statements with the same triple. *)
Definition no_duplicate_grants (w : World) : Prop :=
  forall q source,
    q ∈ w_queues w -> (grant_count source (policy_statements q) <= 1)%nat.

(** The world after [n] calls of [update_queue_policy] with the same
    arguments. *)
Fixpoint after_updates (n : nat) (queue_url queue_arn rule_arn : string)
    (w : World) : World :=
  match n with
  | O => w
  | S n' =>
      after_updates n' queue_url queue_arn rule_arn
        (snd (update_queue_policy queue_url queue_arn rule_arn w))
  end.

(** Requests that only read: what a pass may send without changing or
    listing anything it could go on to change. *)
Definition is_lookup (c : Call) : bool :=
  match c with
  | ListRules _ _ | ListTargetsByRule _ _ _ | GetQueueUrl _ | GetQueueAttributes _ _ => true
  | PutTargets _ _ _ | ListQueues | CreateQueue _ _ _ | SetQueueAttributes _ _
  | DeleteQueue _ => false
  end.

Definition is_list_rules (c : Call) : bool :=
  match c with
  | ListRules _ _ => true
  | _ => false
  end.

(** [w'] comes from [w] by lookups alone. *)
Definition only_lookups (w w' : World) : Prop :=
  w_rules w' = w_rules w /\
  w_targets w' = w_targets w /\
  w_queues w' = w_queues w /\
  w_faults w' = w_faults w /\
  exists calls, w_trace w' = w_trace w ++ calls /\ forallb is_lookup calls = true.

(** From [w] on, the service answers every request. *)
Definition quiet (w : World) : Prop :=
  forall n c, (length (w_trace w) <= n)%nat -> w_faults w n c = None.

(** [w'] comes from [w] by listing rules alone. *)
Definition only_list_rules (w w' : World) : Prop :=
  w_rules w' = w_rules w /\
  w_targets w' = w_targets w /\
  w_queues w' = w_queues w /\
  w_faults w' = w_faults w /\
  exists calls, w_trace w' = w_trace w ++ calls /\ forallb is_list_rules calls = true.

(** The rules a pass works on: neither managed nor to be skipped. *)
Definition eligible (skip_rules : list string) (rule : Rule) : bool :=
  negb (is_aws_managed rule) && negb (in_list (Name rule) skip_rules).

(** The operation a dry run simulates for a rule. *)
Definition dry_operation (env_prefix : string) (rule : Rule) : Operation :=
  {| op_rule_name := Name rule;
     op_dlq_name := generate_dlq_name (Name rule) env_prefix;
     queue_created := true; policy_updated := true;
     targets_updated := 1; status := "would_create"; reason := "" |}.

(** A queue of that name exists. *)
Definition queue_named (name : string) (w : World) : Prop :=
  exists q, q ∈ w_queues w /\ q_name q = name.

(** The ARN and the URL of a queue end in its name, as the ones the
    service hands out do. *)
Definition wf_queue (q : Queue) : Prop :=
  Py.last_part (Py.split ":" (q_arn q)) = q_name q /\
  queue_name_of_url (q_url q) = q_name q.

Definition wf_queues (w : World) : Prop :=
  forall q, q ∈ w_queues w -> wf_queue q.

Definition rule_targets (rule_name : string) (w : World) : list Target :=
  default [] (w_targets w !! rule_name).

(** A target the scan of [rule_has_dlq_attached] gets past: no
    dead-letter ARN, or one that is a string. *)
Definition scannable (t : Target) : Prop :=
  dead_letter_arn t = Ok None \/ exists arn, dead_letter_arn t = Ok (Some (JStr arn)).

(** A target whose dead-letter ARN names the queue [name]. *)
Definition points_at (name : string) (t : Target) : Prop :=
  exists arn, dead_letter_arn t = Ok (Some (JStr arn)) /\
              Py.last_part (Py.split ":" arn) = name.

(** The rule has a target attached to the queue [dlq_name], and the
    queue exists. *)
Definition provisioned (rule_name dlq_name : string) (w : World) : Prop :=
  (forall t, t ∈ rule_targets rule_name w -> scannable t) /\
  (exists t, t ∈ rule_targets rule_name w /\ points_at dlq_name t) /\
  queue_named dlq_name w.

(** What working on the rule [rule_name] may do to the world: send
    requests, change that rule's targets, add queues and change policies. *)
Definition provisions (rule_name : string) (w w' : World) : Prop :=
  w_rules w' = w_rules w /\
  w_faults w' = w_faults w /\
  (exists calls, w_trace w' = w_trace w ++ calls) /\
  (forall r, r <> rule_name -> w_targets w' !! r = w_targets w !! r) /\
  (forall name, queue_named name w -> queue_named name w') /\
  (wf_queues w -> wf_queues w').

(** Every run of [m] is related to its start by [R]. *)
Definition preserves {A} (R : World -> World -> Prop) (m : M A) : Prop :=
  forall w, R w (snd (m w)).

(** What orphan cleanup may do to the world: send requests and remove
    queues. *)
Definition cleans (w w' : World) : Prop :=
  w_rules w' = w_rules w /\
  w_targets w' = w_targets w /\
  w_faults w' = w_faults w /\
  exists calls, w_trace w' = w_trace w ++ calls.

(** The tally before the first rule. *)
Definition empty_tally : Tally :=
  {| t_operations := []; t_created := 0; t_policies := 0;
     t_attached := 0; t_skipped := 0 |}.

(** ** Sample inputs *)

(** An environment prefix of 71 characters. *)
Definition prefix_71 : string :=
  "ppppppppppppppppppppppppppppppppppppppppppppppppppppppppppppppppppppppp".

(** A service that answers every request. *)
Definition no_faults : nat -> Call -> option string := fun _ _ => None.

(** A service that refuses to delete queues. *)
Definition delete_denied : nat -> Call -> option string := fun _ c =>
  match c with
  | DeleteQueue _ => Some "AccessDenied"
  | _ => None
  end.

(** A queue as [create_queue] would have made it. *)
Definition plain_queue (name : string) : Queue := Sqs.new_queue name ∅ ∅.

Definition plain_rule (name : string) : Rule :=
  {| Name := name; ManagedBy := None |}.

(** One rule [live], and a queue whose name parses to that rule. *)
Definition live_world : World :=
  {| w_rules := [[plain_rule "live"]];
     w_targets := ∅;
     w_queues := [plain_queue "prod-live-rule-dlq-x"];
     w_trace := [];
     w_faults := no_faults |}.

Definition live_queue : DlqQueue :=
  {| dq_name := "prod-live-rule-dlq-x";
     dq_url := Sqs.url_base +:+ "prod-live-rule-dlq-x";
     dq_rule_name := "live" |}.

(** No rule, and a queue of the standard form. *)
Definition standard_world : World :=
  {| w_rules := [];
     w_targets := ∅;
     w_queues := [plain_queue "prod-orders-rule-dlq"];
     w_trace := [];
     w_faults := no_faults |}.

(** No rule, a queue whose name parses to the rule [gone], and a service
    that refuses the delete. *)
Definition denied_world : World :=
  {| w_rules := [];
     w_targets := ∅;
     w_queues := [plain_queue "prod-gone-rule-dlq-old"];
     w_trace := [];
     w_faults := delete_denied |}.

Definition gone_queue : DlqQueue :=
  {| dq_name := "prod-gone-rule-dlq-old";
     dq_url := Sqs.url_base +:+ "prod-gone-rule-dlq-old";
     dq_rule_name := "gone" |}.

(** The fields a rewritten target takes over from the original. *)
Definition kept_keys : list string := "Id" :: "Arn" :: copied_keys.

Definition lambda_arn : string :=
  "arn:aws:lambda:us-east-1:123456789012:function:handler".

(** A target with an id and a destination. *)
Definition lambda_target (id : string) : Target :=
  <["Arn" := JStr lambda_arn]> (<["Id" := JStr id]> ∅).

(** A pipeline target: its parameter block is not among [copied_keys]. *)
Definition pipeline_parameters : json :=
  JObj [("PipelineParameterList",
         JArr [JObj [("Name", JStr "stage"); ("Value", JStr "prod")]])].

Definition pipeline_target : Target :=
  <["SageMakerPipelineParameters" := pipeline_parameters]>
  (<["RoleArn" := JStr "arn:aws:iam::123456789012:role/events"]>
  (<["Arn" := JStr "arn:aws:sagemaker:us-east-1:123456789012:pipeline/train"]>
  (<["Id" := JStr "1"]> ∅))).

Definition sample_dlq_arn : string := Sqs.arn_base +:+ "prod-train-rule-dlq".

(** The same target once a DLQ is attached to it. *)
Definition pipeline_target_with_dlq : Target :=
  <["DeadLetterConfig" := JObj [("Arn", JStr sample_dlq_arn)]]> pipeline_target.


(** What the attacher republishes for [pipeline_target], and what the
    teardown republishes for [pipeline_target_with_dlq]. *)
Definition pipeline_target_detached : Target :=
  <["RoleArn" := JStr "arn:aws:iam::123456789012:role/events"]>
  (<["Arn" := JStr "arn:aws:sagemaker:us-east-1:123456789012:pipeline/train"]>
  (<["Id" := JStr "1"]> ∅)).

Definition pipeline_target_attached : Target :=
  <["DeadLetterConfig" := JObj [("Arn", JStr sample_dlq_arn)]]> pipeline_target_detached.


Definition orders_rule_arn : string :=
  "arn:aws:events:us-east-1:123456789012:rule/main/orders".

Definition orders_queue_name : string := "prod-orders-rule-dlq".

(** A queue with the given policy text. *)
Definition queue_with_policy (name : string) (policy : option PolicyText) : Queue :=
  {| q_name := name;
     q_url := Sqs.url_base +:+ name;
     q_arn := Sqs.arn_base +:+ name;
     q_attributes := ∅;
     q_tags := ∅;
     q_policy := policy;
     q_visible := 0;
     q_not_visible := 0 |}.

(** The grant for the rule [orders], under another [Sid]. *)
Definition manual_grant : json :=
  JObj [("Sid", JStr "Manual");
        ("Effect", JStr "Allow");
        ("Principal", JObj [("Service", JStr "events.amazonaws.com")]);
        ("Action", JStr "sqs:SendMessage");
        ("Resource", JStr (Sqs.arn_base +:+ orders_queue_name));
        ("Condition", JObj [("ArnEquals", JObj [("aws:SourceArn", JStr orders_rule_arn)])])].

(** A policy that already holds the grant twice. *)
Definition doubled_policy : json :=
  JObj [("Version", JStr "2012-10-17");
        ("Statement",
         JArr [desired_statement (Sqs.arn_base +:+ orders_queue_name) orders_rule_arn;
               manual_grant])].

Definition doubled_world : World :=
  {| w_rules := [[plain_rule "orders"]];
     w_targets := ∅;
     w_queues := [queue_with_policy orders_queue_name (Some (PolicyJson doubled_policy))];
     w_trace := [];
     w_faults := no_faults |}.

(** The same queue without a policy. *)
Definition fresh_world : World :=
  {| w_rules := [[plain_rule "orders"]];
     w_targets := ∅;
     w_queues := [queue_with_policy orders_queue_name None];
     w_trace := [];
     w_faults := no_faults |}.


(** A service that fails the read of the message counts. *)
Definition counts_throttled : nat -> Call -> option string := fun _ c =>
  match c with
  | GetQueueAttributes _ names =>
      if Sqs.asked "ApproximateNumberOfMessages" names
      then Some "ThrottlingException" else None
  | _ => None
  end.

(** A queue that holds three visible messages. *)
Definition busy_queue : Queue :=
  {| q_name := orders_queue_name;
     q_url := Sqs.url_base +:+ orders_queue_name;
     q_arn := Sqs.arn_base +:+ orders_queue_name;
     q_attributes := ∅;
     q_tags := ∅;
     q_policy := None;
     q_visible := 3;
     q_not_visible := 0 |}.

(** The rule [orders] with one target that points to [busy_queue]. *)
Definition orders_target : Target :=
  <["DeadLetterConfig" := JObj [("Arn", JStr (Sqs.arn_base +:+ orders_queue_name))]]>
  (lambda_target "1").

Definition busy_world (faults : nat -> Call -> option string) : World :=
  {| w_rules := [[plain_rule "orders"]];
     w_targets := {["orders" := [orders_target]]};
     w_queues := [busy_queue];
     w_trace := [];
     w_faults := faults |}.


(** A bus with a managed rule, a rule to skip and two ordinary rules,
    listed in two pages. *)
Definition paged_world : World :=
  {| w_rules := [[{| Name := "scheduler"; ManagedBy := Some "AWS.scheduler" |};
                  plain_rule "orders"];
                 [plain_rule "legacy"; plain_rule "billing"]];
     w_targets := {["orders" := [lambda_target "1"]]};
     w_queues := [plain_queue "prod-gone-rule-dlq-old"];
     w_trace := [];
     w_faults := no_faults |}.

Definition sample_settings : Settings :=
  {| message_retention_seconds := 1209600;
     visibility_timeout_seconds := 1800;
     max_message_size := 262144;
     sse_enabled := true |}.

Definition main_bus_arn : string :=
  "arn:aws:events:us-east-1:123456789012:event-bus/main".


(** A bus with the one rule [a-rule-dlq-b], one target, no queue. *)
Definition tokens_world : World :=
  {| w_rules := [[plain_rule "a-rule-dlq-b"]];
     w_targets := {["a-rule-dlq-b" := [lambda_target "1"]]};
     w_queues := [];
     w_trace := [];
     w_faults := no_faults |}.

(** The scenario of the specification: the rule [order-events], one
    target, no queue. *)
Definition orders_world : World :=
  {| w_rules := [[plain_rule "order-events"]];
     w_targets := {["order-events" := [lambda_target "1"]]};
     w_queues := [];
     w_trace := [];
     w_faults := no_faults |}.

(** What a pass reports for a rule that it finds provisioned. *)
Definition skipped_operation (rule_name dlq_name : string) : Operation :=
  {| op_rule_name := rule_name; op_dlq_name := dlq_name;
     queue_created := false; policy_updated := false;
     targets_updated := 0; status := "skipped"; reason := "dlq_exists" |}.

(** The world a pass leaves behind. *)
Definition after_pass (event_bus_name event_bus_arn : string)
    (tags : gmap string string) (settings : Settings)
    (env_prefix : string) (skip_rules : list string) (w : World) : World :=
  snd (reconcile_bus event_bus_name event_bus_arn tags settings false
         env_prefix skip_rules w).


(** The operation of a pass that creates the queue, writes the policy
    and attaches one target. *)
Definition updated_operation (rule_name dlq_name : string) (attached : nat) : Operation :=
  {| op_rule_name := rule_name; op_dlq_name := dlq_name;
     queue_created := true; policy_updated := true;
     targets_updated := attached; status := "updated"; reason := "" |}.

(** A pass over the sample buses. *)
Definition sample_pass : M Summary :=
  reconcile_bus "main" main_bus_arn ∅ sample_settings false "prod" [].

Definition after_sample_pass (w : World) : World :=
  after_pass "main" main_bus_arn ∅ sample_settings "prod" [] w.

(** A service that fails its [n]-th request and answers all others. *)
Definition fails_at (n : nat) (code : string) : nat -> Call -> option string :=
  fun i _ => if (i =? n)%nat then Some code else None.

(** The same world with other failures to come. *)
Definition with_faults (faults : nat -> Call -> option string) (w : World) : World :=
  {| w_rules := w_rules w;
     w_targets := w_targets w;
     w_queues := w_queues w;
     w_trace := w_trace w;
     w_faults := faults |}.

(** The requests [list_all_rules] sends for a bus whose rules come in
    [pages] pages: one without a token, then one per further page. *)
Definition page_requests (bus : string) (pages : nat) : list Call :=
  ListRules bus None :: map (fun i => ListRules bus (Some i)) (seq 1 (pages - 1)).

(** A target the attach loop clones: its ARN is usable and it has no
    dead-letter queue yet. *)
Definition needs_dlq (t : Target) : bool :=
  match not_attachable t, dead_letter_arn t with
  | Ok false, Ok None => true
  | _, _ => false
  end.

(** A statement that lets everyone send: its principal is the wildcard
    text, not a dictionary. *)
Definition open_statement : json :=
  JObj [("Sid", JStr "Open");
        ("Effect", JStr "Allow");
        ("Principal", JStr "*");
        ("Action", JStr "sqs:SendMessage");
        ("Resource", JStr (Sqs.arn_base +:+ orders_queue_name))].

Definition open_policy : json :=
  JObj [("Version", JStr "2012-10-17"); ("Statement", JArr [open_statement])].

Definition open_world : World :=
  {| w_rules := [[plain_rule "orders"]];
     w_targets := ∅;
     w_queues := [queue_with_policy orders_queue_name (Some (PolicyJson open_policy))];
     w_trace := [];
     w_faults := no_faults |}.

(** A policy with a grant for another rule and a further key. *)
Definition billing_policy : json :=
  JObj [("Version", JStr "2012-10-17");
        ("Id", JStr "queue-policy");
        ("Statement",
         JArr [desired_statement (Sqs.arn_base +:+ orders_queue_name)
                 "arn:aws:events:us-east-1:123456789012:rule/main/billing"])].

Definition billing_world : World :=
  {| w_rules := [[plain_rule "orders"]];
     w_targets := ∅;
     w_queues := [queue_with_policy orders_queue_name (Some (PolicyJson billing_policy))];
     w_trace := [];
     w_faults := no_faults |}.

(** The policy [update_queue_policy] starts from when it could not read
    or parse the stored one, with the grant added. *)
Definition lone_grant_policy (queue_arn rule_arn : string) : json :=
  JObj [("Version", JStr "2012-10-17");
        ("Statement", JArr [desired_statement queue_arn rule_arn])].

(** Whether the teardown finds a queue under [name]: there is one, and
    its URL is not empty. *)
Definition has_queue (name : string) (w : World) : bool :=
  match List.find (Sqs.by_name name) (w_queues w) with
  | Some q => Py.truthy (q_url q)
  | None => false
  end.

(** The entry a dry run of the teardown logs for a rule. *)
Definition would_delete (env_prefix : string) (rule : Rule) : DeletedQueue :=
  {| dl_rule_name := Name rule;
     dl_dlq_name := generate_dlq_name (Name rule) env_prefix;
     dl_action := "would_delete" |}.

(** [w'] comes from [w] by requests of the kind [allowed] alone, whatever
    they did. *)
Definition sends_only (allowed : Call -> bool) (w w' : World) : Prop :=
  exists calls, w_trace w' = w_trace w ++ calls /\ forallb allowed calls = true.

(** The requests a teardown may send: never one that lists queues,
    creates a queue or writes a policy; in a dry run none that lists or
    changes targets or deletes a queue; and the read of the message counts
    only when the teardown is neither a dry run nor forced. *)
Definition teardown_may_send (dry_run force_delete : bool) (c : Call) : bool :=
  match c with
  | ListRules _ _ | GetQueueUrl _ => true
  | GetQueueAttributes _ names =>
      if Sqs.asked "QueueArn" names then true
      else negb dry_run && negb force_delete
  | ListTargetsByRule _ _ _ | PutTargets _ _ _ | DeleteQueue _ => negb dry_run
  | ListQueues | CreateQueue _ _ _ | SetQueueAttributes _ _ => false
  end.

(** The requests orphan cleanup may send. *)
Definition cleanup_may_send (c : Call) : bool :=
  match c with
  | ListQueues | DeleteQueue _ => true
  | _ => false
  end.

(** What orphan cleanup may do to the world: list the queues and delete
    queues.  Rules and targets stay, and no queue is added or changed. *)
Definition only_deletes (w w' : World) : Prop :=
  w_rules w' = w_rules w /\
  w_targets w' = w_targets w /\
  (forall q, q ∈ w_queues w' -> q ∈ w_queues w) /\
  sends_only cleanup_may_send w w'.

(** The requests the work on one rule may send: none that lists rules or
    queues, none that deletes a queue. *)
Definition provision_may_send (c : Call) : bool :=
  match c with
  | ListRules _ _ | ListQueues | DeleteQueue _ => false
  | _ => true
  end.

(** The queue a pass derives for the rule [order-events] under the
    prefix [prod], the rule's ARN on the sample bus, and the rule's target
    once that queue is attached. *)
Definition order_events_queue_name : string := "prod-order-events-rule-dlq".

Definition order_events_rule_arn : string :=
  "arn:aws:events:us-east-1:123456789012:rule/main/order-events".

Definition order_events_target_attached : Target :=
  <["DeadLetterConfig" := JObj [("Arn", JStr (Sqs.arn_base +:+ order_events_queue_name))]]>
  (lambda_target "1").

(** The targets of every rule outside [names] are in [w'] what they were
    in [w]. *)
Definition keeps_other_targets (names : list string) (w w' : World) : Prop :=
  forall r, r ∉ names -> w_targets w' !! r = w_targets w !! r.

(** The names of the rules a pass or a teardown works on. *)
Definition eligible_names (skip_rules : list string) (w : World) : list string :=
  map Name (List.filter (eligible skip_rules) (concat (w_rules w))).

(** The entry the teardown logs for a queue it has deleted. *)
Definition deleted_entry (rule_name dlq_name : string) : DeletedQueue :=
  {| dl_rule_name := rule_name; dl_dlq_name := dlq_name; dl_action := "deleted" |}.

(** * Properties *)

(** ** Strings *)

Section Strings.

Lemma append_cons c a b : String c a +:+ b = String c (a +:+ b).
Proof. reflexivity. Qed.

Lemma append_nil_l a : "" +:+ a = a.
Proof. reflexivity. Qed.

Lemma append_assoc a b c : (a +:+ b) +:+ c = a +:+ (b +:+ c).
Proof.
induction a as [|x a IH]; [reflexivity|].
rewrite !append_cons. by rewrite IH.
Qed.

Lemma len_cons c s : Py.len (String c s) = 1 + Py.len s.
Proof. unfold Py.len. cbn [String.length]. lia. Qed.

Lemma len_nonneg s : 0 <= Py.len s.
Proof. unfold Py.len. lia. Qed.

Lemma len_append a b : Py.len (a +:+ b) = Py.len a + Py.len b.
Proof.
induction a as [|x a IH]; [rewrite append_nil_l; unfold Py.len; simpl; lia|].
rewrite append_cons, !len_cons, IH. lia.
Qed.

Lemma len_take n s : Py.len (Py.take n s) = Z.min (Z.of_nat n) (Py.len s).
Proof.
revert s. induction n as [|n IH]; intros [|c s]; cbn [Py.take];
  rewrite ?len_cons, ?IH; unfold Py.len; simpl String.length; lia.
Qed.

Lemma len_slice_to s stop :
Py.len (Py.slice_to s stop) =
if stop <? 0 then Z.max 0 (Py.len s + stop) else Z.min stop (Py.len s).
Proof.
unfold Py.slice_to. pose proof (len_nonneg s).
destruct (Z.ltb_spec stop 0); rewrite len_take; lia.
Qed.

Lemma endswith_append a p : Py.endswith p (a +:+ p) = true.
Proof.
induction a as [|x a IH].
- rewrite append_nil_l. destruct p; cbn [Py.endswith];
    by rewrite String.eqb_refl.
- rewrite append_cons. cbn [Py.endswith]. rewrite IH. apply orb_true_r.
Qed.

(** Splitting a text whose first separator is known. *)
Lemma split_nonempty sep s : Py.split sep s <> [].
Proof. destruct s as [|c s]; cbn [Py.split]; [done|]. repeat case_match; done. Qed.

Lemma split_no_sep sep s : Py.count sep s = 0 -> Py.split sep s = [s].
Proof.
induction s as [|c s IH]; cbn [Py.split Py.count]; [done|].
assert (0 <= Py.count sep s) by (clear; induction s; cbn [Py.count]; [lia|case_match; lia]).
destruct (Ascii.eqb c sep); [lia|].
intros Hc. rewrite IH by lia. done.
Qed.

Lemma count_nonneg sep s : 0 <= Py.count sep s.
Proof. induction s; cbn [Py.count]; [lia|case_match; lia]. Qed.

Lemma split_append_sep sep a b :
Py.count sep a = 0 ->
Py.split sep (a +:+ String sep b) = a :: Py.split sep b.
Proof.
induction a as [|c a IH]; intros Hc.
- rewrite append_nil_l. cbn [Py.split]. by rewrite Ascii.eqb_refl.
- rewrite append_cons. cbn [Py.split Py.count] in *.
  pose proof (count_nonneg sep a).
  destruct (Ascii.eqb c sep); [lia|].
  rewrite IH by lia. done.
Qed.

Lemma find_none_all {A} (f : A -> bool) (l : list A) :
(forall x, In x l -> f x = false) -> List.find f l = None.
Proof.
induction l as [|x l IH]; intros H; [done|]. cbn [List.find].
rewrite (H x) by (by left). apply IH. intros y Hy. apply H. by right.
Qed.

End Strings.

(** ** The naming codec *)

Section Naming.

(** The name always carries the suffix. *)
Lemma generate_dlq_name_endswith rule_name env_prefix :
Py.endswith suffix (generate_dlq_name rule_name env_prefix) = true.
Proof.
unfold generate_dlq_name.
destruct (Py.truthy env_prefix); cbv zeta;
  rewrite <- ?append_assoc; apply endswith_append.
Qed.

(** The truncation keeps the name within 80 characters as long as the
  prefix leaves room for the suffix. *)
Lemma generate_dlq_name_bound rule_name env_prefix :
Py.len env_prefix <= 70 ->
Py.len (generate_dlq_name rule_name env_prefix) <= 80.
Proof.
intros Hp. unfold generate_dlq_name.
pose proof (len_nonneg rule_name).
destruct (Py.truthy env_prefix); cbv zeta; rewrite !len_append;
  change (Py.len suffix) with 9; change (Py.len "-") with 1;
  case_match; rewrite ?len_slice_to; repeat case_match; lia.
Qed.

(** A longer prefix makes the room negative, the slice then drops
  characters from the end, and the name is too long whatever the rule
  name. *)
Lemma generate_dlq_name_overflow rule_name env_prefix :
70 < Py.len env_prefix ->
80 < Py.len (generate_dlq_name rule_name env_prefix).
Proof.
intros Hp. unfold generate_dlq_name.
pose proof (len_nonneg rule_name).
destruct env_prefix as [|c p]; [unfold Py.len in Hp; simpl in Hp; lia|].
cbn [Py.truthy]. cbv zeta. rewrite !len_append.
change (Py.len suffix) with 9; change (Py.len "-") with 1.
case_match; rewrite ?len_slice_to; repeat case_match; lia.
Qed.

(** Without truncation the name is prefix, rule name and suffix. *)
Lemma generate_dlq_name_plain rule_name env_prefix :
Py.truthy env_prefix = true ->
Py.len env_prefix + 1 + Py.len rule_name + 9 <= 80 ->
generate_dlq_name rule_name env_prefix
= env_prefix +:+ "-" +:+ rule_name +:+ "-rule-dlq".
Proof.
intros Hp Hl. unfold generate_dlq_name. rewrite Hp. cbv zeta.
rewrite len_append. change (Py.len suffix) with 9. change (Py.len "-") with 1.
destruct (Z.gtb_spec (Py.len rule_name) (80 - (Py.len env_prefix + 1) - 9)); [lia|].
by rewrite append_assoc.
Qed.

End Naming.

(** C4. [generate_dlq_name] is to stay within 80 characters for every
    rule name and every prefix, arbitrarily long ones included.  With a
    prefix of 71 characters and the rule name [orders] the room computed for
    the rule name is [-1], the slice [rule_name[:-1]] drops one character
    instead of all, and the result has 86 characters.  (The suffix is still
    there.) *)
Theorem generate_dlq_name_exceeds_80 :
  Py.len prefix_71 = 71 /\
  generate_dlq_name "orders" prefix_71 = prefix_71 +:+ "-order-rule-dlq" /\
  Py.len (generate_dlq_name "orders" prefix_71) = 86 /\
  Py.endswith suffix (generate_dlq_name "orders" prefix_71) = true.
Proof. repeat split; vm_compute; reflexivity. Qed.

(** ** Name recovery *)

Section Recovery.

(** The search only looks at the positions [0 .. len(parts) - 3]. *)
Lemma find_rule_dlq_index_none parts :
(forall i, (i + 2 < length parts)%nat -> is_rule_dlq_at parts i = false) ->
find_rule_dlq_index parts = -1.
Proof.
intros H. unfold find_rule_dlq_index.
rewrite find_none_all; [done|].
intros i Hi. apply in_seq in Hi. apply H. lia.
Qed.

Lemma extract_rule_name_no_pair queue_name :
(forall i, (i + 2 < length (Py.split "-" queue_name))%nat ->
           is_rule_dlq_at (Py.split "-" queue_name) i = false) ->
extract_rule_name queue_name = None.
Proof.
intros H. unfold extract_rule_name.
repeat case_match; try done.
rewrite find_rule_dlq_index_none in * by done. done.
Qed.

(** A name of the standard form, with hyphen-free prefix and rule name,
  is never recovered: the only pair the search can see is the one
  made of the prefix and the rule name, at index 0, which is refused. *)
Lemma extract_rule_name_standard env_prefix rule_name :
Py.count "-" env_prefix = 0 ->
Py.count "-" rule_name = 0 ->
extract_rule_name (env_prefix +:+ "-" +:+ rule_name +:+ "-rule-dlq") = None.
Proof.
intros Hp Hr. unfold extract_rule_name.
change "-" with (String "-" "") at 3. rewrite append_cons, append_nil_l.
change "-rule-dlq" with (String "-" "rule-dlq") at 2.
rewrite !split_append_sep by done.
change (Py.split "-" "rule-dlq") with ["rule"; "dlq"].
repeat case_match; try done.
unfold find_rule_dlq_index in *. cbn [length Nat.sub seq List.find] in *.
unfold is_rule_dlq_at in *. cbn in *.
repeat case_bool_decide; simplify_eq; cbn in *; done.
Qed.

End Recovery.

(** C3. Recovering the rule name from a derived DLQ name is to give the
    rule name back.  For the rule [orders] and the prefix [prod] (no hyphen
    in the rule name, no truncation) the derived name is
    [prod-orders-rule-dlq]; the search loop runs over
    [range(len(parts) - 2)], so over the indices 0 and 1 of
    [prod, orders, rule, dlq], never reaches the pair at index 2, and the
    queue is passed over: nothing is recovered. *)
Theorem standard_name_not_recovered :
  generate_dlq_name "orders" "prod" = "prod-orders-rule-dlq" /\
  Py.split "-" "prod-orders-rule-dlq" = ["prod"; "orders"; "rule"; "dlq"] /\
  find_rule_dlq_index ["prod"; "orders"; "rule"; "dlq"] = -1 /\
  extract_rule_name (generate_dlq_name "orders" "prod") = None /\
  dlq_queue_of_url (Sqs.url_base +:+ generate_dlq_name "orders" "prod") = None.
Proof. repeat split; vm_compute; reflexivity. Qed.

(** ** Requests *)

Section Requests.

Lemma request_fault {A} c (answer : M A) w code :
w_faults w (length (w_trace w)) c = Some code ->
request c answer w = (Raise (ClientError code), record_call c w).
Proof. intros H. unfold request. by rewrite H. Qed.

Lemma request_answer {A} c (answer : M A) w :
w_faults w (length (w_trace w)) c = None ->
request c answer w = answer (record_call c w).
Proof. intros H. unfold request. by rewrite H. Qed.

Lemma delete_queue_run url w :
exists r w',
  Sqs.delete_queue url w = (r, w') /\
  w_trace w' = w_trace w ++ [DeleteQueue url] /\
  (r = Ok tt \/ exists code, r = Raise (ClientError code)).
Proof.
unfold Sqs.delete_queue, request.
destruct (w_faults w _ _); [by eauto 10|].
destruct (List.find _ _); by eauto 10.
Qed.

Lemma list_queues_run w :
exists r w',
  Sqs.list_queues w = (r, w') /\
  w_trace w' = w_trace w ++ [ListQueues] /\
  (r = Ok (map q_url (w_queues w)) \/ exists code, r = Raise (ClientError code)).
Proof.
unfold Sqs.list_queues, request.
destruct (w_faults w _ _); by eauto 10.
Qed.

End Requests.

(** ** Orphan cleanup *)

Section Cleanup.

(** A rule's name is in [rule_names] exactly when the rule is listed
  and not managed. *)
Lemma elem_of_live_rule_names_from rules (names : gset string) name :
name ∈ foldl (fun names rule =>
                if is_aws_managed rule then names else names ∪ {[Name rule]})
             names rules
<-> name ∈ names \/ exists r, r ∈ rules /\ is_aws_managed r = false /\ Name r = name.
Proof.
revert names. induction rules as [|r rules IH]; intros names; cbn [foldl].
- split; [by left|]. intros [?|(r & Hr & _)]; [done|]. by apply elem_of_nil in Hr.
- rewrite IH. destruct (is_aws_managed r) eqn:Hm.
  + split; (intros [?|(r' & Hr' & Hm' & Hn)]; [by left|right]).
    * exists r'. split; [by right|done].
    * apply elem_of_cons in Hr' as [ -> |Hr']; [congruence|]. by exists r'.
  + rewrite elem_of_union, elem_of_singleton. split.
    * intros [[?| ->]|(r' & Hr' & Hm' & Hn)]; [by left| |].
      -- right. exists r. split; [by left|done].
      -- right. exists r'. split; [by right|done].
    * intros [?|(r' & Hr' & Hm' & Hn)]; [by left; left|].
      apply elem_of_cons in Hr' as [ -> |Hr']; [left; by right|].
      right. by exists r'.
Qed.

Lemma elem_of_live_rule_names rules name :
name ∈ live_rule_names rules
<-> exists r, r ∈ rules /\ is_aws_managed r = false /\ Name r = name.
Proof.
unfold live_rule_names. rewrite elem_of_live_rule_names_from.
split; [intros [H|H]; [by apply elem_of_empty in H|done]|by right].
Qed.

(** Every listed queue is what its own URL parses to. *)
Lemma list_all_dlq_queues_run w :
exists qs w',
  list_all_dlq_queues w = (Ok qs, w') /\
  w_trace w' = w_trace w ++ [ListQueues] /\
  (forall q, q ∈ qs -> dlq_queue_of_url (dq_url q) = Some q).
Proof.
unfold list_all_dlq_queues, try_except, bind.
destruct (list_queues_run w) as (r & w' & -> & Ht & [ -> |[code ->]]).
- eexists _, _. split; [reflexivity|]. split; [done|].
  intros q Hq. apply list_elem_of_omap in Hq as (url & _ & Hq).
  unfold dlq_queue_of_url in Hq. destruct (extract_rule_name _) eqn:He; [|done].
  simplify_eq. cbn [dq_url]. unfold dlq_queue_of_url. by rewrite He.
- cbn. eexists _, _. split; [reflexivity|]. split; [done|].
  intros q Hq. by apply elem_of_nil in Hq.
Qed.

Lemma dq_name_of_listed q :
dlq_queue_of_url (dq_url q) = Some q ->
dq_name q = queue_name_of_url (dq_url q) /\
extract_rule_name (dq_name q) = Some (dq_rule_name q).
Proof.
unfold dlq_queue_of_url. destruct (extract_rule_name _) eqn:He; [|done].
intros [= <-]. cbn. done.
Qed.

(** The loop: one entry per orphaned queue, one delete request per
  orphaned queue outside dry-run, and a counter that grows by at most
  one per request. *)
Lemma cleanup_queues_run rule_names dry_run dlq_queues :
forall result w,
exists result' w',
  cleanup_queues rule_names dry_run dlq_queues result w = (Ok result', w') /\
  orphaned_queues result' =
    orphaned_queues result ++
    map (orphan_entry dry_run) (List.filter (is_orphan rule_names) dlq_queues) /\
  w_trace w' =
    w_trace w ++
    (if dry_run then []
     else map (fun q => DeleteQueue (dq_url q))
              (List.filter (is_orphan rule_names) dlq_queues)) /\
  (deleted_count result <= deleted_count result'
   <= deleted_count result
      + length (List.filter (is_orphan rule_names) dlq_queues))%nat.
Proof.
induction dlq_queues as [|q qs IH]; intros result w; cbn [cleanup_queues List.filter].
- eexists _, _. split; [reflexivity|]. rewrite !app_nil_r.
  repeat split; try done; try lia. by destruct dry_run; rewrite ?app_nil_r.
- destruct (is_orphan rule_names q) eqn:Ho.
  + destruct dry_run.
    * edestruct IH as (r' & w' & -> & Hq & Ht & Hc).
      eexists _, _. split; [reflexivity|]. cbn in *.
      rewrite Hq, Ht, <- app_assoc. repeat split; try done; lia.
    * unfold bind at 1, try_except, bind.
      destruct (delete_queue_run (dq_url q) w)
        as (r & w1 & -> & Ht1 & [ -> |[code ->]]); cbn.
      -- edestruct IH as (r' & w' & -> & Hq & Ht & Hc).
         eexists _, _. split; [reflexivity|]. cbn in *.
         rewrite Hq, Ht, Ht1, <- !app_assoc. repeat split; try done; lia.
      -- edestruct IH as (r' & w' & -> & Hq & Ht & Hc).
         eexists _, _. split; [reflexivity|]. cbn in *.
         rewrite Hq, Ht, Ht1, <- !app_assoc. repeat split; try done; lia.
  + edestruct IH as (r' & w' & -> & Hq & Ht & Hc).
    eexists _, _. split; [reflexivity|]. repeat split; try done; lia.
Qed.

(** The whole function, in terms of the queues it lists. *)
Lemma cleanup_orphaned_dlqs_run rules w :
exists qs w1 res w',
  list_all_dlq_queues w = (Ok qs, w1) /\
  cleanup_orphaned_dlqs rules false w = (Ok res, w') /\
  orphaned_queues res =
    map (orphan_entry false) (List.filter (is_orphan (live_rule_names rules)) qs) /\
  w_trace w' =
    w_trace w ++ ListQueues ::
    map (fun q => DeleteQueue (dq_url q))
        (List.filter (is_orphan (live_rule_names rules)) qs) /\
  (deleted_count res <= length (orphaned_queues res))%nat.
Proof.
destruct (list_all_dlq_queues_run w) as (qs & w1 & Hl & Ht1 & _).
unfold cleanup_orphaned_dlqs, bind. rewrite Hl.
edestruct (cleanup_queues_run (live_rule_names rules) false qs)
  as (res & w' & -> & Hq & Ht & Hc).
exists qs, w1, res, w'. cbn in *.
rewrite Hq, Ht, Ht1, <- app_assoc, length_map. repeat split; try done; lia.
Qed.

Lemma cleanup_orphaned_dlqs_dry rules w :
cleanup_orphaned_dlqs rules true w =
(Ok {| orphaned_queues := []; deleted_count := 0 |}, w).
Proof. reflexivity. Qed.

End Cleanup.

(** C5. Orphan cleanup never deletes a queue whose recovered rule name
    is the name of a rule that is listed on the bus and not managed: for
    every queue [q] in the list of candidates whose [rule_name] is the name
    of such a rule, the pass sends no delete request for the queue's URL and
    records no orphan under the queue's name. *)
Theorem cleanup_spares_live_rules rules dry_run w qs w1 q r :
  list_all_dlq_queues w = (Ok qs, w1) ->
  q ∈ qs ->
  r ∈ rules ->
  is_aws_managed r = false ->
  dq_rule_name q = Name r ->
  exists res w' calls,
    cleanup_orphaned_dlqs rules dry_run w = (Ok res, w') /\
    w_trace w' = w_trace w ++ calls /\
    (DeleteQueue (dq_url q) ∉ calls) /\
    (forall e, e ∈ orphaned_queues res -> oq_queue_name e <> dq_name q).
Proof.
  intros Hl Hq Hr Hm Hn.
  assert (Hlive : is_orphan (live_rule_names rules) q = false).
  { unfold is_orphan. apply bool_decide_eq_false. intros Hno. apply Hno.
    apply elem_of_live_rule_names. by exists r. }
  destruct dry_run.
  { exists {| orphaned_queues := []; deleted_count := 0 |}, w, [].
    rewrite app_nil_r. repeat split; [apply not_elem_of_nil|].
    intros e He. by apply elem_of_nil in He. }
  destruct (cleanup_orphaned_dlqs_run rules w)
    as (qs' & w1' & res & w' & Hl' & Hc & Ho & Ht & _).
  rewrite Hl in Hl'. injection Hl' as <- <-.
  destruct (list_all_dlq_queues_run w) as (qs' & w1' & Hl' & _ & Hlisted).
  rewrite Hl in Hl'. injection Hl' as <- <-.
  exists res, w', (ListQueues ::
    map (fun q => DeleteQueue (dq_url q))
        (List.filter (is_orphan (live_rule_names rules)) qs)).
  repeat split; [done|done| |].
  - intros Hin. apply elem_of_cons in Hin as [?|Hin]; [done|].
    apply list_elem_of_fmap in Hin as (q' & Hu & Hq').
    apply list_elem_of_In, filter_In in Hq' as [Hq' Ho'].
    apply list_elem_of_In in Hq'. injection Hu as Hu.
    pose proof (Hlisted q Hq) as H1. pose proof (Hlisted q' Hq') as H2.
    rewrite Hu, H2 in H1. congruence.
  - intros e He Hname. rewrite Ho in He.
    apply list_elem_of_fmap in He as (q' & -> & Hq').
    apply list_elem_of_In, filter_In in Hq' as [Hq' Ho'].
    apply list_elem_of_In in Hq'. cbn in Hname.
    destruct (dq_name_of_listed q (Hlisted q Hq)) as [_ H1].
    destruct (dq_name_of_listed q' (Hlisted q' Hq')) as [_ H2].
    rewrite Hname, H1 in H2. injection H2 as H2.
    unfold is_orphan in *. rewrite <- H2 in Ho'. congruence.
Qed.

Lemma cleanup_spares_live_rules_witness :
  exists res w' calls,
    cleanup_orphaned_dlqs [plain_rule "live"] false live_world = (Ok res, w') /\
    w_trace w' = w_trace live_world ++ calls /\
    (DeleteQueue (dq_url live_queue) ∉ calls) /\
    (forall e, e ∈ orphaned_queues res -> oq_queue_name e <> dq_name live_queue).
Proof.
  apply (cleanup_spares_live_rules [plain_rule "live"] false live_world
           [live_queue] (record_call ListQueues live_world) live_queue
           (plain_rule "live")).
  - vm_compute. reflexivity.
  - apply list_elem_of_here.
  - apply list_elem_of_here.
  - reflexivity.
  - reflexivity.
Defined.

(** C9. A queue whose name ends in the tokens [rule], [dlq] and has no
    such pair earlier is left out by [list_all_dlq_queues], whose search
    stops at position [len(parts) - 3]; so orphan cleanup neither records
    nor deletes it, whatever the rules are. *)
Theorem standard_queue_is_never_listed url front :
  Py.split "-" (queue_name_of_url url) = front ++ ["rule"; "dlq"] ->
  (forall i, (i < length front)%nat ->
     ~ ((front ++ ["rule"; "dlq"]) !! i = Some "rule" /\
        (front ++ ["rule"; "dlq"]) !! (i + 1)%nat = Some "dlq")) ->
  forall rules dry_run w,
    (exists qs w1,
        list_all_dlq_queues w = (Ok qs, w1) /\
        forall q, q ∈ qs -> dq_url q <> url /\ dq_name q <> queue_name_of_url url) /\
    (exists res w' calls,
        cleanup_orphaned_dlqs rules dry_run w = (Ok res, w') /\
        w_trace w' = w_trace w ++ calls /\
        (DeleteQueue url ∉ calls) /\
        forall e, e ∈ orphaned_queues res -> oq_queue_name e <> queue_name_of_url url).
Proof.
  intros Hparts Hpair rules dry_run w.
  assert (Hnone : extract_rule_name (queue_name_of_url url) = None).
  { apply extract_rule_name_no_pair. rewrite Hparts. intros i Hi.
    rewrite length_app in Hi. cbn [length] in Hi.
    unfold is_rule_dlq_at. apply andb_false_iff.
    destruct (bool_decide_reflect ((front ++ ["rule"; "dlq"]) !! i = Some "rule"));
      [|by left].
    destruct (bool_decide_reflect
                ((front ++ ["rule"; "dlq"]) !! (i + 1)%nat = Some "dlq"));
      [|by right].
    exfalso. apply (Hpair i); [lia|done]. }
  destruct (list_all_dlq_queues_run w) as (qs & w1 & Hl & _ & Hlisted).
  assert (Hqs : forall q, q ∈ qs ->
            dq_url q <> url /\ dq_name q <> queue_name_of_url url).
  { intros q Hq. pose proof (Hlisted q Hq) as H1.
    destruct (dq_name_of_listed q H1) as [H2 H3]. split.
    - intros <-. rewrite <- H2 in Hnone. congruence.
    - intros Heq. rewrite Heq in H3. congruence. }
  split; [by exists qs, w1|].
  destruct dry_run.
  { exists {| orphaned_queues := []; deleted_count := 0 |}, w, [].
    rewrite app_nil_r. repeat split; [apply not_elem_of_nil|].
    intros e He. by apply elem_of_nil in He. }
  destruct (cleanup_orphaned_dlqs_run rules w)
    as (qs' & w1' & res & w' & Hl' & Hc & Ho & Ht & _).
  rewrite Hl in Hl'. injection Hl' as <- <-.
  exists res, w', (ListQueues ::
    map (fun q => DeleteQueue (dq_url q))
        (List.filter (is_orphan (live_rule_names rules)) qs)).
  repeat split; [done|done| |].
  - intros Hin. apply elem_of_cons in Hin as [?|Hin]; [done|].
    apply list_elem_of_fmap in Hin as (q' & Hu & Hq').
    apply list_elem_of_In, filter_In in Hq' as [Hq' _].
    apply list_elem_of_In in Hq'. injection Hu as Hu.
    by destruct (Hqs q' Hq') as [H1 _].
  - intros e He. rewrite Ho in He.
    apply list_elem_of_fmap in He as (q' & -> & Hq').
    apply list_elem_of_In, filter_In in Hq' as [Hq' _].
    apply list_elem_of_In in Hq'. cbn.
    by destruct (Hqs q' Hq') as [_ H1].
Qed.

Lemma standard_queue_is_never_listed_witness :
  (exists qs w1,
      list_all_dlq_queues standard_world = (Ok qs, w1) /\
      forall q, q ∈ qs ->
        dq_url q <> Sqs.url_base +:+ "prod-orders-rule-dlq" /\
        dq_name q <> queue_name_of_url (Sqs.url_base +:+ "prod-orders-rule-dlq")) /\
  (exists res w' calls,
      cleanup_orphaned_dlqs [] false standard_world = (Ok res, w') /\
      w_trace w' = w_trace standard_world ++ calls /\
      (DeleteQueue (Sqs.url_base +:+ "prod-orders-rule-dlq") ∉ calls) /\
      forall e, e ∈ orphaned_queues res ->
        oq_queue_name e <> queue_name_of_url (Sqs.url_base +:+ "prod-orders-rule-dlq")).
Proof.
  apply (standard_queue_is_never_listed
           (Sqs.url_base +:+ "prod-orders-rule-dlq") ["prod"; "orders"]).
  - vm_compute. reflexivity.
  - intros [|[|i]] Hi; cbn; [intros [H _]; discriminate H
                            |intros [H _]; discriminate H
                            |cbn in Hi; lia].
Defined.

(** C10. Outside dry-run an orphaned queue is recorded with the action
    [deleted] before its delete request is sent.  When the request fails
    with a client error the entry stays and the counter does not move, when
    it succeeds the counter moves by one; so the counter is at most, and can
    be strictly less than, the number of entries that read [deleted]. *)
Theorem orphan_recorded_before_delete :
  (forall rule_names q rest result w code w1,
      is_orphan rule_names q = true ->
      Sqs.delete_queue (dq_url q) w = (Raise (ClientError code), w1) ->
      cleanup_queues rule_names false (q :: rest) result w =
      cleanup_queues rule_names false rest
        {| orphaned_queues := orphaned_queues result ++ [orphan_entry false q];
           deleted_count := deleted_count result |} w1) /\
  (forall rule_names q rest result w w1,
      is_orphan rule_names q = true ->
      Sqs.delete_queue (dq_url q) w = (Ok tt, w1) ->
      cleanup_queues rule_names false (q :: rest) result w =
      cleanup_queues rule_names false rest
        {| orphaned_queues := orphaned_queues result ++ [orphan_entry false q];
           deleted_count := S (deleted_count result) |} w1) /\
  (forall rules w, exists qs w1 res w',
      list_all_dlq_queues w = (Ok qs, w1) /\
      cleanup_orphaned_dlqs rules false w = (Ok res, w') /\
      orphaned_queues res =
        map (orphan_entry false) (List.filter (is_orphan (live_rule_names rules)) qs) /\
      (forall e, e ∈ orphaned_queues res -> oq_action e = "deleted") /\
      (deleted_count res <= length (orphaned_queues res))%nat) /\
  (exists res w',
      cleanup_orphaned_dlqs [] false denied_world = (Ok res, w') /\
      orphaned_queues res = [orphan_entry false gone_queue] /\
      oq_action (orphan_entry false gone_queue) = "deleted" /\
      deleted_count res = 0%nat /\
      w_trace w' = [ListQueues; DeleteQueue (dq_url gone_queue)]).
Proof.
  repeat apply conj.
  - intros rule_names q rest result w code w1 Ho Hd.
    cbn [cleanup_queues]. rewrite Ho. unfold bind at 1, try_except, bind.
    by rewrite Hd.
  - intros rule_names q rest result w w1 Ho Hd.
    cbn [cleanup_queues]. rewrite Ho. unfold bind at 1, try_except, bind.
    by rewrite Hd.
  - intros rules w.
    destruct (cleanup_orphaned_dlqs_run rules w)
      as (qs & w1 & res & w' & Hl & Hc & Ho & Ht & Hn).
    exists qs, w1, res, w'. repeat split; try done.
    intros e He. rewrite Ho in He.
    by apply list_elem_of_fmap in He as (q & -> & _).
  - eexists _, _. vm_compute. repeat split; reflexivity.
Qed.

Lemma orphan_recorded_before_delete_witness :
  is_orphan ∅ gone_queue = true /\
  Sqs.delete_queue (dq_url gone_queue) denied_world
  = (Raise (ClientError "AccessDenied"),
     record_call (DeleteQueue (dq_url gone_queue)) denied_world) /\
  cleanup_queues ∅ false [gone_queue]
    {| orphaned_queues := []; deleted_count := 0 |} denied_world =
  cleanup_queues ∅ false []
    {| orphaned_queues := [] ++ [orphan_entry false gone_queue];
       deleted_count := 0 |}
    (record_call (DeleteQueue (dq_url gone_queue)) denied_world).
Proof.
  split; [reflexivity|]. split; [reflexivity|].
  apply (proj1 orphan_recorded_before_delete ∅ gone_queue []
           {| orphaned_queues := []; deleted_count := 0 |} denied_world
           "AccessDenied"); reflexivity.
Defined.

(** ** Rewriting targets *)

Section Rewrite.

Lemma copy_loop_lookup (t : Target) keys :
forall (clone : Target) k,
  foldl (fun clone key =>
           match t !! key with
           | Some v => <[key := v]> clone
           | None => clone
           end) clone keys !! k
  = if bool_decide (k ∈ keys)
    then match t !! k with Some v => Some v | None => clone !! k end
    else clone !! k.
Proof.
induction keys as [|a keys IH]; intros clone k; cbn [foldl].
- by rewrite bool_decide_eq_false_2 by apply not_elem_of_nil.
- rewrite IH. destruct (decide (k = a)) as [->|Hne].
  + rewrite (bool_decide_eq_true_2 (a ∈ a :: keys)) by apply list_elem_of_here.
    destruct (t !! a) eqn:Ha; [rewrite lookup_insert_eq|]; by case_bool_decide.
  + assert (Hiff : k ∈ a :: keys <-> k ∈ keys).
    { rewrite elem_of_cons. split; [intros [?|?]; [congruence|done]|by right]. }
    rewrite (bool_decide_ext _ _ Hiff).
    destruct (t !! a) eqn:Ha; [rewrite lookup_insert_ne by done|]; done.
Qed.

Lemma id_not_copied : "Id" ∉ copied_keys.
Proof. apply (bool_decide_unpack _). by vm_compute. Qed.

Lemma arn_not_copied : "Arn" ∉ copied_keys.
Proof. apply (bool_decide_unpack _). by vm_compute. Qed.

Lemma dead_letter_config_not_kept : "DeadLetterConfig" ∉ kept_keys.
Proof. apply (bool_decide_unpack _). by vm_compute. Qed.

(** The clone has the kept fields of the original, and nothing else. *)
Lemma clone_target_lookup t clone k :
clone_target t = Ok clone ->
clone !! k = if bool_decide (k ∈ kept_keys) then t !! k else None.
Proof.
unfold clone_target, rbind, require.
destruct (t !! "Id") as [id|] eqn:Hid; [|done].
destruct (t !! "Arn") as [arn|] eqn:Harn; [|done].
intros [= <-]. unfold copy_keys. rewrite copy_loop_lookup.
unfold kept_keys.
destruct (decide (k = "Id")) as [->|Hi].
{ rewrite bool_decide_eq_false_2 by apply id_not_copied.
  rewrite lookup_insert_ne by done. rewrite lookup_insert_eq.
  by rewrite bool_decide_eq_true_2 by apply list_elem_of_here. }
destruct (decide (k = "Arn")) as [->|Ha].
{ rewrite bool_decide_eq_false_2 by apply arn_not_copied.
  rewrite lookup_insert_eq.
  by rewrite bool_decide_eq_true_2
    by apply list_elem_of_further, list_elem_of_here. }
rewrite !lookup_insert_ne, lookup_empty by done.
assert (Hiff : k ∈ "Id" :: "Arn" :: copied_keys <-> k ∈ copied_keys)
  by (rewrite !elem_of_cons; split;
      [intros [?|[?|?]]; [congruence|congruence|done]|by right; right]).
rewrite (bool_decide_ext _ _ Hiff).
case_bool_decide; [|done]. by destruct (t !! k).
Qed.

Lemma targets_to_attach_elem queue_arn targets :
forall to_update u,
  targets_to_attach queue_arn targets = Ok to_update ->
  u ∈ to_update ->
  exists t clone,
    t ∈ targets /\ dead_letter_arn t = Ok None /\
    clone_target t = Ok clone /\
    u = <["DeadLetterConfig" := JObj [("Arn", JStr queue_arn)]]> clone.
Proof.
induction targets as [|t targets IH]; intros to_update u; cbn [targets_to_attach].
- intros [= <-] Hu. by apply elem_of_nil in Hu.
- unfold rbind.
  assert (Hrec : forall l, targets_to_attach queue_arn targets = Ok l ->
            u ∈ l -> exists t0 clone, t0 ∈ t :: targets /\
              dead_letter_arn t0 = Ok None /\ clone_target t0 = Ok clone /\
              u = <["DeadLetterConfig" := JObj [("Arn", JStr queue_arn)]]> clone).
  { intros l Hl Hu. destruct (IH l u Hl Hu) as (t0 & c & ? & ? & ? & ?).
    exists t0, c. split; [by right|done]. }
  destruct (not_attachable t) as [[|]|]; [by eauto| |done].
  destruct (dead_letter_arn t) as [[a|]|] eqn:Hd; [by eauto| |done].
  destruct (clone_target t) as [clone|] eqn:Hc; [|done].
  destruct (targets_to_attach queue_arn targets) as [l|] eqn:Hl; [|done].
  intros [= <-] Hu. apply elem_of_cons in Hu as [->|Hu]; [|by eauto].
  exists t, clone. split; [by left|done].
Qed.

Lemma targets_to_detach_elem q_arn targets :
forall to_update u,
  targets_to_detach q_arn targets = Ok to_update ->
  u ∈ to_update ->
  exists t, t ∈ targets /\ points_to q_arn t = Ok true /\ clone_target t = Ok u.
Proof.
induction targets as [|t targets IH]; intros to_update u; cbn [targets_to_detach].
- intros [= <-] Hu. by apply elem_of_nil in Hu.
- unfold rbind.
  assert (Hrec : forall l, targets_to_detach q_arn targets = Ok l ->
            u ∈ l -> exists t0, t0 ∈ t :: targets /\
              points_to q_arn t0 = Ok true /\ clone_target t0 = Ok u).
  { intros l Hl Hu. destruct (IH l u Hl Hu) as (t0 & ? & ? & ?).
    exists t0. split; [by right|done]. }
  destruct (points_to q_arn t) as [[|]|] eqn:Hp; [|by eauto|done].
  destruct (clone_target t) as [clone|] eqn:Hc; [|done].
  destruct (targets_to_detach q_arn targets) as [l|] eqn:Hl; [|done].
  intros [= <-] Hu. apply elem_of_cons in Hu as [->|Hu]; [|by eauto].
  exists t. split; [by left|done].
Qed.

End Rewrite.

(** C7, as the code has it.  Every target the attacher republishes
    comes from a listed target whose fields [Id], [Arn] and the twelve
    copied keys it carries over unchanged, with [DeadLetterConfig] set to the
    queue; every target the teardown rewrites does the same and has no
    [DeadLetterConfig].  A field under any other key is not carried over. *)
Theorem rewrite_keeps_listed_fields :
  (forall queue_arn targets to_update u,
      targets_to_attach queue_arn targets = Ok to_update ->
      u ∈ to_update ->
      exists t, t ∈ targets /\
        (forall k, k ∈ kept_keys -> u !! k = t !! k) /\
        u !! "DeadLetterConfig" = Some (JObj [("Arn", JStr queue_arn)]) /\
        (forall k, k ∉ kept_keys -> k <> "DeadLetterConfig" -> u !! k = None)) /\
  (forall q_arn targets to_update u,
      targets_to_detach q_arn targets = Ok to_update ->
      u ∈ to_update ->
      exists t, t ∈ targets /\
        (forall k, k ∈ kept_keys -> u !! k = t !! k) /\
        (forall k, k ∉ kept_keys -> u !! k = None)).
Proof.
  split.
  - intros queue_arn targets to_update u Hl Hu.
    destruct (targets_to_attach_elem _ _ _ _ Hl Hu) as (t & clone & Ht & _ & Hc & ->).
    exists t. split; [done|]. repeat split.
    + intros k Hk. rewrite lookup_insert_ne
        by (intros <-; by apply dead_letter_config_not_kept).
      rewrite (clone_target_lookup _ _ k Hc). by rewrite bool_decide_eq_true_2.
    + by rewrite lookup_insert_eq.
    + intros k Hk Hne. rewrite lookup_insert_ne by done.
      rewrite (clone_target_lookup _ _ k Hc). by rewrite bool_decide_eq_false_2.
  - intros q_arn targets to_update u Hl Hu.
    destruct (targets_to_detach_elem _ _ _ _ Hl Hu) as (t & Ht & _ & Hc).
    exists t. split; [done|]. split.
    + intros k Hk. rewrite (clone_target_lookup _ _ k Hc).
      by rewrite bool_decide_eq_true_2.
    + intros k Hk. rewrite (clone_target_lookup _ _ k Hc).
      by rewrite bool_decide_eq_false_2.
Qed.

Lemma rewrite_keeps_listed_fields_witness :
  exists t, t ∈ [pipeline_target] /\
    (forall k, k ∈ kept_keys -> pipeline_target_attached !! k = t !! k) /\
    pipeline_target_attached !! "DeadLetterConfig"
    = Some (JObj [("Arn", JStr sample_dlq_arn)]) /\
    (forall k, k ∉ kept_keys -> k <> "DeadLetterConfig" ->
               pipeline_target_attached !! k = None).
Proof.
  apply (proj1 rewrite_keeps_listed_fields sample_dlq_arn [pipeline_target]
           [pipeline_target_attached] pipeline_target_attached).
  - vm_compute. reflexivity.
  - apply list_elem_of_here.
Defined.

(** C7 as stated fails: a target may carry a field outside the copied
    keys, here [SageMakerPipelineParameters], and both rewrites leave it
    out. *)
Lemma rewrite_drops_other_fields :
  targets_to_attach sample_dlq_arn [pipeline_target] = Ok [pipeline_target_attached] /\
  targets_to_detach sample_dlq_arn [pipeline_target_with_dlq]
  = Ok [pipeline_target_detached] /\
  pipeline_target !! "SageMakerPipelineParameters" = Some pipeline_parameters /\
  pipeline_target_with_dlq !! "SageMakerPipelineParameters" = Some pipeline_parameters /\
  pipeline_target_attached !! "SageMakerPipelineParameters" = None /\
  pipeline_target_detached !! "SageMakerPipelineParameters" = None /\
  ~ (forall k, k <> "DeadLetterConfig" ->
               pipeline_target_attached !! k = pipeline_target !! k) /\
  ~ (forall k, k <> "DeadLetterConfig" ->
               pipeline_target_detached !! k = pipeline_target_with_dlq !! k).
Proof.
  repeat apply conj; try (vm_compute; reflexivity).
  - intros H. specialize (H "SageMakerPipelineParameters"). vm_compute in H.
    by specialize (H ltac:(discriminate)).
  - intros H. specialize (H "SageMakerPipelineParameters"). vm_compute in H.
    by specialize (H ltac:(discriminate)).
Qed.

(** ** The policy merger *)

Section Policy.

Lemma assoc_assoc_set k v fields :
Json.assoc k (Json.assoc_set k v fields) = Some v.
Proof.
induction fields as [|[k' v'] fields IH]; cbn [Json.assoc_set Json.assoc].
- by rewrite String.eqb_refl.
- destruct (String.eqb k' k) eqn:Hk; cbn [Json.assoc].
  + by rewrite String.eqb_refl.
  + by rewrite Hk.
Qed.

(** The inner [try] always yields a policy: the stored document of
  the queue behind the URL, or the empty policy. *)
Lemma read_policy_run queue_url w :
exists policy,
  read_policy queue_url w
  = (Ok policy, record_call (GetQueueAttributes queue_url ["Policy"]) w) /\
  (policy = empty_policy \/
   exists q, List.find (Sqs.by_url queue_url) (w_queues w) = Some q /\
             q_policy q = Some (PolicyJson policy)).
Proof.
unfold read_policy, try_except, bind, Sqs.get_queue_attributes, request.
destruct (w_faults w _ _); [by eauto|].
cbn [w_queues record_call].
destruct (List.find _ _) as [q|] eqn:Hf; [|by eauto].
cbn. destruct (q_policy q) as [[doc|text]|] eqn:Hp; cbn; [by eauto 6| |by eauto].
destruct (Py.truthy text); cbn; by eauto.
Qed.

(** When the scan finds the statement, the call reads and returns
  [False]; nothing is written. *)
Lemma update_queue_policy_found queue_url queue_arn rule_arn w q fields items :
w_faults w (length (w_trace w)) (GetQueueAttributes queue_url ["Policy"]) = None ->
List.find (Sqs.by_url queue_url) (w_queues w) = Some q ->
q_policy q = Some (PolicyJson (JObj fields)) ->
Json.assoc "Statement" fields = Some (JArr items) ->
statement_exists rule_arn items = Ok true ->
update_queue_policy queue_url queue_arn rule_arn w
= (Ok false, record_call (GetQueueAttributes queue_url ["Policy"]) w).
Proof.
intros Hfault Hfind Hpol Hst Hex.
unfold update_queue_policy, try_except, bind at 1.
unfold read_policy, try_except, bind, Sqs.get_queue_attributes, request.
rewrite Hfault. cbn [w_queues record_call]. rewrite Hfind. cbn.
rewrite Hpol. cbn. rewrite Hst. cbn. rewrite Hex. reflexivity.
Qed.

Local Ltac unchanged :=
left; first [reflexivity | match goal with |- context [Raise ?e] => by destruct e end].

(** What a call can do to the queues: nothing, or give the queues
  behind the URL a policy whose statements are those that were scanned
  without a match followed by the new one. *)
Lemma update_queue_policy_queues queue_url queue_arn rule_arn w :
w_queues (snd (update_queue_policy queue_url queue_arn rule_arn w)) = w_queues w \/
exists doc items,
  w_queues (snd (update_queue_policy queue_url queue_arn rule_arn w))
  = map (fun q => if Sqs.by_url queue_url q then Sqs.with_policy doc q else q)
        (w_queues w) /\
  (forall q, policy_statements (Sqs.with_policy doc q)
             = items ++ [desired_statement queue_arn rule_arn]) /\
  statement_exists rule_arn items = Ok false /\
  (items = [] \/ exists q, q ∈ w_queues w /\ policy_statements q = items).
Proof.
set (run := update_queue_policy queue_url queue_arn rule_arn w).
assert (Hrun : run = update_queue_policy queue_url queue_arn rule_arn w)
  by reflexivity.
clearbody run. revert Hrun.
unfold update_queue_policy, try_except, bind at 1.
destruct (read_policy_run queue_url w) as (policy & -> & Hpolicy).
set (w1 := record_call (GetQueueAttributes queue_url ["Policy"]) w).
unfold bind at 1, lift.
destruct policy as [| | | | |fields]; cbn [Json.get_default];
  try (intros ->; unchanged).
unfold bind at 1.
destruct (default (JArr []) (Json.assoc "Statement" fields)) as [| | | |items|]
  eqn:Hst; cbn [iterate]; try (intros ->; unchanged).
- unfold bind at 1. destruct (statement_exists rule_arn _) as [[|]|];
    intros ->; unchanged.
- unfold bind at 1.
  destruct (statement_exists rule_arn items) as [[|]|] eqn:Hex;
    try (intros ->; unchanged).
  cbn [append_statement set_statement]. unfold bind at 1 2 3.
  unfold Sqs.set_queue_attributes, request.
  destruct (w_faults w1 _ _); [intros ->; unchanged|].
  cbn [w_queues record_call].
  destruct (List.find _ _) as [q0|] eqn:Hf0; [|intros ->; unchanged].
  intros ->. right. eexists _, items. cbn. split; [reflexivity|].
  split; [|split; [done|]].
  + intros q. unfold policy_statements. cbn. by rewrite assoc_assoc_set.
  + destruct Hpolicy as [Hempty|(q & Hfind & Hp)].
    * left. injection Hempty as ->. cbn in Hst. by injection Hst as <-.
    * destruct (Json.assoc "Statement" fields) as [v|] eqn:Ha; cbn in Hst.
      -- subst v. right. exists q. split.
         ++ injection Hfind as <-. apply list_elem_of_In.
            apply (find_some _ _ Hf0).
         ++ unfold policy_statements. by rewrite Hp, Ha.
      -- left. by injection Hst as <-.
- unfold bind at 1. destruct (statement_exists rule_arn _) as [[|]|];
    intros ->; unchanged.
Qed.

Lemma grants_desired queue_arn rule_arn source :
grants source (desired_statement queue_arn rule_arn)
= String.eqb rule_arn source.
Proof.
unfold grants, statement_matches, desired_statement. cbn.
by destruct (String.eqb rule_arn source).
Qed.

Lemma statement_exists_false_count rule_arn items :
statement_exists rule_arn items = Ok false ->
grant_count rule_arn items = 0%nat.
Proof.
unfold grant_count.
induction items as [|st items IH]; cbn [statement_exists List.filter]; [done|].
unfold rbind, grants.
destruct (statement_matches rule_arn st) as [[|]|]; [done| |done].
intros H. by apply IH.
Qed.

Lemma grant_count_app source l1 l2 :
grant_count source (l1 ++ l2)
= (grant_count source l1 + grant_count source l2)%nat.
Proof. unfold grant_count. by rewrite List.filter_app, length_app. Qed.

(** One call keeps the triples unique. *)
Lemma update_queue_policy_no_duplicates queue_url queue_arn rule_arn w :
no_duplicate_grants w ->
no_duplicate_grants (snd (update_queue_policy queue_url queue_arn rule_arn w)).
Proof.
intros Hinv q source Hq.
destruct (update_queue_policy_queues queue_url queue_arn rule_arn w)
  as [Heq|(doc & items & Heq & Hdoc & Hex & Hitems)]; rewrite Heq in Hq.
{ by apply Hinv. }
apply list_elem_of_fmap in Hq as (q0 & -> & Hq0).
destruct (Sqs.by_url queue_url q0); [|by apply Hinv].
rewrite Hdoc, grant_count_app. unfold grant_count at 2.
cbn [List.filter]. rewrite grants_desired.
destruct (String.eqb_spec rule_arn source) as [<-|Hne]; cbn [length].
- rewrite (statement_exists_false_count _ _ Hex). lia.
- destruct Hitems as [->|(q1 & Hq1 & <-)]; [cbn; lia|].
  pose proof (Hinv q1 source Hq1). lia.
Qed.

End Policy.

(** C2, as the code has it.  When no queue's policy holds two statements
    with the same triple before, none does after any number of calls of
    the merger with the same arguments, whatever the service answers; and
    when the policy that the call reads holds a statement the scan
    recognises, the call returns [False] after that one read, with nothing
    written. *)
Theorem policy_merge_keeps_grants_unique :
  (forall n queue_url queue_arn rule_arn w,
      no_duplicate_grants w ->
      no_duplicate_grants (after_updates n queue_url queue_arn rule_arn w)) /\
  (forall queue_url queue_arn rule_arn w q fields items,
      w_faults w (length (w_trace w)) (GetQueueAttributes queue_url ["Policy"]) = None ->
      List.find (Sqs.by_url queue_url) (w_queues w) = Some q ->
      q_policy q = Some (PolicyJson (JObj fields)) ->
      Json.assoc "Statement" fields = Some (JArr items) ->
      statement_exists rule_arn items = Ok true ->
      update_queue_policy queue_url queue_arn rule_arn w
      = (Ok false, record_call (GetQueueAttributes queue_url ["Policy"]) w)).
Proof.
  split.
  - induction n as [|n IH]; intros queue_url queue_arn rule_arn w Hinv;
      cbn [after_updates]; [done|].
    apply IH. by apply update_queue_policy_no_duplicates.
  - apply update_queue_policy_found.
Qed.

Lemma policy_merge_keeps_grants_unique_witness :
  no_duplicate_grants
    (after_updates 3 (Sqs.url_base +:+ orders_queue_name)
       (Sqs.arn_base +:+ orders_queue_name) orders_rule_arn fresh_world) /\
  update_queue_policy (Sqs.url_base +:+ orders_queue_name)
    (Sqs.arn_base +:+ orders_queue_name) orders_rule_arn
    (after_updates 1 (Sqs.url_base +:+ orders_queue_name)
       (Sqs.arn_base +:+ orders_queue_name) orders_rule_arn fresh_world)
  = (Ok false,
     record_call (GetQueueAttributes (Sqs.url_base +:+ orders_queue_name) ["Policy"])
       (after_updates 1 (Sqs.url_base +:+ orders_queue_name)
          (Sqs.arn_base +:+ orders_queue_name) orders_rule_arn fresh_world)).
Proof.
  split.
  - apply (proj1 policy_merge_keeps_grants_unique 3%nat).
    intros q source Hq. apply list_elem_of_singleton in Hq as ->.
    cbn. lia.
  - eapply (proj2 policy_merge_keeps_grants_unique); try reflexivity.
Defined.

(** C2 as stated fails: a policy that holds the grant twice before the
    calls still holds it twice after them; the call sees the first one and
    returns. *)
Lemma policy_merge_keeps_existing_duplicates :
  update_queue_policy (Sqs.url_base +:+ orders_queue_name)
    (Sqs.arn_base +:+ orders_queue_name) orders_rule_arn doubled_world
  = (Ok false,
     record_call (GetQueueAttributes (Sqs.url_base +:+ orders_queue_name) ["Policy"])
       doubled_world) /\
  map (fun q => grant_count orders_rule_arn (policy_statements q))
      (w_queues (after_updates 1 (Sqs.url_base +:+ orders_queue_name)
                   (Sqs.arn_base +:+ orders_queue_name) orders_rule_arn doubled_world))
  = [2%nat] /\
  map (fun q => grant_count orders_rule_arn (policy_statements q))
      (w_queues (after_updates 3 (Sqs.url_base +:+ orders_queue_name)
                   (Sqs.arn_base +:+ orders_queue_name) orders_rule_arn doubled_world))
  = [2%nat] /\
  ~ no_duplicate_grants
      (after_updates 3 (Sqs.url_base +:+ orders_queue_name)
         (Sqs.arn_base +:+ orders_queue_name) orders_rule_arn doubled_world).
Proof.
  repeat apply conj; try (vm_compute; reflexivity).
  intros H.
  specialize (H (queue_with_policy orders_queue_name (Some (PolicyJson doubled_policy)))
                orders_rule_arn).
  assert (Hin : queue_with_policy orders_queue_name (Some (PolicyJson doubled_policy))
                ∈ w_queues (after_updates 3 (Sqs.url_base +:+ orders_queue_name)
                   (Sqs.arn_base +:+ orders_queue_name) orders_rule_arn doubled_world)).
  { vm_compute. apply list_elem_of_here. }
  specialize (H Hin). vm_compute in H. lia.
Qed.

(** ** Lookups *)

Section Lookups.

Lemma only_lookups_refl w : only_lookups w w.
Proof. repeat split. exists []. by rewrite app_nil_r. Qed.

Lemma only_lookups_trans w1 w2 w3 :
only_lookups w1 w2 -> only_lookups w2 w3 -> only_lookups w1 w3.
Proof.
intros (Hr & Ht & Hq & Hf & c1 & Hc1 & Hl1) (Hr' & Ht' & Hq' & Hf' & c2 & Hc2 & Hl2).
repeat split; try congruence.
exists (c1 ++ c2). rewrite Hc2, Hc1, <- app_assoc. split; [done|].
rewrite forallb_app. by rewrite Hl1, Hl2.
Qed.

Lemma only_lookups_record c w :
is_lookup c = true -> only_lookups w (record_call c w).
Proof.
intros Hc. repeat split. exists [c]. split; [done|]. cbn. by rewrite Hc.
Qed.

(** A lookup sends no request that changes or lists queues. *)
Lemma only_lookups_no_delete w w' calls url :
w_trace w' = w_trace w ++ calls -> only_lookups w w' ->
DeleteQueue url ∉ calls.
Proof.
intros Ht (_ & _ & _ & _ & calls' & Ht' & Hl) Hin.
rewrite Ht in Ht'. apply app_inv_head in Ht'. subst calls'.
rewrite forallb_forall in Hl. apply list_elem_of_In in Hin.
by specialize (Hl _ Hin).
Qed.

(** [get_queue_by_name] only looks up, and fails with client errors
  only. *)
Lemma get_queue_by_name_run name w :
exists r w',
  get_queue_by_name name w = (r, w') /\ only_lookups w w' /\
  ((exists found, r = Ok found) \/ exists code, r = Raise (ClientError code)).
Proof.
unfold get_queue_by_name, try_except, bind at 1, Sqs.get_queue_url, request.
set (w1 := record_call (GetQueueUrl name) w).
assert (H1 : only_lookups w w1) by by apply only_lookups_record.
destruct (w_faults w _ _) as [code|].
{ cbn. destruct (is_not_found code); eexists _, _; by eauto 6. }
destruct (List.find _ _) as [q|]; cycle 1.
{ cbn. eexists _, _. split; [reflexivity|]. by eauto 6. }
unfold bind at 1, Sqs.get_queue_attributes, request.
set (w2 := record_call (GetQueueAttributes (q_url q) ["QueueArn"]) w1).
assert (H2 : only_lookups w w2).
{ eapply only_lookups_trans; [done|]. by apply only_lookups_record. }
destruct (w_faults w1 _ _) as [code|].
{ cbn. destruct (is_not_found code); eexists _, _; by eauto 6. }
destruct (List.find _ _) as [q'|]; cycle 1.
{ cbn. eexists _, _. split; [reflexivity|]. by eauto 6. }
cbn. eexists _, _. split; [reflexivity|]. by eauto 6.
Qed.

(** With a service that answers, a queue that is there is found. *)
Lemma get_queue_by_name_found name w q q' :
w_faults w (length (w_trace w)) (GetQueueUrl name) = None ->
w_faults w (S (length (w_trace w))) (GetQueueAttributes (q_url q) ["QueueArn"])
= None ->
List.find (Sqs.by_name name) (w_queues w) = Some q ->
List.find (Sqs.by_url (q_url q)) (w_queues w) = Some q' ->
get_queue_by_name name w
= (Ok (Some (q_url q, q_arn q')),
   record_call (GetQueueAttributes (q_url q) ["QueueArn"])
     (record_call (GetQueueUrl name) w)).
Proof.
intros Hf1 Hf2 Hq Hq'.
unfold get_queue_by_name, try_except, bind at 1, Sqs.get_queue_url, request.
rewrite Hf1. cbn [w_queues record_call]. rewrite Hq.
unfold bind at 1, Sqs.get_queue_attributes, request.
cbn [w_queues w_trace w_faults record_call].
rewrite length_app. cbn [length]. rewrite Nat.add_1_r, Hf2, Hq'. reflexivity.
Qed.

(** A queue that is not there is reported as absent. *)
Lemma get_queue_by_name_absent name w :
w_faults w (length (w_trace w)) (GetQueueUrl name) = None ->
List.find (Sqs.by_name name) (w_queues w) = None ->
get_queue_by_name name w = (Ok None, record_call (GetQueueUrl name) w).
Proof.
intros Hf1 Hq.
unfold get_queue_by_name, try_except, bind at 1, Sqs.get_queue_url, request.
rewrite Hf1. cbn [w_queues record_call]. rewrite Hq. reflexivity.
Qed.

End Lookups.

(** ** The teardown guard *)

Section Guard.

(** The guard fires when the read of the counts is answered and the
  counts add up to more than zero. *)
Lemma has_messages_fires q_url w q :
w_faults w (length (w_trace w)) (GetQueueAttributes q_url message_count_names)
= None ->
List.find (Sqs.by_url q_url) (w_queues w) = Some q ->
0 < q_visible q + q_not_visible q ->
has_messages q_url w
= (Ok true, record_call (GetQueueAttributes q_url message_count_names) w).
Proof.
intros Hf Hq Hpos.
unfold has_messages, try_except, bind, Sqs.get_queue_attributes, request.
rewrite Hf. cbn [w_queues record_call]. rewrite Hq. cbn.
destruct (Z.gtb_spec (q_visible q + q_not_visible q) 0); [done|lia].
Qed.

(** It does not fire when the read fails: the handler passes. *)
Lemma has_messages_passes q_url w code :
w_faults w (length (w_trace w)) (GetQueueAttributes q_url message_count_names)
= Some code ->
has_messages q_url w
= (Ok false, record_call (GetQueueAttributes q_url message_count_names) w).
Proof.
intros Hf.
unfold has_messages, try_except, bind, Sqs.get_queue_attributes, request.
by rewrite Hf.
Qed.

(** The rule's step when the guard fires: the accumulators come back
  as they were, after lookups only. *)
Lemma delete_rule_dlq_guarded event_bus_name rule_name dlq_name d w q :
List.find (Sqs.by_name dlq_name) (w_queues w) = Some q ->
List.find (Sqs.by_url (q_url q)) (w_queues w) = Some q ->
0 < q_visible q + q_not_visible q ->
(forall n, w_faults w n (GetQueueAttributes (q_url q) message_count_names) = None) ->
exists w',
  delete_rule_dlq event_bus_name false rule_name dlq_name d w = (Ok d, w') /\
  only_lookups w w'.
Proof.
intros Hname Hurl Hpos Hf.
unfold delete_rule_dlq, try_except, bind at 1.
unfold get_queue_by_name, try_except, bind at 1, Sqs.get_queue_url, request.
set (w1 := record_call (GetQueueUrl dlq_name) w).
assert (H1 : only_lookups w w1) by by apply only_lookups_record.
destruct (w_faults w _ _) as [code|].
{ cbn. destruct (is_not_found code); eexists; by eauto. }
change (w_queues w1) with (w_queues w). rewrite Hname.
unfold bind at 1, Sqs.get_queue_attributes, request.
set (w2 := record_call (GetQueueAttributes (q_url q) ["QueueArn"]) w1).
assert (H2 : only_lookups w w2).
{ eapply only_lookups_trans; [done|]. by apply only_lookups_record. }
destruct (w_faults w1 _ _) as [code|].
{ cbn. destruct (is_not_found code); eexists; by eauto. }
change (w_queues w2) with (w_queues w). rewrite Hurl. cbn.
destruct (Py.truthy (q_url q)); [|eexists; by eauto].
unfold bind at 1.
rewrite (has_messages_fires (q_url q) w2 q); [| apply Hf | done | done].
eexists. split; [reflexivity|].
eapply only_lookups_trans; [done|]. by apply only_lookups_record.
Qed.

End Guard.

(** C6, as the code has it.  In a teardown that is not a dry run and not
    forced, for a rule whose queue answers the read of its counts with a sum
    above zero, the rule's step sends lookups only (so no delete request and
    no target update), leaves the log of deleted queues and the counter as
    they were, and the loop goes on with the next rule. *)
Theorem guard_keeps_queue_with_messages
    event_bus_name env_prefix skip_rules rule rest d w q :
  is_aws_managed rule = false ->
  in_list (Name rule) skip_rules = false ->
  List.find (Sqs.by_name (generate_dlq_name (Name rule) env_prefix)) (w_queues w)
  = Some q ->
  List.find (Sqs.by_url (q_url q)) (w_queues w) = Some q ->
  0 < q_visible q + q_not_visible q ->
  (forall n, w_faults w n (GetQueueAttributes (q_url q) message_count_names) = None) ->
  exists w' calls,
    delete_rule_dlq event_bus_name false (Name rule)
      (generate_dlq_name (Name rule) env_prefix) d w = (Ok d, w') /\
    w_trace w' = w_trace w ++ calls /\
    (forall url, DeleteQueue url ∉ calls) /\
    forallb is_lookup calls = true /\
    w_queues w' = w_queues w /\
    w_targets w' = w_targets w /\
    cleanup_rules event_bus_name false false env_prefix skip_rules (rule :: rest) d w
    = cleanup_rules event_bus_name false false env_prefix skip_rules rest d w'.
Proof.
  intros Hm Hs Hname Hurl Hpos Hf.
  destruct (delete_rule_dlq_guarded event_bus_name (Name rule)
              (generate_dlq_name (Name rule) env_prefix) d w q Hname Hurl Hpos Hf)
    as (w' & Hrun & Hlook).
  pose proof Hlook as (_ & Ht & Hq & _ & calls & Hc & Hl).
  exists w', calls. repeat split; try done.
  - intros url. by eapply only_lookups_no_delete.
  - cbn [cleanup_rules]. rewrite Hm, Hs. unfold bind at 1. by rewrite Hrun.
Qed.

Lemma guard_keeps_queue_with_messages_witness :
  exists w' calls,
    delete_rule_dlq "main" false "orders" (generate_dlq_name "orders" "prod")
      {| d_queues := []; d_count := 0 |} (busy_world no_faults)
    = (Ok {| d_queues := []; d_count := 0 |}, w') /\
    w_trace w' = w_trace (busy_world no_faults) ++ calls /\
    (forall url, DeleteQueue url ∉ calls) /\
    forallb is_lookup calls = true /\
    w_queues w' = w_queues (busy_world no_faults) /\
    w_targets w' = w_targets (busy_world no_faults) /\
    cleanup_rules "main" false false "prod" [] [plain_rule "orders"]
      {| d_queues := []; d_count := 0 |} (busy_world no_faults)
    = cleanup_rules "main" false false "prod" [] []
        {| d_queues := []; d_count := 0 |} w'.
Proof.
  apply (guard_keeps_queue_with_messages "main" "prod" [] (plain_rule "orders") []
           {| d_queues := []; d_count := 0 |} (busy_world no_faults) busy_queue);
    try reflexivity.
Defined.

(** C6 as stated fails: the read of the counts sits in a [try] whose
    handler passes, so when the service fails that read the queue with three
    visible messages is detached and deleted, and logged as deleted. *)
Lemma guard_passes_when_count_read_fails :
  q_visible busy_queue + q_not_visible busy_queue = 3 /\
  exists w',
    cleanup_all_dlqs "main" false false "prod" [] (busy_world counts_throttled)
    = (Ok {| td_deleted_count := 1;
             td_deleted_queues :=
               [{| dl_rule_name := "orders"; dl_dlq_name := "prod-orders-rule-dlq";
                   dl_action := "deleted" |}];
             td_rules_processed := 1 |}, w') /\
    w_queues w' = [] /\
    w_trace w' =
      [ListRules "main" None;
       GetQueueUrl "prod-orders-rule-dlq";
       GetQueueAttributes (q_url busy_queue) ["QueueArn"];
       GetQueueAttributes (q_url busy_queue) message_count_names;
       ListTargetsByRule "orders" "main" None;
       PutTargets "orders" "main" [lambda_target "1"];
       DeleteQueue (q_url busy_queue)].
Proof.
  split; [reflexivity|]. eexists. vm_compute. repeat split; reflexivity.
Qed.

(** ** Listing the rules *)

Section Listing.

Lemma only_list_rules_refl w : only_list_rules w w.
Proof. repeat split. exists []. by rewrite app_nil_r. Qed.

Lemma only_list_rules_trans w1 w2 w3 :
only_list_rules w1 w2 -> only_list_rules w2 w3 -> only_list_rules w1 w3.
Proof.
intros (Hr & Ht & Hq & Hf & c1 & Hc1 & Hl1) (Hr' & Ht' & Hq' & Hf' & c2 & Hc2 & Hl2).
repeat split; try congruence.
exists (c1 ++ c2). rewrite Hc2, Hc1, <- app_assoc. split; [done|].
rewrite forallb_app. by rewrite Hl1, Hl2.
Qed.

Lemma only_list_rules_lookups w w' : only_list_rules w w' -> only_lookups w w'.
Proof.
intros (Hr & Ht & Hq & Hf & calls & Hc & Hl). repeat split; try done.
exists calls. split; [done|]. rewrite forallb_forall in Hl |- *.
intros c Hin. specialize (Hl c Hin). by destruct c.
Qed.

Lemma quiet_step w w' calls :
w_faults w' = w_faults w -> w_trace w' = w_trace w ++ calls ->
quiet w -> quiet w'.
Proof.
intros Hf Ht Hq n c Hn. rewrite Hf. apply Hq.
rewrite Ht, length_app in Hn. lia.
Qed.

Lemma concat_drop_nth {A} (pages : list (list A)) i :
(i < length pages)%nat ->
concat (drop i pages) = nth i pages [] ++ concat (drop (S i) pages).
Proof.
revert i. induction pages as [|p pages IH]; intros i Hi; [cbn in Hi; lia|].
destruct i as [|i]; [by rewrite drop_0|].
cbn [drop nth]. apply IH. cbn in Hi. lia.
Qed.

Lemma list_rules_run bus token w :
Events.list_rules bus token w =
match w_faults w (length (w_trace w)) (ListRules bus token) with
| Some code => (Raise (ClientError code), record_call (ListRules bus token) w)
| None =>
    (Ok (nth (default 0%nat token) (w_rules w) [],
         if (S (default 0%nat token) <? length (w_rules w))%nat
         then Some (S (default 0%nat token)) else None),
     record_call (ListRules bus token) w)
end.
Proof. reflexivity. Qed.

(** The loop of [list_all_rules] from page [i] on: it ends, with the
  remaining pages or with the client error of a failed request. *)
Lemma paginate_rules bus fuel :
forall token items w,
  (default 0%nat token <= length (w_rules w))%nat ->
  (length (w_rules w) < fuel + default 0%nat token)%nat ->
  exists r w',
    paginate fuel (Events.list_rules bus) token items w = (r, w') /\
    only_list_rules w w' /\
    (r = Ok (items ++ concat (drop (default 0%nat token) (w_rules w))) \/
     exists code, r = Raise (ClientError code)) /\
    (quiet w ->
     r = Ok (items ++ concat (drop (default 0%nat token) (w_rules w)))).
Proof.
induction fuel as [|fuel IH]; intros token items w Hle Hlt; [lia|].
cbn [paginate]. unfold bind at 1. rewrite list_rules_run.
set (w1 := record_call (ListRules bus token) w).
assert (H1 : only_list_rules w w1).
{ repeat split. exists [ListRules bus token]. by split. }
destruct (w_faults w (length (w_trace w)) (ListRules bus token)) as [code|] eqn:Hf.
{ eexists _, _. split; [reflexivity|]. split; [done|]. split; [by eauto|].
  intros Hq. rewrite Hq in Hf by lia. done. }
cbn [fst snd].
set (i := default 0%nat token) in *.
destruct (Nat.ltb_spec (S i) (length (w_rules w))) as [Hmore|Hlast].
- destruct (IH (Some (S i)) (items ++ nth i (w_rules w) []) w1)
    as (r & w' & Hrun & Hl & Hr & Hq); [cbn; lia|cbn; lia|].
  rewrite Hrun. exists r, w'. split; [done|].
  split; [by eapply only_list_rules_trans|].
  cbn [default] in Hr, Hq. change (w_rules w1) with (w_rules w) in Hr, Hq.
  rewrite <- app_assoc, <- concat_drop_nth in Hr, Hq by lia.
  split; [done|]. intros Hquiet. apply Hq.
  by eapply (quiet_step w w1 [ListRules bus token]).
- eexists _, _. split; [reflexivity|]. split; [done|].
  assert (Heq : nth i (w_rules w) [] = concat (drop i (w_rules w))).
  { destruct (decide (i < length (w_rules w))%nat) as [Hi|Hi].
    - rewrite concat_drop_nth by done.
      rewrite (drop_ge _ (S i)) by lia. by rewrite app_nil_r.
    - rewrite nth_overflow by lia. by rewrite drop_ge by lia. }
  rewrite Heq. by eauto.
Qed.

Lemma list_all_rules_run bus w :
exists r w',
  list_all_rules bus w = (r, w') /\
  only_list_rules w w' /\
  (r = Ok (concat (w_rules w)) \/ exists code, r = Raise (ClientError code)) /\
  (quiet w -> r = Ok (concat (w_rules w))).
Proof.
unfold list_all_rules.
destruct (paginate_rules bus (S (length (w_rules w))) None [] w)
  as (r & w' & Hrun & Hl & Hr & Hq); [cbn; lia|cbn; lia|].
exists r, w'. cbn in Hr, Hq. rewrite drop_0 in Hr, Hq. done.
Qed.

End Listing.

(** ** Dry run *)

Section DryRun.

(** In a dry run the rule loop sends nothing and appends one simulated
  operation per eligible rule. *)
Lemma reconcile_rules_dry bus arn tags settings env_prefix skip_rules rules :
forall t w,
exists t',
  reconcile_rules bus arn tags settings true env_prefix skip_rules rules t w
  = (Ok t', w) /\
  t_operations t' =
    t_operations t ++
    map (dry_operation env_prefix) (List.filter (eligible skip_rules) rules).
Proof.
induction rules as [|rule rules IH]; intros t w;
  cbn [reconcile_rules List.filter].
- exists t. by rewrite app_nil_r.
- unfold eligible at 1.
  destruct (is_aws_managed rule); cbn [negb andb].
  { destruct (IH (skip_one t) w) as (t' & -> & Ht). by exists t'. }
  destruct (in_list (Name rule) skip_rules); cbn [negb].
  { destruct (IH (skip_one t) w) as (t' & -> & Ht). by exists t'. }
  unfold bind at 1. cbn [ensure_queue_and_policy ret].
  edestruct IH as (t' & -> & Ht). exists t'. split; [done|].
  rewrite Ht. cbn [count_operation t_operations map].
  by rewrite <- app_assoc.
Qed.

End DryRun.

(** C8. In a dry run the pass sends nothing but the requests that list
    the rules: no queue is created, listed or deleted, no policy written, no
    target updated.  When the listing succeeds (it does whenever the
    service answers) the summary has one operation per rule that is neither
    managed nor to be skipped, each with status [would_create], and an empty
    orphan cleanup; otherwise the pass ends with the client error of the
    listing. *)
Theorem dry_run_only_lists_rules bus arn tags settings env_prefix skip_rules w :
  exists r w' calls,
    reconcile_bus bus arn tags settings true env_prefix skip_rules w = (r, w') /\
    w_trace w' = w_trace w ++ calls /\
    forallb is_list_rules calls = true /\
    w_queues w' = w_queues w /\
    w_targets w' = w_targets w /\
    match r with
    | Ok s =>
        operations s
        = map (dry_operation env_prefix)
              (List.filter (eligible skip_rules) (concat (w_rules w))) /\
        (forall op, op ∈ operations s -> status op = "would_create") /\
        orphaned_queues (orphaned_cleanup s) = [] /\
        deleted_count (orphaned_cleanup s) = 0%nat
    | Raise e => exists code, e = ClientError code
    end /\
    (quiet w -> exists s, r = Ok s).
Proof.
  unfold reconcile_bus, bind at 1.
  destruct (list_all_rules_run bus w) as (r0 & w1 & -> & Hl & Hr & Hq).
  pose proof Hl as (_ & Ht & Hqs & _ & calls & Hc & Hlr).
  destruct Hr as [->|[code ->]].
  - unfold bind at 1.
    edestruct (reconcile_rules_dry bus arn tags settings env_prefix skip_rules
                 (concat (w_rules w))) as (t' & -> & Hops).
    cbn. eexists _, _, calls. split; [reflexivity|]. repeat split; try done.
    + intros op Hop. rewrite Hops in Hop. cbn in Hop.
      by apply list_elem_of_fmap in Hop as (rule & -> & _).
    + by eauto.
  - eexists _, _, calls. split; [reflexivity|]. repeat split; try done.
    + by eauto.
    + intros Hquiet. by specialize (Hq Hquiet).
Qed.

Lemma dry_run_only_lists_rules_witness :
  quiet paged_world /\
  exists r w' calls,
    reconcile_bus "main" main_bus_arn ∅ sample_settings true "prod" ["legacy"]
      paged_world = (r, w') /\
    w_trace w' = w_trace paged_world ++ calls /\
    forallb is_list_rules calls = true /\
    w_queues w' = w_queues paged_world /\
    w_targets w' = w_targets paged_world /\
    match r with
    | Ok s =>
        operations s
        = map (dry_operation "prod")
              (List.filter (eligible ["legacy"]) (concat (w_rules paged_world))) /\
        (forall op, op ∈ operations s -> status op = "would_create") /\
        orphaned_queues (orphaned_cleanup s) = [] /\
        deleted_count (orphaned_cleanup s) = 0%nat
    | Raise e => exists code, e = ClientError code
    end /\
    (quiet paged_world -> exists s, r = Ok s).
Proof.
  split; [intros n c _; reflexivity|].
  apply (dry_run_only_lists_rules "main" main_bus_arn ∅ sample_settings "prod"
           ["legacy"] paged_world).
Defined.

(** The dry run on the sample bus: two pages listed, two operations. *)
Example dry_run_sample :
  exists w',
    reconcile_bus "main" main_bus_arn ∅ sample_settings true "prod" ["legacy"]
      paged_world
    = (Ok {| queues_created := 2; policies_updated := 2; targets_attached := 2;
             rules_total := 4; rules_skipped := 2;
             operations := [dry_operation "prod" (plain_rule "orders");
                            dry_operation "prod" (plain_rule "billing")];
             orphaned_cleanup := {| orphaned_queues := []; deleted_count := 0 |} |},
       w') /\
    w_trace w' = [ListRules "main" None; ListRules "main" (Some 1%nat)].
Proof. eexists. vm_compute. split; reflexivity. Qed.

(** ** How the world evolves *)

Section Frames.

Context (R : World -> World -> Prop).
Hypothesis R_refl : forall w, R w w.
Hypothesis R_trans : forall w1 w2 w3, R w1 w2 -> R w2 w3 -> R w1 w3.

Lemma preserves_ret {A} (a : A) : preserves R (ret a).
Proof. intros w. apply R_refl. Qed.

Lemma preserves_raise {A} e : preserves R (@raise A e).
Proof. intros w. apply R_refl. Qed.

Lemma preserves_lift {A} (r : result A) : preserves R (lift r).
Proof. intros w. apply R_refl. Qed.

Lemma preserves_bind {A B} (m : M A) (k : A -> M B) :
preserves R m -> (forall a, preserves R (k a)) -> preserves R (bind m k).
Proof.
intros Hm Hk w. unfold bind. specialize (Hm w).
destruct (m w) as [[a|e] w1]; cbn in *; [|done].
eapply R_trans; [done|]. apply Hk.
Qed.

Lemma preserves_try_except {A} (m : M A) h :
preserves R m -> (forall e k, h e = Some k -> preserves R k) ->
preserves R (try_except m h).
Proof.
intros Hm Hh w. unfold try_except. specialize (Hm w).
destruct (m w) as [[a|e] w1]; cbn in *; [done|].
destruct (h e) as [k|] eqn:He; [|done].
eapply R_trans; [done|]. by eapply Hh.
Qed.

Lemma preserves_on_client_error {A} (m : M A) (k : string -> M A) :
preserves R m -> (forall code, preserves R (k code)) ->
preserves R (try_except m (on_client_error k)).
Proof.
intros Hm Hk. apply preserves_try_except; [done|].
intros [] k' [= <-]. apply Hk.
Qed.

Lemma preserves_request {A} c (answer : M A) :
(forall w, R w (record_call c w)) -> preserves R answer ->
preserves R (request c answer).
Proof.
intros Hc Ha w. unfold request. destruct (w_faults w _ _); [apply Hc|].
eapply R_trans; [apply Hc|apply Ha].
Qed.

Lemma preserves_paginate {A} fuel (fetch : option nat -> M (list A * option nat)) :
(forall token, preserves R (fetch token)) ->
forall token items, preserves R (paginate fuel fetch token items).
Proof.
intros Hf. induction fuel as [|fuel IH]; intros token items; cbn [paginate].
- apply preserves_raise.
- apply preserves_bind; [apply Hf|]. intros [page [next|]]; cbn [snd].
  + apply IH.
  + apply preserves_ret.
Qed.

End Frames.

Section Provisioning.

Lemma provisions_refl rule_name w : provisions rule_name w w.
Proof.
split; [done|]. split; [done|]. split; [exists []; by rewrite app_nil_r|].
split; [done|]. split; [by intros|by intros].
Qed.

Lemma provisions_trans rule_name w1 w2 w3 :
provisions rule_name w1 w2 -> provisions rule_name w2 w3 ->
provisions rule_name w1 w3.
Proof.
intros (Hr & Hf & (c1 & Hc1) & Ht & Hq & Hw) (Hr' & Hf' & (c2 & Hc2) & Ht' & Hq' & Hw').
split; [congruence|]. split; [congruence|].
split; [exists (c1 ++ c2); by rewrite Hc2, Hc1, <- app_assoc|].
split; [|split].
- intros r Hne. rewrite Ht' by done. by apply Ht.
- intros name Hn. by apply Hq', Hq.
- intros Hwf. by apply Hw', Hw.
Qed.

Lemma provisions_record rule_name c w : provisions rule_name w (record_call c w).
Proof.
split; [done|]. split; [done|]. split; [by exists [c]|].
split; [done|]. split; [by intros|by intros].
Qed.

Lemma only_lookups_provisions rule_name w w' :
only_lookups w w' -> provisions rule_name w w'.
Proof.
intros (Hr & Ht & Hq & Hf & calls & Hc & _).
split; [done|]. split; [done|]. split; [by exists calls|]. split; [|split].
- intros r _. by rewrite Ht.
- intros name (q & Hin & Hn). exists q. by rewrite Hq.
- intros Hw q Hin. apply Hw. by rewrite <- Hq.
Qed.

End Provisioning.

(** ** Queue names inside ARNs and URLs *)

Section Segments.

Lemma split_after sep a b :
exists pre, pre <> [] /\
  Py.split sep (a +:+ String sep b) = pre ++ Py.split sep b.
Proof.
induction a as [|c a (pre & Hpre & IH)].
- exists [""]. split; [done|]. rewrite append_nil_l. cbn [Py.split].
  by rewrite Ascii.eqb_refl.
- rewrite append_cons. cbn [Py.split]. rewrite IH.
  destruct (Ascii.eqb c sep).
  + exists ("" :: pre). by split.
  + destruct pre as [|p pre]; [done|]. exists (String c p :: pre). by split.
Qed.

Lemma last_part_app pre parts :
parts <> [] -> Py.last_part (pre ++ parts) = Py.last_part parts.
Proof.
intros Hne. unfold Py.last_part.
induction pre as [|p pre IH]; [done|].
cbn [app]. rewrite <- IH. cbn [List.last].
destruct (pre ++ parts) eqn:He; [|done].
apply app_eq_nil in He as [_ ->]. done.
Qed.

Lemma last_part_split_after sep a b :
Py.last_part (Py.split sep (a +:+ String sep b)) = Py.last_part (Py.split sep b).
Proof.
destruct (split_after sep a b) as (pre & _ & ->).
apply last_part_app, split_nonempty.
Qed.

Lemma all_chars_count p sep s :
p sep = false -> Sqs.all_chars p s = true -> Py.count sep s = 0.
Proof.
intros Hsep. induction s as [|c s IH]; cbn [Sqs.all_chars Py.count]; [done|].
intros [Hc Hs]%andb_true_iff. rewrite (IH Hs).
destruct (Ascii.eqb_spec c sep) as [->|_]; [congruence|done].
Qed.

Lemma valid_name_arn name :
Sqs.valid_name name = true ->
Py.last_part (Py.split ":" (Sqs.arn_base +:+ name)) = name.
Proof.
unfold Sqs.valid_name. intros [_ Hc]%andb_true_iff.
change (Sqs.arn_base +:+ name)
  with ("arn:aws:sqs:us-east-1:123456789012" +:+ String ":" name).
rewrite last_part_split_after, split_no_sep; [done|].
by apply (all_chars_count Sqs.valid_char).
Qed.

Lemma valid_name_url name :
Sqs.valid_name name = true ->
queue_name_of_url (Sqs.url_base +:+ name) = name.
Proof.
unfold Sqs.valid_name, queue_name_of_url. intros [_ Hc]%andb_true_iff.
change (Sqs.url_base +:+ name)
  with ("https://sqs.us-east-1.amazonaws.com/123456789012" +:+ String "/" name).
rewrite last_part_split_after, split_no_sep; [done|].
by apply (all_chars_count Sqs.valid_char).
Qed.

Lemma wf_new_queue name attributes tags :
Sqs.valid_name name = true -> wf_queue (Sqs.new_queue name attributes tags).
Proof.
intros Hv. split; cbn; [by apply valid_name_arn|by apply valid_name_url].
Qed.

End Segments.

(** ** What each request may change *)

Section RequestFrames.

Variable rule_name : string.

Let R := provisions rule_name.

Lemma prov_bind {A B} (m : M A) (k : A -> M B) :
preserves R m -> (forall a, preserves R (k a)) -> preserves R (bind m k).
Proof. apply preserves_bind, provisions_trans. Qed.

Lemma prov_ret {A} (a : A) : preserves R (ret a).
Proof. apply preserves_ret, provisions_refl. Qed.

Lemma prov_raise {A} e : preserves R (@raise A e).
Proof. apply preserves_raise, provisions_refl. Qed.

Lemma prov_lift {A} (r : result A) : preserves R (lift r).
Proof. apply preserves_lift, provisions_refl. Qed.

Lemma prov_except {A} (m : M A) k :
preserves R m -> (forall code, preserves R (k code)) ->
preserves R (try_except m (on_client_error k)).
Proof. apply preserves_on_client_error, provisions_trans. Qed.

(** A request whose answer leaves the services as they are. *)
Lemma prov_lookup {A} c (f : World -> result A) :
preserves R (request c (fun w => (f w, w))).
Proof.
apply preserves_request; [apply provisions_trans|apply provisions_record|].
intros w. apply provisions_refl.
Qed.

Lemma prov_get_queue_url name : preserves R (Sqs.get_queue_url name).
Proof.
apply preserves_request; [apply provisions_trans|apply provisions_record|].
intros w. cbn. destruct (List.find _ _); apply provisions_refl.
Qed.

Lemma prov_get_queue_attributes url names :
preserves R (Sqs.get_queue_attributes url names).
Proof.
apply preserves_request; [apply provisions_trans|apply provisions_record|].
intros w. cbn. destruct (List.find _ _); apply provisions_refl.
Qed.

Lemma prov_list_targets_by_rule rule bus token :
preserves R (Events.list_targets_by_rule rule bus token).
Proof. apply prov_lookup. Qed.

Lemma prov_create_queue name attributes tags :
preserves R (Sqs.create_queue name attributes tags).
Proof.
apply preserves_request; [apply provisions_trans|apply provisions_record|].
intros w. cbn. destruct (Sqs.valid_name name) eqn:Hv; cbn; [|apply provisions_refl].
destruct (List.find _ _) as [q1|]; [apply provisions_refl|]. cbn.
split; [done|]. split; [done|]. split; [exists []; by rewrite app_nil_r|].
split; [done|]. split.
- intros n (q & Hq & Hn). exists q. split; [|done]. cbn.
  apply elem_of_app. by left.
- intros Hw q Hq. cbn in Hq. apply elem_of_app in Hq as [Hq|Hq]; [by apply Hw|].
  apply list_elem_of_singleton in Hq as ->. by apply wf_new_queue.
Qed.

Lemma prov_set_queue_attributes url doc :
preserves R (Sqs.set_queue_attributes url doc).
Proof.
apply preserves_request; [apply provisions_trans|apply provisions_record|].
intros w. cbn. destruct (List.find _ _) as [q1|]; [|apply provisions_refl]. cbn.
split; [done|]. split; [done|]. split; [exists []; by rewrite app_nil_r|].
split; [done|]. split.
- intros n (q & Hq & Hn).
  exists (if Sqs.by_url url q then Sqs.with_policy doc q else q). split.
  + cbn. apply list_elem_of_fmap. by exists q.
  + by destruct (Sqs.by_url url q).
- intros Hw q Hq. cbn in Hq. apply list_elem_of_fmap in Hq as (q0 & -> & Hq0).
  specialize (Hw q0 Hq0). by destruct (Sqs.by_url url q0).
Qed.

Lemma prov_put_targets bus targets :
preserves R (Events.put_targets rule_name bus targets).
Proof.
apply preserves_request; [apply provisions_trans|apply provisions_record|].
intros w. cbv beta. destruct (forallb _ _); [|apply provisions_refl].
cbn [snd].
split; [done|]. split; [done|]. split; [exists []; by rewrite app_nil_r|].
split; [|split; by intros].
intros r Hne. cbn [w_targets set_targets]. by rewrite lookup_insert_ne.
Qed.

Lemma prov_list_targets rule bus : preserves R (list_targets rule bus).
Proof.
apply preserves_paginate; [apply provisions_refl|apply provisions_trans|].
intros token. apply prov_list_targets_by_rule.
Qed.

Lemma prov_get_queue_by_name name : preserves R (get_queue_by_name name).
Proof.
apply prov_except.
- apply prov_bind; [apply prov_get_queue_url|]. intros q_url.
  apply prov_bind; [apply prov_get_queue_attributes|]. intros attrs.
  apply prov_bind; [apply prov_lift|]. intros arn. apply prov_ret.
- intros code. destruct (is_not_found code); [apply prov_ret|apply prov_raise].
Qed.

Lemma prov_any_dlq_exists targets : preserves R (any_dlq_exists targets).
Proof.
induction targets as [|t targets IH]; cbn [any_dlq_exists]; [apply prov_ret|].
apply prov_bind; [apply prov_lift|]. intros [dlq_arn|]; [|done].
apply prov_bind; [apply prov_lift|]. intros queue_name.
apply prov_bind; [apply prov_get_queue_by_name|]. intros [q|]; [apply prov_ret|done].
Qed.

Lemma prov_rule_has_dlq_attached rule bus :
preserves R (rule_has_dlq_attached rule bus).
Proof.
apply prov_except; [|intros; apply prov_ret].
apply prov_bind; [apply prov_list_targets|]. intros targets.
apply prov_any_dlq_exists.
Qed.

Lemma prov_read_policy url : preserves R (read_policy url).
Proof.
apply preserves_try_except; [apply provisions_trans| |].
- apply prov_bind; [apply prov_get_queue_attributes|]. intros attrs.
  destruct (Policy attrs) as [text|]; [|apply prov_ret].
  destruct (policy_text_truthy text); [apply prov_lift|apply prov_ret].
- intros [] k [= <-]; apply prov_ret.
Qed.

Lemma prov_update_queue_policy url arn rule_arn :
preserves R (update_queue_policy url arn rule_arn).
Proof.
apply prov_except; [|intros; apply prov_ret]. cbv zeta.
apply prov_bind; [apply prov_read_policy|]. intros policy.
apply prov_bind; [apply prov_lift|]. intros statements.
apply prov_bind; [apply prov_lift|]. intros items.
apply prov_bind; [apply prov_lift|]. intros [|]; [apply prov_ret|].
apply prov_bind; [apply prov_lift|]. intros statements'.
apply prov_bind; [apply prov_lift|]. intros policy'.
apply prov_bind; [apply prov_set_queue_attributes|]. intros _. apply prov_ret.
Qed.

Lemma prov_attach_dlq_to_targets bus queue_arn :
preserves R (attach_dlq_to_targets rule_name bus queue_arn).
Proof.
apply prov_except; [|intros; apply prov_ret].
apply prov_bind; [apply prov_list_targets|]. intros targets.
apply prov_bind; [apply prov_lift|]. intros to_update.
apply prov_bind; [|intros; apply prov_ret].
destruct to_update; [apply prov_ret|apply prov_put_targets].
Qed.

(** Working on a rule leaves the targets of the other rules alone and
  never removes a queue. *)
Lemma prov_ensure_queue_and_policy dlq_name tags settings arn dry_run bus :
preserves R
  (ensure_queue_and_policy rule_name dlq_name tags settings arn dry_run bus).
Proof.
unfold ensure_queue_and_policy. destruct dry_run; [apply prov_ret|].
apply prov_bind; [apply prov_rule_has_dlq_attached|]. intros [|]; [apply prov_ret|].
apply prov_bind; [apply prov_get_queue_by_name|]. intros found.
apply prov_bind.
- destruct found as [[q_url q_arn]|]; [apply prov_ret|].
  apply prov_bind; [apply prov_create_queue|]. intros q_url.
  apply prov_bind; [apply prov_get_queue_attributes|]. intros attrs.
  apply prov_bind; [apply prov_lift|]. intros q_arn. apply prov_ret.
- intros [[q_url q_arn] created].
  apply prov_bind; [apply prov_lift|]. intros rule_arn.
  apply prov_bind; [apply prov_update_queue_policy|]. intros policy.
  apply prov_bind; [apply prov_attach_dlq_to_targets|]. intros updated.
  apply prov_ret.
Qed.

End RequestFrames.

(** ** The scan of [rule_has_dlq_attached] *)

Section Scan.

Lemma quiet_provisions rule_name w w' :
provisions rule_name w w' -> quiet w -> quiet w'.
Proof. intros (_ & Hf & (calls & Hc) & _). by apply (quiet_step w w' calls). Qed.

Lemma quiet_lookups w w' : only_lookups w w' -> quiet w -> quiet w'.
Proof. intros (_ & _ & _ & Hf & calls & Hc & _). by apply (quiet_step w w' calls). Qed.

Lemma queue_named_find name w :
queue_named name w <-> exists q, List.find (Sqs.by_name name) (w_queues w) = Some q.
Proof.
split.
- intros (q & Hq & Hn).
  destruct (List.find (Sqs.by_name name) (w_queues w)) as [q'|] eqn:Hf; [by eauto|].
  apply list_elem_of_In in Hq. pose proof (find_none _ _ Hf q Hq) as Hno.
  unfold Sqs.by_name in Hno. rewrite Hn, String.eqb_refl in Hno. done.
- intros (q & Hf). apply find_some in Hf as [Hin Hn].
  exists q. split; [by apply list_elem_of_In|]. by apply String.eqb_eq.
Qed.

Lemma find_by_url_of_elem q (queues : list Queue) :
q ∈ queues ->
exists q', List.find (Sqs.by_url (q_url q)) queues = Some q' /\
           q' ∈ queues /\ q_url q' = q_url q.
Proof.
intros Hq. destruct (List.find (Sqs.by_url (q_url q)) queues) as [q'|] eqn:Hf.
- exists q'. split; [done|]. apply find_some in Hf as [Hin Hu].
  split; [by apply list_elem_of_In|]. by apply String.eqb_eq.
- apply list_elem_of_In in Hq. pose proof (find_none _ _ Hf q Hq) as Hno.
  unfold Sqs.by_url in Hno. by rewrite String.eqb_refl in Hno.
Qed.

(** With a service that answers, [get_queue_by_name] tells whether the
  queue is there, and what it returns belongs to queues of the world. *)
Lemma get_queue_by_name_quiet name w :
quiet w ->
exists found w',
  get_queue_by_name name w = (Ok found, w') /\ only_lookups w w' /\
  (queue_named name w -> found <> None) /\
  (forall url arn, found = Some (url, arn) ->
     exists q q', q ∈ w_queues w /\ q_name q = name /\ q_url q = url /\
                  q' ∈ w_queues w /\ q_url q' = url /\ q_arn q' = arn).
Proof.
intros Hquiet.
destruct (List.find (Sqs.by_name name) (w_queues w)) as [q|] eqn:Hf.
- pose proof Hf as Hq. apply find_some in Hq as [Hin Hn].
  apply list_elem_of_In in Hin. apply String.eqb_eq in Hn.
  destruct (find_by_url_of_elem q _ Hin) as (q' & Hf' & Hin' & Hu').
  rewrite (get_queue_by_name_found name w q q'); try done; try (apply Hquiet; lia).
  eexists _, _. split; [reflexivity|]. split; [|split; [done|]].
  + eapply only_lookups_trans; by apply only_lookups_record.
  + intros url arn [= <- <-]. by exists q, q'.
- rewrite get_queue_by_name_absent; try done; try (apply Hquiet; lia).
  eexists _, _. split; [reflexivity|]. split; [by apply only_lookups_record|].
  split; [|done].
  intros Hn. apply queue_named_find in Hn as (q & Hq). congruence.
Qed.

Lemma list_targets_quiet rule bus w :
quiet w ->
list_targets rule bus w
= (Ok (rule_targets rule w), record_call (ListTargetsByRule rule bus None) w).
Proof.
intros Hquiet. unfold list_targets. cbn [paginate].
unfold bind, Events.list_targets_by_rule, request.
rewrite Hquiet by lia. reflexivity.
Qed.

(** The scan finds a live queue when the targets are scannable and one
  of them names a queue that exists. *)
Lemma any_dlq_exists_true name targets :
forall w,
  quiet w ->
  (forall t, t ∈ targets -> scannable t) ->
  (exists t, t ∈ targets /\ points_at name t) ->
  queue_named name w ->
  exists w', any_dlq_exists targets w = (Ok true, w') /\ only_lookups w w'.
Proof.
induction targets as [|t targets IH]; intros w Hquiet Hscan (t0 & Hin & Hpt) Hq.
{ by apply elem_of_nil in Hin. }
cbn [any_dlq_exists]. unfold bind at 1, lift.
assert (Hrest : forall w1, only_lookups w w1 ->
          (exists t1, t1 ∈ targets /\ points_at name t1) ->
          exists w', any_dlq_exists targets w1 = (Ok true, w') /\ only_lookups w w').
{ intros w1 Hl Hex. destruct (IH w1) as (w' & Hrun & Hl'); try done.
  - by eapply quiet_lookups.
  - intros t1 Ht1. apply Hscan. by right.
  - destruct Hl as (_ & _ & Hqs & _). destruct Hq as (q & Hq & Hn).
    exists q. by rewrite Hqs.
  - exists w'. split; [done|]. by eapply only_lookups_trans. }
destruct (Hscan t) as [Hnone|(arn & Harn)]; [by left| |].
- rewrite Hnone. apply Hrest; [apply only_lookups_refl|].
  apply elem_of_cons in Hin as [->|Hin]; [|by eauto].
  destruct Hpt as (arn & Harn & _). congruence.
- rewrite Harn. cbn [Json.last_segment]. unfold bind at 1 2.
  destruct (get_queue_by_name_quiet (Py.last_part (Py.split ":" arn)) w Hquiet)
    as (found & w1 & -> & Hl & Hfound & _).
  destruct found as [q|]; [by eauto|].
  apply (Hrest w1 Hl).
  apply elem_of_cons in Hin as [->|Hin]; [|by eauto].
  destruct Hpt as (arn' & Harn' & Hname). rewrite Harn in Harn'.
  injection Harn' as <-. rewrite Hname in Hfound. by destruct (Hfound Hq).
Qed.

(** When the scan says no, it has been through every target. *)
Lemma any_dlq_exists_false targets :
forall w w',
  quiet w ->
  any_dlq_exists targets w = (Ok false, w') ->
  forall t, t ∈ targets -> scannable t.
Proof.
induction targets as [|t targets IH]; intros w w' Hquiet Hrun t0 Hin.
{ by apply elem_of_nil in Hin. }
cbn [any_dlq_exists] in Hrun. unfold bind at 1, lift in Hrun.
destruct (dead_letter_arn t) as [[arn|]|] eqn:Harn; [| |done].
- destruct arn as [| | |s| |]; cbn [Json.last_segment] in Hrun; try done.
  unfold bind at 1 2 in Hrun.
  destruct (get_queue_by_name_quiet (Py.last_part (Py.split ":" s)) w Hquiet)
    as (found & w1 & Hg & Hl & _). rewrite Hg in Hrun.
  destruct found as [q|]; [done|].
  apply elem_of_cons in Hin as [->|Hin]; [right; by eauto|].
  eapply (IH w1 w'); [by eapply quiet_lookups|done|done].
- apply elem_of_cons in Hin as [->|Hin]; [by left|].
  by eapply (IH w w').
Qed.

Lemma dead_letter_arn_raise t e :
dead_letter_arn t = Raise e -> e = AttributeError.
Proof.
unfold dead_letter_arn, rbind, Json.get.
destruct (t !! "DeadLetterConfig") as [config|]; [|done].
destruct (Json.truthy config); [|done].
destruct config; try done; by intros [= <-].
Qed.

(** Under a service that answers, the scan never ends in a client
  error. *)
Lemma any_dlq_exists_no_client_error targets :
forall w code w',
  quiet w -> any_dlq_exists targets w <> (Raise (ClientError code), w').
Proof.
induction targets as [|t targets IH]; intros w code w' Hquiet; [done|].
cbn [any_dlq_exists]. unfold bind at 1, lift.
destruct (dead_letter_arn t) as [[arn|]|e] eqn:Hd;
  [| |apply dead_letter_arn_raise in Hd as ->; done].
- destruct arn as [| | |s| |]; cbn [Json.last_segment]; try done.
  unfold bind at 1 2.
  destruct (get_queue_by_name_quiet (Py.last_part (Py.split ":" s)) w Hquiet)
    as (found & w1 & -> & Hl & _).
  destruct found as [q|]; [done|]. apply IH. by eapply quiet_lookups.
- by apply IH.
Qed.

End Scan.

(** ** Provisioning one rule *)

Section Ensure.

Lemma rule_has_dlq_attached_true rule bus name w :
quiet w -> provisioned rule name w ->
exists w', rule_has_dlq_attached rule bus w = (Ok true, w') /\ only_lookups w w'.
Proof.
intros Hquiet (Hscan & Hpt & Hq).
unfold rule_has_dlq_attached, try_except, bind.
rewrite list_targets_quiet by done.
set (w1 := record_call (ListTargetsByRule rule bus None) w).
assert (Hl : only_lookups w w1) by by apply only_lookups_record.
assert (Hq1 : quiet w1) by by eapply quiet_lookups.
assert (Hn1 : queue_named name w1) by (destruct Hq as (q & Hq & Hn); by exists q).
destruct (any_dlq_exists_true name (rule_targets rule w) w1 Hq1 Hscan Hpt Hn1)
  as (w' & -> & Hl').
exists w'. split; [done|]. by eapply only_lookups_trans.
Qed.

Lemma rule_has_dlq_attached_false rule bus w w' :
quiet w -> rule_has_dlq_attached rule bus w = (Ok false, w') ->
forall t, t ∈ rule_targets rule w -> scannable t.
Proof.
intros Hquiet. unfold rule_has_dlq_attached, try_except, bind.
rewrite list_targets_quiet by done.
set (w1 := record_call (ListTargetsByRule rule bus None) w).
assert (Hq1 : quiet w1).
{ eapply quiet_lookups; [|done]. by apply only_lookups_record. }
destruct (any_dlq_exists (rule_targets rule w) w1) as [[b|e] w2] eqn:Hrun.
- intros [= -> ->]. by eapply any_dlq_exists_false.
- destruct e; try done.
  by destruct (any_dlq_exists_no_client_error (rule_targets rule w) w1 code w2 Hq1).
Qed.

(** A rule that is provisioned is skipped, after lookups only. *)
Lemma ensure_queue_and_policy_skips rule dlq_name name tags settings arn bus w :
quiet w -> provisioned rule name w ->
exists w',
  ensure_queue_and_policy rule dlq_name tags settings arn false bus w
  = (Ok (skipped_operation rule dlq_name), w') /\
  only_lookups w w'.
Proof.
intros Hquiet Hp. unfold ensure_queue_and_policy, bind at 1.
destruct (rule_has_dlq_attached_true rule bus name w Hquiet Hp) as (w' & -> & Hl).
by exists w'.
Qed.

(** Targets after [put_targets]: old ones and new ones, the last new
  one among them. *)
Lemma upsert_elem ts u t :
t ∈ Events.upsert_target ts u -> t ∈ ts \/ t = u.
Proof.
unfold Events.upsert_target. destruct (existsb _ _).
- intros (t0 & -> & Hin)%list_elem_of_fmap.
  destruct (Events.same_id u t0); [by right|by left].
- intros [?|?%list_elem_of_singleton]%elem_of_app; by eauto.
Qed.

Lemma upsert_all_elem us :
forall ts t, t ∈ foldl Events.upsert_target ts us -> t ∈ ts \/ t ∈ us.
Proof.
induction us as [|u us IH]; intros ts t; cbn [foldl]; [by left|].
intros [[?| ->]%upsert_elem|?]%IH.
- by left.
- right. by left.
- right. by right.
Qed.

Lemma upsert_has_new ts u : u ∈ Events.upsert_target ts u.
Proof.
unfold Events.upsert_target. destruct (existsb _ _) eqn:He.
- apply existsb_exists in He as (t0 & Hin & Hid).
  apply list_elem_of_fmap. exists t0. rewrite Hid.
  split; [done|by apply list_elem_of_In].
- apply elem_of_app. right. by apply list_elem_of_here.
Qed.

Lemma upsert_all_has_last us u :
forall ts, u ∈ foldl Events.upsert_target ts (us ++ [u]).
Proof.
intros ts. rewrite foldl_app. cbn [foldl]. apply upsert_has_new.
Qed.

(** A clone with the queue attached is scannable and names the queue. *)
Lemma dead_letter_arn_attached (clone : Target) queue_arn :
Py.truthy queue_arn = true ->
dead_letter_arn (<["DeadLetterConfig" := JObj [("Arn", JStr queue_arn)]]> clone)
= Ok (Some (JStr queue_arn)).
Proof.
intros Ht. unfold dead_letter_arn. rewrite lookup_insert_eq. cbn. by rewrite Ht.
Qed.

(** [attach_dlq_to_targets] reporting updates means that the targets
  were listed, the clones published, and the rule's targets replaced. *)
Lemma attach_dlq_to_targets_updated rule bus queue_arn w n w' :
quiet w ->
attach_dlq_to_targets rule bus queue_arn w = (Ok n, w') ->
(0 < n)%nat ->
exists to_update,
  targets_to_attach queue_arn (rule_targets rule w) = Ok to_update /\
  to_update <> [] /\
  rule_targets rule w' = foldl Events.upsert_target (rule_targets rule w) to_update /\
  w_queues w' = w_queues w.
Proof.
intros Hquiet. unfold attach_dlq_to_targets, try_except, bind at 1.
rewrite list_targets_quiet by done.
set (w1 := record_call (ListTargetsByRule rule bus None) w).
unfold bind at 1, lift.
destruct (targets_to_attach queue_arn (rule_targets rule w)) as [to_update|e] eqn:Ht;
  cycle 1.
{ destruct e; cbn; try done. intros [= <- _]. lia. }
destruct to_update as [|u us].
{ cbn. intros [= <- _]. lia. }
unfold bind at 1, Events.put_targets, request.
destruct (w_faults w1 _ _); [cbn; intros [= <- _]; lia|].
cbn [w_targets record_call].
destruct (forallb _ _); [|cbn; intros [= <- _]; lia].
cbn. intros [= <- <-] _. exists (u :: us). split; [done|]. split; [done|].
split; [|done]. unfold rule_targets. cbn [w_targets set_targets].
by rewrite lookup_insert_eq.
Qed.

Lemma truthy_append_r a b : Py.truthy b = true -> Py.truthy (a +:+ b) = true.
Proof. by destruct a. Qed.

Lemma generate_dlq_name_truthy rule_name env_prefix :
Py.truthy (generate_dlq_name rule_name env_prefix) = true.
Proof.
unfold generate_dlq_name.
destruct (Py.truthy env_prefix); cbv zeta; by repeat apply truthy_append_r.
Qed.

End Ensure.

Section EnsureProvisions.

Lemma create_queue_ok name attributes tags w url w' :
Sqs.create_queue name attributes tags w = (Ok url, w') ->
Sqs.valid_name name = true /\ url = Sqs.url_base +:+ name /\ queue_named name w'.
Proof.
unfold Sqs.create_queue, request. destruct (w_faults w _ _); [done|].
destruct (Sqs.valid_name name); [|done]. cbn.
destruct (List.find _ _); [done|]. intros [= <- <-]. repeat split.
exists (Sqs.new_queue name attributes tags). split; [|done].
cbn. apply elem_of_app. right. apply list_elem_of_here.
Qed.

Lemma get_queue_attributes_ok url names w attrs w' :
Sqs.get_queue_attributes url names w = (Ok attrs, w') ->
exists q, q ∈ w_queues w /\ q_url q = url /\
          attrs = Sqs.attributes_of q names /\ w_queues w' = w_queues w.
Proof.
unfold Sqs.get_queue_attributes, request. destruct (w_faults w _ _); [done|].
cbn. destruct (List.find _ _) as [q|] eqn:Hf; [|done]. intros [= <- <-].
apply find_some in Hf as [Hin Hu]. exists q.
split; [by apply list_elem_of_In|]. split; [by apply String.eqb_eq|done].
Qed.

Lemma other_name (rule : string) : rule <> String "x" rule.
Proof.
intros H. apply (f_equal String.length) in H. cbn in H. lia.
Qed.

Lemma rule_targets_provisions rule other w w' :
rule <> other -> provisions other w w' ->
rule_targets rule w' = rule_targets rule w.
Proof.
intros Hne (_ & _ & _ & Ht & _). unfold rule_targets. by rewrite Ht.
Qed.

Lemma truthy_of_last_part sep s :
Py.truthy (Py.last_part (Py.split sep s)) = true -> Py.truthy s = true.
Proof. by destruct s. Qed.

(** A pass that reports updated targets for a rule leaves the rule
  provisioned: its targets scannable, one of them on the queue, the queue
  there. *)
Lemma ensure_queue_and_policy_provisions rule dlq_name tags settings arn bus w op w' :
quiet w -> wf_queues w -> Py.truthy dlq_name = true ->
ensure_queue_and_policy rule dlq_name tags settings arn false bus w = (Ok op, w') ->
(0 < targets_updated op)%nat ->
provisioned rule dlq_name w'.
Proof.
intros Hquiet Hwf Hname. unfold ensure_queue_and_policy, bind at 1.
set (other := String "x" rule).
assert (Hother : rule <> other) by apply other_name.
pose proof (prov_rule_has_dlq_attached other rule bus w) as Hp1.
destruct (rule_has_dlq_attached rule bus w) as [[[|]|e] w1] eqn:Hscan; cbn in Hp1;
  [cbn; intros [= <- _]; cbn; lia| |done].
pose proof (rule_has_dlq_attached_false rule bus w w1 Hquiet Hscan) as Hscannable.
assert (Hq1 : quiet w1) by by eapply quiet_provisions.
unfold bind at 1.
destruct (get_queue_by_name_quiet dlq_name w1 Hq1)
  as (found & w2 & -> & Hl2 & Hfound & Hfrom).
assert (Hp2 : provisions other w w2).
{ eapply provisions_trans; [done|]. by apply only_lookups_provisions. }
(* the queue and its ARN, found or created *)
match goal with |- bind ?m _ w2 = _ -> _ => set (phase := m) end.
assert (Hphase : forall r w4,
          phase w2 = (Ok r, w4) ->
          provisions other w w4 /\ queue_named dlq_name w4 /\
          Py.last_part (Py.split ":" (snd (fst r))) = dlq_name).
{ subst phase. intros [[url qarn] created] w4. destruct found as [[url0 qarn0]|].
  - destruct (Hfrom url0 qarn0 eq_refl) as (q & q' & Hq & Hn & Hu & Hq' & Hu' & Ha).
    assert (Hwf1 : wf_queues w1) by by apply Hp1.
    destruct (Hwf1 q Hq) as [_ Hurl]. destruct (Hwf1 q' Hq') as [Harn Hurl'].
    assert (Hlast : Py.last_part (Py.split ":" qarn0) = dlq_name).
    { rewrite <- Ha, Harn, <- Hurl', Hu', <- Hu, Hurl. done. }
    destruct Hl2 as (_ & _ & Hqs2 & _).
    intros [= <- <- <- <-]. split; [done|].
    split; [exists q; by rewrite Hqs2|done].
  - unfold bind at 1.
    pose proof (prov_create_queue other dlq_name (queue_attributes settings) tags w2)
      as Hp3.
    destruct (Sqs.create_queue _ _ _ w2) as [[url1|e] w3] eqn:Hc; [|done].
    cbn in Hp3. apply create_queue_ok in Hc as (Hvalid & -> & Hn3).
    unfold bind at 1.
    pose proof (prov_get_queue_attributes other (Sqs.url_base +:+ dlq_name)
                  ["QueueArn"] w3) as Hp4.
    destruct (Sqs.get_queue_attributes _ _ w3) as [[attrs|e] w4'] eqn:Hg; [|done].
    cbn in Hp4. apply get_queue_attributes_ok in Hg as (q' & Hq' & Hu' & -> & Hqs).
    assert (Hp : provisions other w w4').
    { eapply provisions_trans; [done|]. by eapply provisions_trans. }
    assert (Hwf3 : wf_queues w3) by by apply Hp3, Hp2.
    destruct (Hwf3 q' Hq') as [Harn Hurl'].
    assert (Hlast : Py.last_part (Py.split ":" (q_arn q')) = dlq_name).
    { rewrite Harn, <- Hurl', Hu'. by apply valid_name_url. }
    cbn. intros [= <- <- <- <-].
    split; [done|]. split; [by apply Hp4|done]. }
unfold bind at 1.
destruct (phase w2) as [[r|e] w4] eqn:Hr; [|done].
destruct (Hphase r w4 eq_refl) as (Hp4 & Hn4 & Harn).
destruct r as [[q_url q_arn] created]. cbn [fst snd] in Harn.
unfold bind at 1, lift.
destruct (get_rule_arn rule arn) as [rule_arn|e]; [|done].
unfold bind at 1.
pose proof (prov_update_queue_policy other q_url q_arn rule_arn w4) as Hp5.
destruct (update_queue_policy q_url q_arn rule_arn w4) as [[policy|e] w5]; [|done].
cbn in Hp5. unfold bind at 1.
destruct (attach_dlq_to_targets rule bus q_arn w5) as [[n|e] w6] eqn:Hattach; [|done].
cbn. intros [= <- <-]. cbn [targets_updated]. intros Hn.
assert (Hp : provisions other w w5) by by eapply provisions_trans.
assert (Hq5 : quiet w5) by by eapply quiet_provisions.
destruct (attach_dlq_to_targets_updated rule bus q_arn w5 n w6 Hq5 Hattach Hn)
  as (to_update & Hto & Hne & Hts & Hqs).
rewrite (rule_targets_provisions rule other w w5 Hother Hp) in Hto, Hts.
assert (Harn_truthy : Py.truthy q_arn = true).
{ apply (truthy_of_last_part ":"). by rewrite Harn. }
assert (Hclone : forall u, u ∈ to_update ->
          dead_letter_arn u = Ok (Some (JStr q_arn))).
{ intros u Hu.
  destruct (targets_to_attach_elem _ _ _ _ Hto Hu) as (t & clone & _ & _ & _ & ->).
  by apply dead_letter_arn_attached. }
split; [|split].
- intros t Ht. rewrite Hts in Ht. apply upsert_all_elem in Ht as [Ht|Ht].
  + by apply Hscannable.
  + right. exists q_arn. by apply Hclone.
- destruct (exists_last Hne) as (us & u & ->).
  exists u. split; [rewrite Hts; apply upsert_all_has_last|].
  exists q_arn. split; [|done]. apply Hclone.
  apply elem_of_app. right. apply list_elem_of_here.
- destruct (Hp5) as (_ & _ & _ & _ & Hnamed & _).
  destruct (Hnamed dlq_name Hn4) as (q & Hq & Hqn). exists q. by rewrite Hqs.
Qed.

End EnsureProvisions.

(** ** The rule loop *)

Section RuleLoop.

Lemma provisioned_provisions rule name other w w' :
rule <> other -> provisions other w w' ->
provisioned rule name w -> provisioned rule name w'.
Proof.
intros Hne Hp (Hscan & Hpt & Hq).
rewrite <- (rule_targets_provisions rule other w w' Hne Hp) in Hscan, Hpt.
split; [done|]. split; [done|]. by apply Hp.
Qed.

Lemma provisioned_lookups rule name w w' :
only_lookups w w' -> provisioned rule name w -> provisioned rule name w'.
Proof.
intros Hl. apply (provisioned_provisions rule name (String "x" rule));
  [apply other_name|by apply only_lookups_provisions].
Qed.

(** The operation carries the names it was asked for. *)
Lemma ensure_queue_and_policy_names rule dlq_name tags settings arn dry_run bus w op w' :
ensure_queue_and_policy rule dlq_name tags settings arn dry_run bus w = (Ok op, w') ->
op_rule_name op = rule /\ op_dlq_name op = dlq_name.
Proof.
unfold ensure_queue_and_policy. destruct dry_run; [by intros [= <- _]|].
unfold bind at 1. destruct (rule_has_dlq_attached rule bus w) as [[[|]|e] w1];
  [by intros [= <- _]| |done].
unfold bind at 1. destruct (get_queue_by_name dlq_name w1) as [[found|e] w2]; [|done].
unfold bind at 1.
match goal with |- context [match ?m w2 with _ => _ end] =>
  destruct (m w2) as [[[[q_url q_arn] created]|e] w3]; [|done] end.
unfold bind at 1, lift. destruct (get_rule_arn rule arn) as [rule_arn|e]; [|done].
unfold bind at 1.
destruct (update_queue_policy q_url q_arn rule_arn w3) as [[policy|e] w4]; [|done].
unfold bind at 1.
destruct (attach_dlq_to_targets rule bus q_arn w4) as [[n|e] w5]; [|done].
by intros [= <- _].
Qed.

(** A provisioned rule stays provisioned through the loop, and every
  operation the loop computes for it is the skipped one. *)
Lemma reconcile_rules_keeps_provisioned bus arn tags settings env_prefix skip_rules
  rule name rules :
forall t w t' w',
  quiet w -> provisioned rule name w ->
  reconcile_rules bus arn tags settings false env_prefix skip_rules rules t w
  = (Ok t', w') ->
  quiet w' /\ provisioned rule name w' /\
  exists new,
    t_operations t' = t_operations t ++ new /\
    map op_rule_name new = map Name (List.filter (eligible skip_rules) rules) /\
    forall op, op ∈ new -> op_rule_name op = rule ->
               op = skipped_operation rule (generate_dlq_name rule env_prefix).
Proof.
induction rules as [|r rules IH]; intros t w t' w' Hquiet Hprov;
  cbn [reconcile_rules List.filter].
{ intros [= <- <-]. split; [done|]. split; [done|]. exists [].
  rewrite app_nil_r. split; [done|]. split; [done|].
  intros op Hop. by apply elem_of_nil in Hop. }
unfold eligible at 1.
destruct (is_aws_managed r); cbn [negb andb].
{ intros Hrun. by destruct (IH _ _ _ _ Hquiet Hprov Hrun) as (? & ? & new & ? & ? & ?);
    eauto 10. }
destruct (in_list (Name r) skip_rules); cbn [negb].
{ intros Hrun. by destruct (IH _ _ _ _ Hquiet Hprov Hrun) as (? & ? & new & ? & ? & ?);
    eauto 10. }
unfold bind at 1.
pose proof (prov_ensure_queue_and_policy (Name r)
              (generate_dlq_name (Name r) env_prefix) tags settings arn false bus w)
  as Hp.
destruct (ensure_queue_and_policy (Name r) _ tags settings arn false bus w)
  as [[op|e] w1] eqn:Hens; [|done].
cbn in Hp. intros Hrun.
assert (Hq1 : quiet w1) by by eapply quiet_provisions.
assert (Hop : op_rule_name op = Name r)
  by by apply ensure_queue_and_policy_names in Hens as [? _].
assert (Hprov1 : provisioned rule name w1 /\
          (Name r = rule ->
           op = skipped_operation rule (generate_dlq_name rule env_prefix))).
{ destruct (decide (Name r = rule)) as [Heq|Hne].
  - rewrite Heq in Hens.
    destruct (ensure_queue_and_policy_skips rule
                (generate_dlq_name rule env_prefix) name tags settings arn bus w
                Hquiet Hprov) as (w1' & Hskip & Hl).
    rewrite Hskip in Hens. injection Hens as <- <-.
    split; [by eapply provisioned_lookups|done].
  - split; [|done]. by eapply (provisioned_provisions rule name (Name r)). }
destruct Hprov1 as [Hprov1 Hskipped].
destruct (IH _ _ _ _ Hq1 Hprov1 Hrun) as (Hq' & Hprov' & new & Hnew & Hnames & Hops).
split; [done|]. split; [done|]. exists (op :: new).
cbn [count_operation t_operations] in Hnew. rewrite <- app_assoc in Hnew.
split; [done|]. split; [cbn [map]; by rewrite Hop, Hnames|].
intros op' [->|Hin]%elem_of_cons Hname; [|by apply Hops].
apply Hskipped. by rewrite <- Hop.
Qed.

(** The first pass: every operation that reports updated targets
  leaves its rule provisioned at the end of the loop. *)
Lemma reconcile_rules_provisions bus arn tags settings env_prefix skip_rules rules :
forall t w t' w',
  quiet w -> wf_queues w ->
  reconcile_rules bus arn tags settings false env_prefix skip_rules rules t w
  = (Ok t', w') ->
  quiet w' /\ w_rules w' = w_rules w /\
  exists new,
    t_operations t' = t_operations t ++ new /\
    map op_rule_name new = map Name (List.filter (eligible skip_rules) rules) /\
    (forall op, op ∈ new ->
                op_dlq_name op = generate_dlq_name (op_rule_name op) env_prefix) /\
    forall op, op ∈ new -> (0 < targets_updated op)%nat ->
               provisioned (op_rule_name op) (op_dlq_name op) w'.
Proof.
induction rules as [|r rules IH]; intros t w t' w' Hquiet Hwf;
  cbn [reconcile_rules List.filter].
{ intros [= <- <-]. split; [done|]. split; [done|]. exists [].
  rewrite app_nil_r. split; [done|]. split; [done|].
  split; intros op Hop; by apply elem_of_nil in Hop. }
unfold eligible at 1.
destruct (is_aws_managed r); cbn [negb andb].
{ intros Hrun.
  by destruct (IH _ _ _ _ Hquiet Hwf Hrun) as (? & ? & new & ? & ? & ? & ?);
    eauto 10. }
destruct (in_list (Name r) skip_rules); cbn [negb].
{ intros Hrun.
  by destruct (IH _ _ _ _ Hquiet Hwf Hrun) as (? & ? & new & ? & ? & ? & ?);
    eauto 10. }
unfold bind at 1.
pose proof (prov_ensure_queue_and_policy (Name r)
              (generate_dlq_name (Name r) env_prefix) tags settings arn false bus w)
  as Hp.
destruct (ensure_queue_and_policy (Name r) _ tags settings arn false bus w)
  as [[op|e] w1] eqn:Hens; [|done].
cbn in Hp. intros Hrun.
assert (Hq1 : quiet w1) by by eapply quiet_provisions.
assert (Hwf1 : wf_queues w1) by by apply Hp.
destruct (ensure_queue_and_policy_names _ _ _ _ _ _ _ _ _ _ Hens) as [Hop Hdlq].
destruct (IH _ _ _ _ Hq1 Hwf1 Hrun)
  as (Hq' & Hrules & new & Hnew & Hnames & Hdlqs & Hops).
split; [done|]. split; [destruct Hp as (Hr & _); congruence|]. exists (op :: new).
cbn [count_operation t_operations] in Hnew. rewrite <- app_assoc in Hnew.
split; [done|]. split; [cbn [map]; by rewrite Hop, Hnames|]. split.
{ intros op' [->|Hin]%elem_of_cons; [by rewrite Hop|by apply Hdlqs]. }
intros op' [->|Hin]%elem_of_cons Hupd; [|by apply Hops].
rewrite Hop, Hdlq.
assert (Hprov1 : provisioned (Name r) (generate_dlq_name (Name r) env_prefix) w1).
{ apply (ensure_queue_and_policy_provisions (Name r) _ tags settings arn bus
           w op w1 Hquiet Hwf (generate_dlq_name_truthy _ _) Hens Hupd). }
by destruct (reconcile_rules_keeps_provisioned _ _ _ _ _ _ _ _ _ _ _ _ _
               Hq1 Hprov1 Hrun) as (_ & ? & _).
Qed.

(** When every eligible rule is provisioned, the loop skips them all:
  it returns, after lookups only, with the counters where they were. *)
Lemma reconcile_rules_all_skipped bus arn tags settings env_prefix skip_rules rules :
forall t w,
  quiet w ->
  (forall r, r ∈ rules -> eligible skip_rules r = true ->
             exists name, provisioned (Name r) name w) ->
  exists t' w',
    reconcile_rules bus arn tags settings false env_prefix skip_rules rules t w
    = (Ok t', w') /\
    only_lookups w w' /\
    t_operations t' =
      t_operations t ++
      map (fun r => skipped_operation (Name r) (generate_dlq_name (Name r) env_prefix))
          (List.filter (eligible skip_rules) rules) /\
    t_created t' = t_created t /\ t_policies t' = t_policies t /\
    t_attached t' = t_attached t.
Proof.
induction rules as [|r rules IH]; intros t w Hquiet Hall;
  cbn [reconcile_rules List.filter].
{ exists t, w. split; [done|]. split; [apply only_lookups_refl|].
  by rewrite app_nil_r. }
assert (Hrest : forall w1, only_lookups w w1 ->
          forall r0, r0 ∈ rules -> eligible skip_rules r0 = true ->
                     exists name, provisioned (Name r0) name w1).
{ intros w1 Hl r0 Hin He. destruct (Hall r0) as (name & Hp); [by right|done|].
  exists name. by eapply provisioned_lookups. }
pose proof (Hall r (list_elem_of_here _ _)) as Hr. unfold eligible in Hr |- *.
destruct (is_aws_managed r); cbn [negb andb] in *.
{ destruct (IH (skip_one t) w Hquiet (Hrest w (only_lookups_refl w)))
    as (t' & w' & -> & ? & ? & ? & ? & ?). by exists t', w'. }
destruct (in_list (Name r) skip_rules); cbn [negb] in *.
{ destruct (IH (skip_one t) w Hquiet (Hrest w (only_lookups_refl w)))
    as (t' & w' & -> & ? & ? & ? & ? & ?). by exists t', w'. }
destruct (Hr eq_refl) as (name & Hp). unfold bind at 1.
destruct (ensure_queue_and_policy_skips (Name r)
            (generate_dlq_name (Name r) env_prefix) name tags settings arn bus w
            Hquiet Hp) as (w1 & -> & Hl).
destruct (IH (count_operation
                (skipped_operation (Name r) (generate_dlq_name (Name r) env_prefix)) t)
             w1 (quiet_lookups _ _ Hl Hquiet) (Hrest w1 Hl))
  as (t' & w' & -> & Hl' & Hops & Hc & Hpol & Ha).
exists t', w'. split; [done|]. split; [by eapply only_lookups_trans|].
cbn [count_operation t_operations t_created t_policies t_attached skipped_operation
     queue_created policy_updated targets_updated Nat.ltb Nat.leb] in *.
rewrite <- app_assoc in Hops. done.
Qed.

End RuleLoop.

(** ** Two passes *)

Section TwoPasses.

Lemma cleans_refl w : cleans w w.
Proof. repeat split. exists []. by rewrite app_nil_r. Qed.

Lemma cleans_trans w1 w2 w3 : cleans w1 w2 -> cleans w2 w3 -> cleans w1 w3.
Proof.
intros (Hr & Ht & Hf & c1 & Hc1) (Hr' & Ht' & Hf' & c2 & Hc2).
repeat split; try congruence.
exists (c1 ++ c2). by rewrite Hc2, Hc1, <- app_assoc.
Qed.

Lemma cleans_record c w : cleans w (record_call c w).
Proof. repeat split. by exists [c]. Qed.

Lemma cleans_cleanup_queues rule_names dry_run dlq_queues :
forall result, preserves cleans (cleanup_queues rule_names dry_run dlq_queues result).
Proof.
induction dlq_queues as [|q qs IH]; intros result; cbn [cleanup_queues].
{ apply preserves_ret, cleans_refl. }
destruct (is_orphan rule_names q); [|apply IH].
destruct dry_run; [apply IH|].
apply preserves_bind; [apply cleans_trans| |intros; apply IH].
apply preserves_on_client_error; [apply cleans_trans| |].
- apply preserves_bind; [apply cleans_trans| |intros; apply preserves_ret, cleans_refl].
  apply preserves_request; [apply cleans_trans|apply cleans_record|].
  intros w. cbn. destruct (List.find _ _); [|apply cleans_refl].
  repeat split. exists []. by rewrite app_nil_r.
- intros. apply preserves_ret, cleans_refl.
Qed.

Lemma cleans_cleanup_orphaned_dlqs rules dry_run :
preserves cleans (cleanup_orphaned_dlqs rules dry_run).
Proof.
unfold cleanup_orphaned_dlqs. destruct dry_run; [apply preserves_ret, cleans_refl|].
apply preserves_bind; [apply cleans_trans| |intros; apply cleans_cleanup_queues].
apply preserves_on_client_error; [apply cleans_trans| |].
- apply preserves_bind; [apply cleans_trans| |intros; apply preserves_ret, cleans_refl].
  apply preserves_request; [apply cleans_trans|apply cleans_record|].
  intros w. apply cleans_refl.
- intros. apply preserves_ret, cleans_refl.
Qed.

(** Orphan cleanup always returns. *)
Lemma cleanup_orphaned_dlqs_returns rules dry_run w :
exists res w', cleanup_orphaned_dlqs rules dry_run w = (Ok res, w').
Proof.
destruct dry_run; [by eexists _, _|].
destruct (cleanup_orphaned_dlqs_run rules w) as (? & ? & res & w' & _ & H & _).
by exists res, w'.
Qed.

Lemma quiet_cleans w w' : cleans w w' -> quiet w -> quiet w'.
Proof. intros (_ & _ & Hf & calls & Hc). by apply (quiet_step w w' calls). Qed.

(** What a pass that returns went through: the listing, the rule loop,
  the cleanup. *)
Lemma reconcile_bus_stages bus arn tags settings env_prefix skip_rules w s w' :
quiet w ->
reconcile_bus bus arn tags settings false env_prefix skip_rules w = (Ok s, w') ->
exists wa t wb,
  only_list_rules w wa /\
  reconcile_rules bus arn tags settings false env_prefix skip_rules
    (concat (w_rules w)) empty_tally wa = (Ok t, wb) /\
  cleans wb w' /\
  operations s = t_operations t /\
  queues_created s = t_created t /\
  policies_updated s = t_policies t /\
  targets_attached s = t_attached t.
Proof.
intros Hquiet. unfold reconcile_bus, bind at 1.
destruct (list_all_rules_run bus w) as (r & wa & -> & Hl & _ & Hr).
rewrite (Hr Hquiet). unfold bind at 1. fold empty_tally.
destruct (reconcile_rules _ _ _ _ _ _ _ _ _ wa) as [[t|e] wb] eqn:Hloop; [|done].
unfold bind at 1.
pose proof (cleans_cleanup_orphaned_dlqs (concat (w_rules w)) false wb) as Hc.
destruct (cleanup_orphaned_dlqs _ _ wb) as [[oc|e] w2]; [|done].
cbn. intros [= <- <-]. by exists wa, t, wb.
Qed.

End TwoPasses.

(** C1, as the code has it.  Take a first pass that returns, on a
    service that answers every request and whose queues carry their names
    in ARN and URL.
    - For every operation of that pass that reports updated targets and
      whose queue is still there when the pass ends, a second pass that
      returns has an operation for the same rule, and every such operation
      is the skipped one: no queue created, no policy updated, no target
      attached, status [skipped], reason [dlq_exists].
    - When this holds for every operation of the first pass, the second
      pass does return: all its operations are the skipped ones and its
      three counters are zero. *)
Theorem second_pass_skips_provisioned_rules
    bus arn tags settings env_prefix skip_rules w0 s1 w1 :
  quiet w0 ->
  wf_queues w0 ->
  reconcile_bus bus arn tags settings false env_prefix skip_rules w0 = (Ok s1, w1) ->
  (forall op1,
      op1 ∈ operations s1 ->
      (0 < targets_updated op1)%nat ->
      queue_named (op_dlq_name op1) w1 ->
      forall s2 w2,
        reconcile_bus bus arn tags settings false env_prefix skip_rules w1
        = (Ok s2, w2) ->
        (exists op2, op2 ∈ operations s2 /\ op_rule_name op2 = op_rule_name op1) /\
        (forall op2, op2 ∈ operations s2 ->
           op_rule_name op2 = op_rule_name op1 ->
           op2 = skipped_operation (op_rule_name op1) (op_dlq_name op1))) /\
  ((forall op1, op1 ∈ operations s1 ->
      (0 < targets_updated op1)%nat /\ queue_named (op_dlq_name op1) w1) ->
   exists s2 w2,
     reconcile_bus bus arn tags settings false env_prefix skip_rules w1 = (Ok s2, w2) /\
     queues_created s2 = 0%nat /\
     policies_updated s2 = 0%nat /\
     targets_attached s2 = 0%nat /\
     operations s2
     = map (fun op => skipped_operation (op_rule_name op) (op_dlq_name op))
           (operations s1)).
Proof.
  intros Hquiet Hwf Hpass1.
  destruct (reconcile_bus_stages _ _ _ _ _ _ _ _ _ Hquiet Hpass1)
    as (wa & t1 & wb & Hla & Hloop1 & Hclean1 & Hops1 & _).
  assert (Hqa : quiet wa) by by eapply quiet_lookups; [apply only_list_rules_lookups|].
  assert (Hwfa : wf_queues wa).
  { destruct Hla as (_ & _ & Hqs & _). intros q Hq. apply Hwf. by rewrite <- Hqs. }
  destruct (reconcile_rules_provisions _ _ _ _ _ _ _ _ _ _ _ Hqa Hwfa Hloop1)
    as (Hqb & Hrules_b & new1 & Hnew1 & Hnames1 & Hdlqs1 & Hprov_b).
  cbn [empty_tally t_operations app] in Hnew1. rewrite Hnew1 in Hops1.
  assert (Hq1 : quiet w1) by by eapply quiet_cleans.
  assert (Hrules1 : w_rules w1 = w_rules w0).
  { destruct Hclean1 as (-> & _). rewrite Hrules_b. by destruct Hla as (-> & _). }
  assert (Hprov1 : forall op1, op1 ∈ operations s1 ->
            (0 < targets_updated op1)%nat -> queue_named (op_dlq_name op1) w1 ->
            provisioned (op_rule_name op1) (op_dlq_name op1) w1).
  { intros op1 Hin Hupd Hq. rewrite Hops1 in Hin.
    destruct (Hprov_b op1 Hin Hupd) as (Hscan & Hpt & _).
    destruct Hclean1 as (_ & Ht & _).
    unfold provisioned, rule_targets in *. rewrite Ht. done. }
  split.
  - intros op1 Hin Hupd Hq s2 w2 Hpass2.
    destruct (reconcile_bus_stages _ _ _ _ _ _ _ _ _ Hq1 Hpass2)
      as (wc & t2 & wd & Hlc & Hloop2 & _ & Hops2 & _).
    rewrite Hrules1 in Hloop2.
    assert (Hlook : only_lookups w1 wc) by by apply only_list_rules_lookups.
    destruct (reconcile_rules_keeps_provisioned _ _ _ _ _ _
                (op_rule_name op1) (op_dlq_name op1) _ _ _ _ _
                (quiet_lookups _ _ Hlook Hq1)
                (provisioned_lookups _ _ _ _ Hlook (Hprov1 op1 Hin Hupd Hq)) Hloop2)
      as (_ & _ & new2 & Hnew2 & Hnames2 & Hskip).
    cbn [empty_tally t_operations app] in Hnew2. rewrite Hnew2 in Hops2.
    rewrite Hops2. split.
    + assert (Hname : op_rule_name op1 ∈ map op_rule_name new2).
      { rewrite Hnames2, <- Hnames1. apply list_elem_of_fmap.
        exists op1. by rewrite <- Hops1. }
      apply list_elem_of_fmap in Hname as (op2 & Hn & Hin2). by exists op2.
    + intros op2 Hin2 Hn. rewrite (Hskip op2 Hin2 Hn). f_equal.
      rewrite Hops1 in Hin. by rewrite (Hdlqs1 op1 Hin).
  - intros Hall.
    unfold reconcile_bus, bind at 1.
    destruct (list_all_rules_run bus w1) as (r & wc & -> & Hlc & _ & Hr).
    rewrite (Hr Hq1), Hrules1. unfold bind at 1.
    assert (Hlook : only_lookups w1 wc) by by apply only_list_rules_lookups.
    destruct (reconcile_rules_all_skipped bus arn tags settings env_prefix skip_rules
                (concat (w_rules w0)) empty_tally wc (quiet_lookups _ _ Hlook Hq1))
      as (t2 & wd & Hloop2 & _ & Hops2 & Hc & Hp & Ha).
    { intros r0 Hin He.
      assert (Hname : Name r0 ∈ map op_rule_name new1).
      { rewrite Hnames1. apply list_elem_of_fmap. exists r0. split; [done|].
        apply list_elem_of_In, filter_In. split; [by apply list_elem_of_In|done]. }
      apply list_elem_of_fmap in Hname as (op1 & Hn & Hin1).
      rewrite <- Hops1 in Hin1. destruct (Hall op1 Hin1) as [Hupd Hq].
      exists (op_dlq_name op1). rewrite Hn. eapply provisioned_lookups; [done|].
      by apply Hprov1. }
    fold empty_tally. rewrite Hloop2. unfold bind at 1.
    destruct (cleanup_orphaned_dlqs_returns (concat (w_rules w0)) false wd)
      as (oc & w2 & ->).
    eexists _, _. split; [reflexivity|]. cbn.
    split; [done|]. split; [done|]. split; [done|].
    rewrite Hops2, Hops1. cbn [empty_tally t_operations app].
    rewrite <- (map_map Name
      (fun n => skipped_operation n (generate_dlq_name n env_prefix))).
    rewrite <- Hnames1, map_map. apply map_ext_in. intros op Hin.
    apply list_elem_of_In in Hin. by rewrite (Hdlqs1 op Hin).
Qed.

Lemma second_pass_skips_provisioned_rules_witness :
  quiet orders_world /\
  wf_queues orders_world /\
  sample_pass orders_world
  = (Ok {| queues_created := 1; policies_updated := 1; targets_attached := 1;
           rules_total := 1; rules_skipped := 0;
           operations :=
             [updated_operation "order-events" "prod-order-events-rule-dlq" 1];
           orphaned_cleanup := {| orphaned_queues := []; deleted_count := 0 |} |},
     after_sample_pass orders_world) /\
  queue_named "prod-order-events-rule-dlq" (after_sample_pass orders_world) /\
  (forall s2 w2,
     sample_pass (after_sample_pass orders_world) = (Ok s2, w2) ->
     (exists op2, op2 ∈ operations s2 /\ op_rule_name op2 = "order-events") /\
     (forall op2, op2 ∈ operations s2 ->
        op_rule_name op2 = "order-events" ->
        op2 = skipped_operation "order-events" "prod-order-events-rule-dlq")) /\
  (exists s2 w2,
     sample_pass (after_sample_pass orders_world) = (Ok s2, w2) /\
     queues_created s2 = 0%nat /\
     policies_updated s2 = 0%nat /\
     targets_attached s2 = 0%nat /\
     operations s2
     = map (fun op => skipped_operation (op_rule_name op) (op_dlq_name op))
           [updated_operation "order-events" "prod-order-events-rule-dlq" 1]).
Proof.
  assert (Hquiet : quiet orders_world) by (intros n c _; reflexivity).
  assert (Hwf : wf_queues orders_world) by (intros q Hq; by apply elem_of_nil in Hq).
  assert (Hpass : sample_pass orders_world
    = (Ok {| queues_created := 1; policies_updated := 1; targets_attached := 1;
             rules_total := 1; rules_skipped := 0;
             operations :=
               [updated_operation "order-events" "prod-order-events-rule-dlq" 1];
             orphaned_cleanup := {| orphaned_queues := []; deleted_count := 0 |} |},
       after_sample_pass orders_world)) by (vm_compute; reflexivity).
  assert (Hnamed : queue_named "prod-order-events-rule-dlq"
                     (after_sample_pass orders_world)).
  { exists (Sqs.with_policy
              (JObj [("Version", JStr "2012-10-17");
                     ("Statement",
                      JArr [desired_statement
                              (Sqs.arn_base +:+ "prod-order-events-rule-dlq")
                              "arn:aws:events:us-east-1:123456789012:rule/main/order-events"])])
              (Sqs.new_queue "prod-order-events-rule-dlq"
                 (queue_attributes sample_settings) ∅)).
    split; [vm_compute; apply list_elem_of_here|reflexivity]. }
  split; [exact Hquiet|]. split; [exact Hwf|]. split; [exact Hpass|].
  split; [exact Hnamed|]. split.
  - apply (proj1 (second_pass_skips_provisioned_rules "main" main_bus_arn ∅
                    sample_settings "prod" [] orders_world _ _ Hquiet Hwf Hpass)
             (updated_operation "order-events" "prod-order-events-rule-dlq" 1)).
    + apply list_elem_of_here.
    + cbn. lia.
    + exact Hnamed.
  - apply (proj2 (second_pass_skips_provisioned_rules "main" main_bus_arn ∅
                    sample_settings "prod" [] orders_world _ _ Hquiet Hwf Hpass)).
    intros op1 Hin. apply list_elem_of_singleton in Hin as ->.
    split; [cbn; lia|exact Hnamed].
Defined.

(** The scenario of the specification, run: the second pass skips. *)
Example second_pass_sample :
  sample_pass (after_sample_pass orders_world)
  = (Ok {| queues_created := 0; policies_updated := 0; targets_attached := 0;
           rules_total := 1; rules_skipped := 0;
           operations :=
             [skipped_operation "order-events" "prod-order-events-rule-dlq"];
           orphaned_cleanup := {| orphaned_queues := []; deleted_count := 0 |} |},
     after_sample_pass (after_sample_pass orders_world)).
Proof. vm_compute. reflexivity. Qed.

(** C1 as stated fails.  For the rule [a-rule-dlq-b] the first pass
    creates the queue [prod-a-rule-dlq-b-rule-dlq], writes its policy and
    attaches the target; the orphan cleanup of the same pass then parses
    that queue's name up to its first [rule], [dlq] pair, recovers the rule
    name [a], finds no such rule and deletes the queue.  The second pass,
    with nothing changed in between, creates the queue again and reports it:
    one queue created, one policy updated, status [updated]. *)
Lemma second_pass_recreates_deleted_queue :
  sample_pass tokens_world
  = (Ok {| queues_created := 1; policies_updated := 1; targets_attached := 1;
           rules_total := 1; rules_skipped := 0;
           operations :=
             [updated_operation "a-rule-dlq-b" "prod-a-rule-dlq-b-rule-dlq" 1];
           orphaned_cleanup :=
             {| orphaned_queues :=
                  [{| oq_queue_name := "prod-a-rule-dlq-b-rule-dlq";
                      oq_rule_name := "a"; oq_action := "deleted" |}];
                deleted_count := 1 |} |},
     after_sample_pass tokens_world) /\
  sample_pass (after_sample_pass tokens_world)
  = (Ok {| queues_created := 1; policies_updated := 1; targets_attached := 0;
           rules_total := 1; rules_skipped := 0;
           operations :=
             [updated_operation "a-rule-dlq-b" "prod-a-rule-dlq-b-rule-dlq" 0];
           orphaned_cleanup :=
             {| orphaned_queues :=
                  [{| oq_queue_name := "prod-a-rule-dlq-b-rule-dlq";
                      oq_rule_name := "a"; oq_action := "deleted" |}];
                deleted_count := 1 |} |},
     after_sample_pass (after_sample_pass tokens_world)) /\
  updated_operation "a-rule-dlq-b" "prod-a-rule-dlq-b-rule-dlq" 0
  <> skipped_operation "a-rule-dlq-b" "prod-a-rule-dlq-b-rule-dlq".
Proof. repeat apply conj; try (vm_compute; reflexivity). discriminate. Qed.

(** * Further properties of the code *)

(** ** More on the naming codec *)

Section NamingMore.

Lemma take_all n s : (String.length s <= n)%nat -> Py.take n s = s.
Proof.
revert n. induction s as [|c s IH]; intros [|n] Hn; cbn [Py.take]; try done.
- cbn in Hn. lia.
- rewrite IH; [done|]. cbn in Hn. lia.
Qed.

Lemma append_inv_head a b c : a +:+ b = a +:+ c -> b = c.
Proof.
induction a as [|x a IH]; [by rewrite !append_nil_l|].
rewrite !append_cons. intros [= H]. by apply IH.
Qed.

Lemma append_inv_tail s : forall a b, a +:+ s = b +:+ s -> a = b.
Proof.
induction a as [|x a IH]; intros [|y b] H.
- done.
- apply (f_equal Py.len) in H. rewrite append_nil_l, len_append, len_cons in H.
  pose proof (len_nonneg b). lia.
- apply (f_equal Py.len) in H. rewrite append_nil_l, len_append, len_cons in H.
  pose proof (len_nonneg a). lia.
- rewrite !append_cons in H. injection H as -> H. by rewrite (IH b H).
Qed.

(** The room left for the rule name. *)
Lemma generate_dlq_name_closed rule_name env_prefix :
Py.len env_prefix <= 70 ->
generate_dlq_name rule_name env_prefix =
(if Py.truthy env_prefix then env_prefix +:+ "-" else "")
+:+ Py.take (Z.to_nat (if Py.truthy env_prefix then 70 - Py.len env_prefix else 71))
      rule_name
+:+ suffix.
Proof.
intros Hp. unfold generate_dlq_name.
destruct (Py.truthy env_prefix); cbv zeta; rewrite ?len_append;
  change (Py.len suffix) with 9; change (Py.len "-") with 1.
- f_equal. f_equal.
  replace (80 - (Py.len env_prefix + 1) - 9) with (70 - Py.len env_prefix) by lia.
  destruct (Z.gtb_spec (Py.len rule_name) (70 - Py.len env_prefix)).
  + unfold Py.slice_to. destruct (Z.ltb_spec (70 - Py.len env_prefix) 0); [lia|done].
  + rewrite take_all; [done|]. unfold Py.len in *. lia.
- rewrite append_nil_l. f_equal. change (80 - 9) with 71.
  destruct (Z.gtb_spec (Py.len rule_name) 71).
  + reflexivity.
  + rewrite take_all; [done|]. unfold Py.len in *. lia.
Qed.

End NamingMore.

(** X1. The derived name stays within the 80 characters a queue name may
    have exactly when the prefix has at most 70 characters, whatever the
    rule name is. *)
Theorem dlq_name_fits_iff_prefix_fits rule_name env_prefix :
  Py.len (generate_dlq_name rule_name env_prefix) <= 80 <-> Py.len env_prefix <= 70.
Proof.
split.
- intros Hn. destruct (Z.le_gt_cases (Py.len env_prefix) 70) as [|Hgt]; [done|].
  pose proof (generate_dlq_name_overflow rule_name env_prefix). lia.
- apply generate_dlq_name_bound.
Qed.

(** X2. Under one prefix, two rule names that both fit without truncation
    get different queue names: when the derived names are equal, so are the
    rule names. *)
Theorem dlq_names_differ_without_truncation rule1 rule2 env_prefix :
  Py.len env_prefix + 1 + Py.len rule1 + 9 <= 80 ->
  Py.len env_prefix + 1 + Py.len rule2 + 9 <= 80 ->
  generate_dlq_name rule1 env_prefix = generate_dlq_name rule2 env_prefix ->
  rule1 = rule2.
Proof.
intros H1 H2.
pose proof (len_nonneg rule1). pose proof (len_nonneg rule2).
pose proof (len_nonneg env_prefix).
rewrite !generate_dlq_name_closed by lia.
rewrite !take_all.
- intros Heq. apply append_inv_head in Heq. by apply append_inv_tail in Heq.
- destruct (Py.truthy env_prefix); unfold Py.len in *; lia.
- destruct (Py.truthy env_prefix); unfold Py.len in *; lia.
Qed.

Lemma dlq_names_differ_without_truncation_witness :
  Py.len "prod" + 1 + Py.len "orders" + 9 <= 80 /\ "orders" = "orders".
Proof.
split; [vm_compute; discriminate|].
apply (dlq_names_differ_without_truncation "orders" "orders" "prod");
  [vm_compute; discriminate|vm_compute; discriminate|reflexivity].
Defined.

(** X3. Truncation makes names collide: with a prefix of at most 70
    characters, two rule names that agree on the characters left for the
    rule name (70 minus the length of the prefix, 71 without a prefix) get
    the same queue name. *)
Theorem truncated_dlq_names_collide rule1 rule2 env_prefix :
  Py.len env_prefix <= 70 ->
  Py.take (Z.to_nat (if Py.truthy env_prefix then 70 - Py.len env_prefix else 71)) rule1
  = Py.take (Z.to_nat (if Py.truthy env_prefix then 70 - Py.len env_prefix else 71)) rule2 ->
  generate_dlq_name rule1 env_prefix = generate_dlq_name rule2 env_prefix.
Proof.
intros Hp Heq. rewrite !generate_dlq_name_closed by done. by rewrite Heq.
Qed.

Lemma truncated_dlq_names_collide_witness :
  generate_dlq_name "orders-eu" (Py.take 64 prefix_71)
  = generate_dlq_name "orders-us" (Py.take 64 prefix_71).
Proof.
apply (truncated_dlq_names_collide "orders-eu" "orders-us" (Py.take 64 prefix_71));
  vm_compute; [discriminate|reflexivity].
Defined.

(** ** More on name recovery *)

Section RecoveryMore.

Lemma count_append c a b : Py.count c (a +:+ b) = Py.count c a + Py.count c b.
Proof.
induction a as [|x a IH]; [by rewrite append_nil_l|].
rewrite append_cons. cbn [Py.count]. rewrite IH. lia.
Qed.

Lemma startswith_append p s : Py.startswith p (p +:+ s) = true.
Proof.
induction p as [|x p IH]; [done|].
rewrite append_cons. cbn [Py.startswith]. by rewrite Ascii.eqb_refl, IH.
Qed.

Lemma contains_append needle a b : Py.contains needle (a +:+ needle +:+ b) = true.
Proof.
induction a as [|x a IH].
- rewrite append_nil_l. destruct (needle +:+ b) eqn:He; cbn [Py.contains];
    rewrite <- He, startswith_append; done.
- rewrite append_cons. cbn [Py.contains]. rewrite IH. apply orb_true_r.
Qed.

Lemma length_split sep s : Z.of_nat (length (Py.split sep s)) = Py.count sep s + 1.
Proof.
induction s as [|c s IH]; cbn [Py.split Py.count]; [done|].
destruct (Ascii.eqb c sep).
- cbn [length]. lia.
- destruct (Py.split sep s) as [|p ps] eqn:Hs; [by destruct (split_nonempty sep s)|].
  cbn [length] in *. lia.
Qed.

End RecoveryMore.

(** X4. A queue name is recognised when the pair [rule], [dlq] is followed
    by one more hyphen-separated part: for a prefix and a rule name without
    hyphens (not the pair [rule], [dlq] themselves), the name
    [prefix-rule_name-rule-dlq-rest] gives the rule name back, whatever
    [rest] is. *)
Theorem rule_name_recovered_before_trailing_part env_prefix rule_name rest :
  Py.count "-" env_prefix = 0 ->
  Py.count "-" rule_name = 0 ->
  ~ (env_prefix = "rule" /\ rule_name = "dlq") ->
  extract_rule_name (env_prefix +:+ "-" +:+ rule_name +:+ "-rule-dlq-" +:+ rest)
  = Some rule_name.
Proof.
intros Hp Hr Hne. unfold extract_rule_name.
assert (Hc : Py.contains "-rule-dlq"
               (env_prefix +:+ "-" +:+ rule_name +:+ "-rule-dlq-" +:+ rest) = true).
{ change ("-rule-dlq-" +:+ rest) with ("-rule-dlq" +:+ String "-" rest).
  rewrite <- (append_assoc env_prefix), <- (append_assoc _ rule_name).
  apply contains_append. }
rewrite Hc.
assert (Hs : Py.split "-" (env_prefix +:+ "-" +:+ rule_name +:+ "-rule-dlq-" +:+ rest)
             = env_prefix :: rule_name :: "rule" :: "dlq" :: Py.split "-" rest).
{ change ("-" +:+ rule_name +:+ "-rule-dlq-" +:+ rest)
    with (String "-" (rule_name +:+ String "-" ("rule" +:+ String "-" ("dlq" +:+ String "-" rest)))).
  by rewrite !split_append_sep. }
assert (Hn : 3 <= Py.count "-" (env_prefix +:+ "-" +:+ rule_name +:+ "-rule-dlq-" +:+ rest)).
{ pose proof (length_split "-" (env_prefix +:+ "-" +:+ rule_name +:+ "-rule-dlq-" +:+ rest)) as Hl.
  rewrite Hs in Hl. cbn [length] in Hl. lia. }
destruct (Z.geb_spec (Py.count "-" (env_prefix +:+ "-" +:+ rule_name +:+ "-rule-dlq-" +:+ rest)) 3);
  [|lia].
rewrite Hs.
destruct (Py.split "-" rest) as [|x xs] eqn:Hrest; [by destruct (split_nonempty "-" rest)|].
assert (Hi : find_rule_dlq_index (env_prefix :: rule_name :: "rule" :: "dlq" :: x :: xs) = 2).
{ unfold find_rule_dlq_index. cbn [length Nat.sub seq List.find].
  unfold is_rule_dlq_at. cbn [lookup list_lookup Nat.add].
  destruct (bool_decide (Some env_prefix = Some "rule") &&
            bool_decide (Some rule_name = Some "dlq")) eqn:H0.
  { apply andb_true_iff in H0 as [H1%bool_decide_eq_true H2%bool_decide_eq_true].
    destruct Hne. split; congruence. }
  rewrite (bool_decide_eq_false_2 (Some "rule" = Some "dlq")) by done.
  rewrite andb_false_r.
  rewrite !bool_decide_eq_true_2 by done. done. }
cbv zeta. rewrite Hi. reflexivity.
Qed.

Lemma rule_name_recovered_before_trailing_part_witness :
  extract_rule_name "prod-orders-rule-dlq-old" = Some "orders".
Proof.
apply (rule_name_recovered_before_trailing_part "prod" "orders" "old");
  [reflexivity|reflexivity|intros [H _]; discriminate H].
Defined.

(** X5. A failed listing of the queues makes the orphan cleanup a silent
    no-op: [list_all_dlq_queues] swallows the client error and returns the
    empty list, so the cleanup reports no orphan and no deletion, and the
    one request sent is the listing. *)
Theorem cleanup_reports_nothing_when_listing_fails rules w code :
  w_faults w (length (w_trace w)) ListQueues = Some code ->
  list_all_dlq_queues w = (Ok [], record_call ListQueues w) /\
  cleanup_orphaned_dlqs rules false w
  = (Ok {| orphaned_queues := []; deleted_count := 0 |}, record_call ListQueues w).
Proof.
intros Hf.
assert (Hl : list_all_dlq_queues w = (Ok [], record_call ListQueues w)).
{ unfold list_all_dlq_queues, try_except, bind, Sqs.list_queues, request.
  by rewrite Hf. }
split; [done|].
unfold cleanup_orphaned_dlqs, bind. by rewrite Hl.
Qed.

Lemma cleanup_reports_nothing_when_listing_fails_witness :
  list_all_dlq_queues (with_faults (fails_at 0 "AccessDenied") denied_world)
  = (Ok [], record_call ListQueues (with_faults (fails_at 0 "AccessDenied") denied_world)) /\
  cleanup_orphaned_dlqs [] false (with_faults (fails_at 0 "AccessDenied") denied_world)
  = (Ok {| orphaned_queues := []; deleted_count := 0 |},
     record_call ListQueues (with_faults (fails_at 0 "AccessDenied") denied_world)).
Proof.
apply (cleanup_reports_nothing_when_listing_fails [] _ "AccessDenied"). reflexivity.
Defined.

(** ** The rule ARN *)

(** X6. From a bus ARN of the usual form
    [arn:partition:events:region:account:event-bus/bus], [get_rule_arn]
    builds [arn:aws:events:region:account:rule/bus/rule_name]: region,
    account and bus name are taken over, the partition is not, it is always
    [aws]. *)
Theorem get_rule_arn_of_bus_arn partition region account bus rule_name :
  Py.count ":" partition = 0 ->
  Py.count ":" region = 0 ->
  Py.count ":" account = 0 ->
  Py.count "/" bus = 0 ->
  get_rule_arn rule_name
    ("arn:" +:+ partition +:+ ":events:" +:+ region +:+ ":" +:+ account
     +:+ ":event-bus/" +:+ bus)
  = Ok ("arn:aws:events:" +:+ region +:+ ":" +:+ account +:+ ":rule/" +:+ bus
        +:+ "/" +:+ rule_name).
Proof.
intros Hp Hr Ha Hb. unfold get_rule_arn.
assert (Hs : Py.split ":" ("arn:" +:+ partition +:+ ":events:" +:+ region +:+ ":"
                           +:+ account +:+ ":event-bus/" +:+ bus)
             = "arn" :: partition :: "events" :: region :: account
               :: Py.split ":" ("event-bus/" +:+ bus)).
{ change ("arn:" +:+ partition +:+ ":events:" +:+ region +:+ ":" +:+ account
          +:+ ":event-bus/" +:+ bus)
    with ("arn" +:+ String ":" (partition +:+ String ":" ("events" +:+ String ":"
            (region +:+ String ":" (account +:+ String ":" ("event-bus/" +:+ bus)))))).
  by rewrite !split_append_sep. }
assert (Hl : Py.last_part (Py.split "/" ("arn:" +:+ partition +:+ ":events:" +:+ region
                           +:+ ":" +:+ account +:+ ":event-bus/" +:+ bus)) = bus).
{ replace ("arn:" +:+ partition +:+ ":events:" +:+ region +:+ ":" +:+ account
           +:+ ":event-bus/" +:+ bus)
    with (("arn:" +:+ partition +:+ ":events:" +:+ region +:+ ":" +:+ account
           +:+ ":event-bus") +:+ String "/" bus).
  - rewrite last_part_split_after. by rewrite split_no_sep.
  - rewrite !append_assoc. reflexivity. }
cbv zeta. rewrite Hs, Hl. reflexivity.
Qed.

Lemma get_rule_arn_of_bus_arn_witness :
  get_rule_arn "orders" "arn:aws-cn:events:cn-north-1:123456789012:event-bus/main"
  = Ok "arn:aws:events:cn-north-1:123456789012:rule/main/orders".
Proof.
apply (get_rule_arn_of_bus_arn "aws-cn" "cn-north-1" "123456789012" "main" "orders");
  reflexivity.
Defined.

(** X7. [get_rule_arn] raises [IndexError] exactly when the bus ARN has
    fewer than four colons, that is fewer than five fields; with four or
    more it returns an ARN. *)
Theorem get_rule_arn_index_error rule_name bus_arn :
  (get_rule_arn rule_name bus_arn = Raise IndexError <-> Py.count ":" bus_arn < 4) /\
  ((exists arn, get_rule_arn rule_name bus_arn = Ok arn) <-> 4 <= Py.count ":" bus_arn).
Proof.
pose proof (length_split ":" bus_arn) as Hlen.
unfold get_rule_arn. cbv zeta.
destruct (Py.split ":" bus_arn !! 3%nat) as [region|] eqn:H3; cbn [rbind].
- destruct (Py.split ":" bus_arn !! 4%nat) as [account|] eqn:H4; cbn [rbind].
  + apply lookup_lt_Some in H4.
    split; split; try done; try lia; [by eauto].
  + apply lookup_ge_None in H4.
    split; split; try done; try lia. by intros [? ?].
- apply lookup_ge_None in H3.
  split; split; try done; try lia. by intros [? ?].
Qed.

(** ** Looking a queue up *)

(** X8. [get_queue_by_name] turns a failed lookup of the URL into the
    answer that there is no queue only for the two not-found codes; any
    other client error is raised again, and in both cases nothing but that
    one request was sent. *)
Theorem get_queue_by_name_translates_not_found name w code :
  w_faults w (length (w_trace w)) (GetQueueUrl name) = Some code ->
  get_queue_by_name name w
  = (if is_not_found code then Ok None else Raise (ClientError code),
     record_call (GetQueueUrl name) w).
Proof.
intros Hf.
unfold get_queue_by_name, try_except, bind at 1, Sqs.get_queue_url, request.
rewrite Hf. cbn [on_client_error]. by destruct (is_not_found code).
Qed.

Lemma get_queue_by_name_translates_not_found_witness :
  get_queue_by_name "prod-orders-rule-dlq"
    (with_faults (fails_at 0 "AccessDenied") standard_world)
  = (Raise (ClientError "AccessDenied"),
     record_call (GetQueueUrl "prod-orders-rule-dlq")
       (with_faults (fails_at 0 "AccessDenied") standard_world)).
Proof.
apply (get_queue_by_name_translates_not_found "prod-orders-rule-dlq"
         (with_faults (fails_at 0 "AccessDenied") standard_world) "AccessDenied").
reflexivity.
Defined.

(** ** Listing the rules, page by page *)

Section ListingMore.

Lemma paginate_rules_trace bus fuel :
forall token items w,
  quiet w ->
  (default 0%nat token <= length (w_rules w))%nat ->
  (length (w_rules w) < fuel + default 0%nat token)%nat ->
  exists w',
    paginate fuel (Events.list_rules bus) token items w
    = (Ok (items ++ concat (drop (default 0%nat token) (w_rules w))), w') /\
    w_trace w' = w_trace w ++ ListRules bus token ::
                 map (fun i => ListRules bus (Some i))
                     (seq (S (default 0%nat token))
                          (length (w_rules w) - S (default 0%nat token))).
Proof.
induction fuel as [|fuel IH]; intros token items w Hquiet Hle Hlt; [lia|].
cbn [paginate]. unfold bind at 1. rewrite list_rules_run.
rewrite Hquiet by lia.
set (w1 := record_call (ListRules bus token) w).
cbn [fst snd].
set (i := default 0%nat token) in *.
destruct (Nat.ltb_spec (S i) (length (w_rules w))) as [Hmore|Hlast].
- destruct (IH (Some (S i)) (items ++ nth i (w_rules w) []) w1)
    as (w' & Hrun & Ht); [|cbn; lia|cbn; lia|].
  { by eapply (quiet_step w w1 [ListRules bus token]). }
  rewrite Hrun. exists w'. cbn [default] in *.
  change (w_rules w1) with (w_rules w) in *.
  rewrite <- app_assoc, <- concat_drop_nth by lia. split; [done|].
  rewrite Ht. cbn [w_trace w1 record_call]. rewrite <- app_assoc. cbn [app].
  do 2 f_equal.
  replace (length (w_rules w) - S i)%nat with (S (length (w_rules w) - S (S i))) by lia.
  reflexivity.
- exists w1. split.
  + assert (Heq : nth i (w_rules w) [] = concat (drop i (w_rules w))).
    { destruct (decide (i < length (w_rules w))%nat) as [Hi|Hi].
      - rewrite concat_drop_nth by done.
        rewrite (drop_ge _ (S i)) by lia. by rewrite app_nil_r.
      - rewrite nth_overflow by lia. by rewrite drop_ge by lia. }
    by rewrite Heq.
  + replace (length (w_rules w) - S i)%nat with 0%nat by lia. reflexivity.
Qed.

End ListingMore.

(** X9. When the service answers, [list_all_rules] returns the rules of
    all pages in order, after exactly one request per page (one request for
    a bus without rules): the first without a token, each further one with
    the token of the page before.  Nothing else is sent or changed. *)
Theorem list_all_rules_fetches_each_page_once bus w :
  quiet w ->
  exists w',
    list_all_rules bus w = (Ok (concat (w_rules w)), w') /\
    w_trace w' = w_trace w ++ page_requests bus (length (w_rules w)) /\
    only_list_rules w w'.
Proof.
intros Hquiet.
destruct (paginate_rules_trace bus (S (length (w_rules w))) None [] w)
  as (w' & Hrun & Ht); [done|cbn; lia|cbn; lia|].
exists w'. cbn [default app] in Hrun, Ht. rewrite drop_0 in Hrun.
split; [done|]. split; [done|].
destruct (list_all_rules_run bus w) as (r & w2 & Hrun2 & Hl & _).
unfold list_all_rules in Hrun2. rewrite Hrun in Hrun2. by injection Hrun2 as _ <-.
Qed.

Lemma list_all_rules_fetches_each_page_once_witness :
  exists w',
    list_all_rules "main" paged_world = (Ok (concat (w_rules paged_world)), w') /\
    w_trace w' = w_trace paged_world ++ page_requests "main" (length (w_rules paged_world)) /\
    only_list_rules paged_world w'.
Proof.
apply (list_all_rules_fetches_each_page_once "main" paged_world).
intros n c Hn. reflexivity.
Defined.

(** ** The check for an attached queue *)

Section ScanMore.

Lemma queue_named_lookups name w w' :
only_lookups w w' -> queue_named name w' <-> queue_named name w.
Proof. intros (_ & _ & Hq & _). unfold queue_named. by rewrite Hq. Qed.

Lemma get_queue_by_name_found_iff name w :
quiet w ->
exists found w',
  get_queue_by_name name w = (Ok found, w') /\ only_lookups w w' /\
  (found <> None <-> queue_named name w).
Proof.
intros Hquiet.
destruct (get_queue_by_name_quiet name w Hquiet) as (found & w' & Hrun & Hl & Hin & Hout).
exists found, w'. split; [done|]. split; [done|]. split; [|done].
destruct found as [[url arn]|]; [|done]. intros _.
destruct (Hout url arn eq_refl) as (q & _ & Hq & Hn & _). by exists q.
Qed.

(** The scan says yes exactly when a target names a queue that exists. *)
Lemma any_dlq_exists_iff targets :
forall w,
  quiet w ->
  (forall t, t ∈ targets -> scannable t) ->
  exists b w',
    any_dlq_exists targets w = (Ok b, w') /\ only_lookups w w' /\
    (b = true <->
     exists t name, t ∈ targets /\ points_at name t /\ queue_named name w).
Proof.
induction targets as [|t targets IH]; intros w Hquiet Hscan.
{ exists false, w. split; [done|]. split; [apply only_lookups_refl|].
  split; [done|]. intros (t & _ & Hin & _). by apply elem_of_nil in Hin. }
cbn [any_dlq_exists]. unfold bind at 1, lift.
assert (Hrest : forall w1, only_lookups w w1 ->
          (forall name, points_at name t -> ~ queue_named name w) ->
          exists b w',
            any_dlq_exists targets w1 = (Ok b, w') /\ only_lookups w w' /\
            (b = true <->
             exists t0 name, t0 ∈ t :: targets /\ points_at name t0 /\ queue_named name w)).
{ intros w1 Hl Hno.
  destruct (IH w1) as (b & w' & Hrun & Hl' & Hb).
  - by eapply quiet_lookups.
  - intros t1 Ht1. apply Hscan. by right.
  - exists b, w'. split; [done|]. split; [by eapply only_lookups_trans|].
    rewrite Hb. split.
    + intros (t0 & name & Hin & Hpt & Hq). exists t0, name.
      split; [by right|]. split; [done|]. by apply (queue_named_lookups name w w1).
    + intros (t0 & name & Hin & Hpt & Hq).
      apply elem_of_cons in Hin as [->|Hin]; [by destruct (Hno name Hpt)|].
      exists t0, name. split; [done|]. split; [done|].
      by apply (queue_named_lookups name w w1). }
destruct (Hscan t) as [Hnone|(arn & Harn)]; [by left| |].
- rewrite Hnone. apply Hrest; [apply only_lookups_refl|].
  intros name (arn & Harn & _). congruence.
- rewrite Harn. cbn [Json.last_segment]. unfold bind at 1 2.
  destruct (get_queue_by_name_found_iff (Py.last_part (Py.split ":" arn)) w Hquiet)
    as (found & w1 & -> & Hl & Hfound).
  destruct found as [q|].
  + exists true, w1. split; [done|]. split; [done|]. split; [|done]. intros _.
    exists t, (Py.last_part (Py.split ":" arn)).
    split; [by left|]. split; [by exists arn|]. by apply Hfound.
  + apply (Hrest w1 Hl). intros name (arn' & Harn' & <-) Hq.
    rewrite Harn in Harn'. injection Harn' as <-. by apply Hfound in Hq.
Qed.

End ScanMore.

(** X10. When the service answers and the rule's targets can be scanned,
    [rule_has_dlq_attached] returns, after lookups only, and its answer is
    [True] exactly when some target of the rule carries a dead-letter ARN
    whose last colon-separated part is the name of a queue that exists: a
    target that points to a queue that is gone does not count. *)
Theorem rule_has_dlq_attached_iff_queue_exists rule bus w :
  quiet w ->
  (forall t, t ∈ rule_targets rule w -> scannable t) ->
  exists b w',
    rule_has_dlq_attached rule bus w = (Ok b, w') /\ only_lookups w w' /\
    (b = true <->
     exists t name, t ∈ rule_targets rule w /\ points_at name t /\ queue_named name w).
Proof.
intros Hquiet Hscan.
unfold rule_has_dlq_attached, try_except, bind.
rewrite list_targets_quiet by done.
set (w1 := record_call (ListTargetsByRule rule bus None) w).
assert (Hl : only_lookups w w1) by by apply only_lookups_record.
destruct (any_dlq_exists_iff (rule_targets rule w) w1) as (b & w' & -> & Hl' & Hb);
  [by eapply quiet_lookups|done|].
exists b, w'. split; [done|]. split; [by eapply only_lookups_trans|].
rewrite Hb. split; intros (t & name & Hin & Hpt & Hq); exists t, name;
  (split; [done|]); (split; [done|]); by apply (queue_named_lookups name w w1).
Qed.

Lemma rule_has_dlq_attached_iff_queue_exists_witness :
  exists b w',
    rule_has_dlq_attached "orders" "main" (busy_world no_faults) = (Ok b, w') /\
    only_lookups (busy_world no_faults) w' /\
    (b = true <->
     exists t name, t ∈ rule_targets "orders" (busy_world no_faults) /\
                    points_at name t /\ queue_named name (busy_world no_faults)).
Proof.
apply (rule_has_dlq_attached_iff_queue_exists "orders" "main" (busy_world no_faults)).
- intros n c Hn. reflexivity.
- intros t Ht. apply list_elem_of_singleton in Ht as ->.
  right. eexists. vm_compute. reflexivity.
Defined.

(** X11. [rule_has_dlq_attached] swallows a failure of the listing of the
    targets: the answer is then [False], as for a rule without a queue. *)
Theorem rule_has_dlq_attached_false_when_listing_fails rule bus w code :
  w_faults w (length (w_trace w)) (ListTargetsByRule rule bus None) = Some code ->
  rule_has_dlq_attached rule bus w
  = (Ok false, record_call (ListTargetsByRule rule bus None) w).
Proof.
intros Hf.
unfold rule_has_dlq_attached, try_except, bind at 1, list_targets.
cbn [paginate]. unfold bind at 1, Events.list_targets_by_rule, request.
by rewrite Hf.
Qed.

Lemma rule_has_dlq_attached_false_when_listing_fails_witness :
  rule_has_dlq_attached "orders" "main" (busy_world (fails_at 0 "ThrottlingException"))
  = (Ok false,
     record_call (ListTargetsByRule "orders" "main" None)
       (busy_world (fails_at 0 "ThrottlingException"))).
Proof.
apply (rule_has_dlq_attached_false_when_listing_fails "orders" "main"
         (busy_world (fails_at 0 "ThrottlingException")) "ThrottlingException").
reflexivity.
Defined.

(** ** More on the policy merger *)

Section PolicyMore.

Lemma assoc_assoc_set_ne k k' v fields :
k' <> k -> Json.assoc k' (Json.assoc_set k v fields) = Json.assoc k' fields.
Proof.
intros Hne. induction fields as [|[k0 v0] fields IH]; cbn [Json.assoc_set Json.assoc].
- destruct (String.eqb_spec k k'); [congruence|done].
- destruct (String.eqb_spec k0 k) as [->|Hk]; cbn [Json.assoc].
  + destruct (String.eqb_spec k k'); [congruence|done].
  + by rewrite IH.
Qed.

Lemma assoc_set_keys k v v0 fields :
Json.assoc k fields = Some v0 ->
map fst (Json.assoc_set k v fields) = map fst fields.
Proof.
induction fields as [|[k1 v1] fields IH]; cbn [Json.assoc_set Json.assoc]; [done|].
destruct (String.eqb_spec k1 k) as [->|Hk]; cbn [map fst]; [done|].
intros H. by rewrite IH.
Qed.

Lemma statement_exists_app rule_arn before after :
statement_exists rule_arn before = Ok false ->
statement_exists rule_arn (before ++ after) = statement_exists rule_arn after.
Proof.
induction before as [|st before IH]; cbn [statement_exists app]; [done|].
unfold rbind. destruct (statement_matches rule_arn st) as [[|]|]; try done.
Qed.

End PolicyMore.

(** X12. When the stored policy has a list of statements none of which
    carries the grant, [update_queue_policy] returns [True] after one read
    and one write, and the policy written is the stored one with the grant
    appended to its statements: the statements it had stay, in their order,
    and so do all other keys of the policy and their order. *)
Theorem update_queue_policy_appends_grant
    queue_url queue_arn rule_arn w q fields items :
  quiet w ->
  List.find (Sqs.by_url queue_url) (w_queues w) = Some q ->
  q_policy q = Some (PolicyJson (JObj fields)) ->
  Json.assoc "Statement" fields = Some (JArr items) ->
  statement_exists rule_arn items = Ok false ->
  exists fields',
    update_queue_policy queue_url queue_arn rule_arn w
    = (Ok true,
       set_queues
         (map (fun q => if Sqs.by_url queue_url q
                        then Sqs.with_policy (JObj fields') q else q)
              (w_queues w))
         (record_call (SetQueueAttributes queue_url (JObj fields'))
            (record_call (GetQueueAttributes queue_url ["Policy"]) w))) /\
    Json.assoc "Statement" fields'
    = Some (JArr (items ++ [desired_statement queue_arn rule_arn])) /\
    (forall k, k <> "Statement" -> Json.assoc k fields' = Json.assoc k fields) /\
    map fst fields' = map fst fields.
Proof.
intros Hquiet Hfind Hpol Hst Hex.
exists (Json.assoc_set "Statement"
          (JArr (items ++ [desired_statement queue_arn rule_arn])) fields).
split; [|split; [apply assoc_assoc_set|split]].
- unfold update_queue_policy, try_except, bind at 1.
  unfold read_policy, try_except, bind, Sqs.get_queue_attributes, request.
  rewrite Hquiet by lia. cbn [w_queues record_call]. rewrite Hfind. cbn.
  rewrite Hpol. cbn. rewrite Hst. cbn. rewrite Hex. cbn.
  unfold Sqs.set_queue_attributes, request. cbn [w_trace w_faults record_call].
  rewrite Hquiet by (rewrite length_app; lia).
  cbn [w_queues record_call]. rewrite Hfind. reflexivity.
- intros k Hk. by apply assoc_assoc_set_ne.
- by eapply assoc_set_keys.
Qed.

Lemma update_queue_policy_appends_grant_witness :
  exists fields',
    update_queue_policy (Sqs.url_base +:+ orders_queue_name)
      (Sqs.arn_base +:+ orders_queue_name) orders_rule_arn billing_world
    = (Ok true,
       set_queues
         (map (fun q => if Sqs.by_url (Sqs.url_base +:+ orders_queue_name) q
                        then Sqs.with_policy (JObj fields') q else q)
              (w_queues billing_world))
         (record_call (SetQueueAttributes (Sqs.url_base +:+ orders_queue_name) (JObj fields'))
            (record_call (GetQueueAttributes (Sqs.url_base +:+ orders_queue_name) ["Policy"])
               billing_world))) /\
    Json.assoc "Statement" fields'
    = Some (JArr ([desired_statement (Sqs.arn_base +:+ orders_queue_name)
                     "arn:aws:events:us-east-1:123456789012:rule/main/billing"]
                  ++ [desired_statement (Sqs.arn_base +:+ orders_queue_name) orders_rule_arn])) /\
    (forall k, k <> "Statement" ->
       Json.assoc k fields'
       = Json.assoc k [("Version", JStr "2012-10-17"); ("Id", JStr "queue-policy");
                       ("Statement",
                        JArr [desired_statement (Sqs.arn_base +:+ orders_queue_name)
                                "arn:aws:events:us-east-1:123456789012:rule/main/billing"])]) /\
    map fst fields' = ["Version"; "Id"; "Statement"].
Proof.
apply (update_queue_policy_appends_grant (Sqs.url_base +:+ orders_queue_name)
         (Sqs.arn_base +:+ orders_queue_name) orders_rule_arn billing_world
         (queue_with_policy orders_queue_name (Some (PolicyJson billing_policy)))).
- intros n c Hn. reflexivity.
- vm_compute. reflexivity.
- reflexivity.
- reflexivity.
- vm_compute. reflexivity.
Defined.

(** X13. When the read of the stored policy fails with a client error,
    [update_queue_policy] goes on from an empty policy: if the write is
    answered, the call returns [True] and every queue behind the URL ends up
    with a policy that holds the new grant alone, whatever its policy
    was before. *)
Theorem failed_policy_read_replaces_policy queue_url queue_arn rule_arn w code q :
  w_faults w (length (w_trace w)) (GetQueueAttributes queue_url ["Policy"]) = Some code ->
  w_faults w (S (length (w_trace w)))
    (SetQueueAttributes queue_url (lone_grant_policy queue_arn rule_arn)) = None ->
  List.find (Sqs.by_url queue_url) (w_queues w) = Some q ->
  exists w',
    update_queue_policy queue_url queue_arn rule_arn w = (Ok true, w') /\
    length (w_queues w') = length (w_queues w) /\
    forall q', q' ∈ w_queues w' -> q_url q' = queue_url ->
               q_policy q' = Some (PolicyJson (lone_grant_policy queue_arn rule_arn)).
Proof.
intros Hread Hwrite Hfind.
unfold update_queue_policy, try_except, bind at 1.
unfold read_policy, try_except, bind, Sqs.get_queue_attributes, request.
rewrite Hread. cbn.
unfold Sqs.set_queue_attributes, request. cbn [w_trace w_faults record_call].
rewrite length_app. cbn [length]. rewrite Nat.add_1_r.
fold (lone_grant_policy queue_arn rule_arn). rewrite Hwrite.
cbn [w_queues record_call]. rewrite Hfind.
eexists. split; [reflexivity|]. cbn [w_queues set_queues]. split; [by rewrite length_map|].
intros q' (q0 & -> & Hin)%list_elem_of_fmap Hurl.
destruct (Sqs.by_url queue_url q0) eqn:Hb; [done|].
unfold Sqs.by_url in Hb. rewrite Hurl, String.eqb_refl in Hb. done.
Qed.

Lemma failed_policy_read_replaces_policy_witness :
  exists w',
    update_queue_policy (Sqs.url_base +:+ orders_queue_name)
      (Sqs.arn_base +:+ orders_queue_name) orders_rule_arn
      (with_faults (fails_at 0 "ThrottlingException") billing_world) = (Ok true, w') /\
    length (w_queues w') = length (w_queues (with_faults (fails_at 0 "ThrottlingException") billing_world)) /\
    forall q', q' ∈ w_queues w' -> q_url q' = Sqs.url_base +:+ orders_queue_name ->
               q_policy q'
               = Some (PolicyJson (lone_grant_policy (Sqs.arn_base +:+ orders_queue_name)
                                     orders_rule_arn)).
Proof.
apply (failed_policy_read_replaces_policy (Sqs.url_base +:+ orders_queue_name)
         (Sqs.arn_base +:+ orders_queue_name) orders_rule_arn
         (with_faults (fails_at 0 "ThrottlingException") billing_world)
         "ThrottlingException"
         (queue_with_policy orders_queue_name (Some (PolicyJson billing_policy))));
  vm_compute; reflexivity.
Defined.

(** X14. A stored statement whose [Principal] is a text, such as the
    wildcard, aborts the merge: when the scan reaches it without having found the
    grant, [update_queue_policy] raises [AttributeError], which no handler
    catches, and nothing is written. *)
Theorem text_principal_aborts_policy_merge
    queue_url queue_arn rule_arn w q fields before st_fields principal after :
  w_faults w (length (w_trace w)) (GetQueueAttributes queue_url ["Policy"]) = None ->
  List.find (Sqs.by_url queue_url) (w_queues w) = Some q ->
  q_policy q = Some (PolicyJson (JObj fields)) ->
  Json.assoc "Statement" fields = Some (JArr (before ++ JObj st_fields :: after)) ->
  statement_exists rule_arn before = Ok false ->
  Json.assoc "Principal" st_fields = Some (JStr principal) ->
  update_queue_policy queue_url queue_arn rule_arn w
  = (Raise AttributeError, record_call (GetQueueAttributes queue_url ["Policy"]) w).
Proof.
intros Hfault Hfind Hpol Hst Hbefore Hprincipal.
unfold update_queue_policy, try_except, bind at 1.
unfold read_policy, try_except, bind, Sqs.get_queue_attributes, request.
rewrite Hfault. cbn [w_queues record_call]. rewrite Hfind. cbn.
rewrite Hpol. cbn. rewrite Hst. cbn.
rewrite statement_exists_app by done. cbn [statement_exists].
unfold statement_matches at 1. cbn [Json.get_default]. rewrite Hprincipal.
reflexivity.
Qed.

Lemma text_principal_aborts_policy_merge_witness :
  update_queue_policy (Sqs.url_base +:+ orders_queue_name)
    (Sqs.arn_base +:+ orders_queue_name) orders_rule_arn open_world
  = (Raise AttributeError,
     record_call (GetQueueAttributes (Sqs.url_base +:+ orders_queue_name) ["Policy"])
       open_world).
Proof.
apply (text_principal_aborts_policy_merge (Sqs.url_base +:+ orders_queue_name)
         (Sqs.arn_base +:+ orders_queue_name) orders_rule_arn open_world
         (queue_with_policy orders_queue_name (Some (PolicyJson open_policy)))
         [("Version", JStr "2012-10-17"); ("Statement", JArr [open_statement])]
         []
         [("Sid", JStr "Open"); ("Effect", JStr "Allow"); ("Principal", JStr "*");
          ("Action", JStr "sqs:SendMessage");
          ("Resource", JStr (Sqs.arn_base +:+ orders_queue_name))]
         "*" []);
  vm_compute; reflexivity.
Defined.

(** ** More on attaching *)

Section AttachMore.

(** What the attach loop republishes for a target. *)
Lemma targets_to_attach_filter queue_arn targets :
forall to_update,
  targets_to_attach queue_arn targets = Ok to_update ->
  Forall2 (fun t u => exists clone,
             clone_target t = Ok clone /\
             u = <["DeadLetterConfig" := JObj [("Arn", JStr queue_arn)]]> clone)
          (List.filter needs_dlq targets) to_update.
Proof.
induction targets as [|t targets IH]; intros to_update;
  cbn [targets_to_attach List.filter].
{ intros [= <-]. constructor. }
unfold rbind, needs_dlq.
destruct (not_attachable t) as [[|]|]; [by apply IH| |done].
destruct (dead_letter_arn t) as [[a|]|]; [by apply IH| |done].
destruct (clone_target t) as [clone|] eqn:Hc; [|done].
destruct (targets_to_attach queue_arn targets) as [l|]; [|done].
intros [= <-]. constructor; [by exists clone|by apply IH].
Qed.

Lemma targets_to_attach_none queue_arn targets :
(forall t, t ∈ targets -> exists skip, not_attachable t = Ok skip /\
   (skip = false -> exists a, dead_letter_arn t = Ok (Some a))) ->
targets_to_attach queue_arn targets = Ok [].
Proof.
induction targets as [|t targets IH]; intros H; cbn [targets_to_attach]; [done|].
destruct (H t) as (skip & -> & Hd); [by left|]. cbn [rbind].
assert (Hrest : targets_to_attach queue_arn targets = Ok []).
{ apply IH. intros t0 Ht0. apply H. by right. }
destruct skip; [done|]. destruct (Hd eq_refl) as (a & ->). done.
Qed.

Lemma targets_to_attach_cases queue_arn targets :
forall to_update t,
  targets_to_attach queue_arn targets = Ok to_update -> t ∈ targets ->
  (exists skip, not_attachable t = Ok skip /\
     (skip = false -> exists a, dead_letter_arn t = Ok (Some a))) \/
  (exists clone, clone_target t = Ok clone /\
     <["DeadLetterConfig" := JObj [("Arn", JStr queue_arn)]]> clone ∈ to_update).
Proof.
induction targets as [|t0 targets IH]; intros to_update t;
  cbn [targets_to_attach]; [intros _ Hin; by apply elem_of_nil in Hin|].
unfold rbind.
destruct (not_attachable t0) as [[|]|] eqn:Hn; [| |done].
- intros Hl [ -> | Hin ]%elem_of_cons; [|by eauto].
  left. exists true. by split.
- destruct (dead_letter_arn t0) as [[a|]|] eqn:Hd; [| |done].
  + intros Hl [ -> | Hin ]%elem_of_cons; [|by eauto].
    left. exists false. split; [done|]. by eauto.
  + destruct (clone_target t0) as [clone|] eqn:Hc; [|done].
    destruct (targets_to_attach queue_arn targets) as [l|] eqn:Hl; [|done].
    intros [= <-] [ -> | Hin ]%elem_of_cons.
    * right. exists clone. split; [done|]. by left.
    * destruct (IH l t eq_refl Hin) as [?|(c & ? & ?)]; [by left|].
      right. exists c. split; [done|]. by right.
Qed.

Lemma targets_to_attach_source queue_arn targets :
forall to_update u,
  targets_to_attach queue_arn targets = Ok to_update -> u ∈ to_update ->
  exists t clone,
    t ∈ targets /\ not_attachable t = Ok false /\
    clone_target t = Ok clone /\
    u = <["DeadLetterConfig" := JObj [("Arn", JStr queue_arn)]]> clone.
Proof.
induction targets as [|t targets IH]; intros to_update u; cbn [targets_to_attach].
{ intros [= <-] Hu. by apply elem_of_nil in Hu. }
unfold rbind.
assert (Hrec : forall l, targets_to_attach queue_arn targets = Ok l ->
          u ∈ l -> exists t0 clone, t0 ∈ t :: targets /\
            not_attachable t0 = Ok false /\ clone_target t0 = Ok clone /\
            u = <["DeadLetterConfig" := JObj [("Arn", JStr queue_arn)]]> clone).
{ intros l Hl Hu. destruct (IH l u Hl Hu) as (t0 & c & ? & ? & ? & ?).
  exists t0, c. split; [by right|done]. }
destruct (not_attachable t) as [[|]|] eqn:Hn; [by eauto| |done].
destruct (dead_letter_arn t) as [[a|]|] eqn:Hd; [by eauto| |done].
destruct (clone_target t) as [clone|] eqn:Hc; [|done].
destruct (targets_to_attach queue_arn targets) as [l|] eqn:Hl; [|done].
intros [= <-] Hu. apply elem_of_cons in Hu as [ -> | Hu ]; [|by eauto].
exists t, clone. split; [by left|done].
Qed.

(** A target that [put_targets] leaves in place has the id of none of
  the targets published. *)
Lemma upsert_survivor ts u t :
t ∈ Events.upsert_target ts u -> t = u \/ (t ∈ ts /\ Events.same_id u t = false).
Proof.
unfold Events.upsert_target. destruct (existsb _ _) eqn:He.
- intros (t0 & -> & Hin)%list_elem_of_fmap.
  destruct (Events.same_id u t0) eqn:Hs; [by left|by right].
- intros [ Hin | ->%list_elem_of_singleton ]%elem_of_app; [|by left].
  right. split; [done|].
  destruct (Events.same_id u t) eqn:Hs; [|done].
  assert (existsb (Events.same_id u) ts = true); [|congruence].
  apply existsb_exists. exists t. split; [by apply list_elem_of_In|done].
Qed.

Lemma upsert_all_survivor us :
forall ts t,
  t ∈ foldl Events.upsert_target ts us ->
  t ∈ us \/ (t ∈ ts /\ forall u, u ∈ us -> Events.same_id u t = false).
Proof.
induction us as [|u us IH]; intros ts t; cbn [foldl].
{ intros Hin. right. split; [done|]. intros u Hu. by apply elem_of_nil in Hu. }
intros [ Hin | [ [ -> | [Hin Hs] ]%upsert_survivor Hall ] ]%IH.
- left. by right.
- left. by left.
- right. split; [done|]. intros u' [ -> | Hu' ]%elem_of_cons; [done|by apply Hall].
Qed.

Lemma not_attachable_arn (t u : Target) :
u !! "Arn" = t !! "Arn" -> not_attachable u = not_attachable t.
Proof. unfold not_attachable. by intros ->. Qed.

Lemma attached_clone_id (t clone : Target) queue_arn :
clone_target t = Ok clone ->
Events.same_id (<["DeadLetterConfig" := JObj [("Arn", JStr queue_arn)]]> clone) t = true.
Proof.
intros Hc. unfold Events.same_id, Events.target_id.
rewrite lookup_insert_ne by done.
rewrite (clone_target_lookup _ _ "Id" Hc).
rewrite (bool_decide_eq_true_2 ("Id" ∈ kept_keys)) by apply list_elem_of_here.
by apply bool_decide_eq_true_2.
Qed.

Lemma attached_clone_arn (t clone : Target) queue_arn :
clone_target t = Ok clone ->
(<["DeadLetterConfig" := JObj [("Arn", JStr queue_arn)]]> clone) !! "Arn" = t !! "Arn".
Proof.
intros Hc. rewrite lookup_insert_ne by done.
rewrite (clone_target_lookup _ _ "Arn" Hc).
by rewrite bool_decide_eq_true_2 by apply list_elem_of_further, list_elem_of_here.
Qed.

End AttachMore.

(** X15. The list [attach_dlq_to_targets] publishes has one entry for
    each listed target whose ARN is usable (not missing or empty, not
    [arn:aws:events:::], no [:archive/] in it) and that has no dead-letter
    ARN yet, in the order of the listing: the rewritten copy of that target
    with the queue attached.  Targets of the other kinds are left out. *)
Theorem attach_publishes_targets_that_need_dlq queue_arn targets to_update :
  targets_to_attach queue_arn targets = Ok to_update ->
  Forall2 (fun t u => exists clone,
             clone_target t = Ok clone /\
             u = <["DeadLetterConfig" := JObj [("Arn", JStr queue_arn)]]> clone)
          (List.filter needs_dlq targets) to_update /\
  length to_update = length (List.filter needs_dlq targets).
Proof.
intros H. pose proof (targets_to_attach_filter _ _ _ H) as HF.
split; [done|]. symmetry. by eapply Forall2_length.
Qed.

Lemma attach_publishes_targets_that_need_dlq_witness :
  Forall2 (fun t u => exists clone,
             clone_target t = Ok clone /\
             u = <["DeadLetterConfig" := JObj [("Arn", JStr sample_dlq_arn)]]> clone)
          (List.filter needs_dlq [pipeline_target_with_dlq; pipeline_target])
          [pipeline_target_attached] /\
  length [pipeline_target_attached]
  = length (List.filter needs_dlq [pipeline_target_with_dlq; pipeline_target]).
Proof.
apply (attach_publishes_targets_that_need_dlq sample_dlq_arn
         [pipeline_target_with_dlq; pipeline_target] [pipeline_target_attached]).
vm_compute. reflexivity.
Defined.

(** X16. Attaching is idempotent.  When the service answers and a call
    of [attach_dlq_to_targets] with a non-empty queue ARN reports updated
    targets, the same call right after finds no target to update: it
    returns 0 and sends nothing but the listing of the targets. *)
Theorem second_attach_updates_nothing rule bus queue_arn w n w' :
  quiet w ->
  Py.truthy queue_arn = true ->
  attach_dlq_to_targets rule bus queue_arn w = (Ok n, w') ->
  (0 < n)%nat ->
  attach_dlq_to_targets rule bus queue_arn w'
  = (Ok 0%nat, record_call (ListTargetsByRule rule bus None) w').
Proof.
intros Hquiet Harn Hrun Hn.
assert (Hq' : quiet w').
{ apply (quiet_provisions rule w w'); [|done].
  pose proof (prov_attach_dlq_to_targets rule bus queue_arn w) as Hp.
  by rewrite Hrun in Hp. }
destruct (attach_dlq_to_targets_updated rule bus queue_arn w n w' Hquiet Hrun Hn)
  as (to_update & Hl & _ & Hts & _).
unfold attach_dlq_to_targets, try_except, bind at 1.
rewrite list_targets_quiet by done.
unfold bind at 1, lift.
rewrite (targets_to_attach_none queue_arn (rule_targets rule w')); [done|].
intros t' Ht'. rewrite Hts in Ht'.
apply upsert_all_survivor in Ht' as [Hnew|[Hold Hids]].
- destruct (targets_to_attach_source _ _ _ _ Hl Hnew) as (t & clone & Hin & Hna & Hc & ->).
  exists false. rewrite (not_attachable_arn t) by by apply attached_clone_arn.
  split; [done|]. intros _. exists (JStr queue_arn). by apply dead_letter_arn_attached.
- destruct (targets_to_attach_cases _ _ _ _ Hl Hold) as [?|(clone & Hc & Hin)]; [done|].
  pose proof (attached_clone_id t' clone queue_arn Hc) as Hsame.
  rewrite (Hids _ Hin) in Hsame. done.
Qed.

Lemma second_attach_updates_nothing_witness :
  attach_dlq_to_targets "order-events" "main" sample_dlq_arn
    (snd (attach_dlq_to_targets "order-events" "main" sample_dlq_arn orders_world))
  = (Ok 0%nat,
     record_call (ListTargetsByRule "order-events" "main" None)
       (snd (attach_dlq_to_targets "order-events" "main" sample_dlq_arn orders_world))).
Proof.
apply (second_attach_updates_nothing "order-events" "main" sample_dlq_arn
         orders_world 1%nat).
- intros n c Hn. reflexivity.
- reflexivity.
- vm_compute. reflexivity.
- lia.
Defined.

(** ** The counters of a pass *)

Section Accounting.

Lemma reconcile_rules_tally bus arn tags settings dry_run env_prefix skip_rules rules :
forall t w t' w',
  reconcile_rules bus arn tags settings dry_run env_prefix skip_rules rules t w
  = (Ok t', w') ->
  exists new,
    t_operations t' = t_operations t ++ new /\
    map op_rule_name new = map Name (List.filter (eligible skip_rules) rules) /\
    t_created t' = (t_created t + length (List.filter queue_created new))%nat /\
    t_policies t' = (t_policies t + length (List.filter policy_updated new))%nat /\
    t_attached t' = (t_attached t + list_sum (map targets_updated new))%nat /\
    (t_skipped t' + length new = t_skipped t + length rules)%nat.
Proof.
induction rules as [|r rules IH]; intros t w t' w'; cbn [reconcile_rules List.filter].
{ intros [= <- <-]. exists []. rewrite app_nil_r. cbn. repeat split; lia. }
unfold eligible at 1.
destruct (is_aws_managed r); cbn [negb andb].
{ intros Hrun. destruct (IH _ _ _ _ Hrun) as (new & H1 & H2 & H3 & H4 & H5 & H6).
  exists new. cbn in *. repeat split; try done. lia. }
destruct (in_list (Name r) skip_rules); cbn [negb].
{ intros Hrun. destruct (IH _ _ _ _ Hrun) as (new & H1 & H2 & H3 & H4 & H5 & H6).
  exists new. cbn in *. repeat split; try done. lia. }
unfold bind at 1.
destruct (ensure_queue_and_policy _ _ _ _ _ _ _ w) as [[op|e] w1] eqn:Hop; [|done].
destruct (ensure_queue_and_policy_names _ _ _ _ _ _ _ _ _ _ Hop) as [Hname _].
intros Hrun. destruct (IH _ _ _ _ Hrun) as (new & H1 & H2 & H3 & H4 & H5 & H6).
exists (op :: new). cbn [count_operation t_operations t_created t_policies
                         t_attached t_skipped] in *.
split; [by rewrite H1, <- app_assoc|].
split; [cbn [map]; by rewrite Hname, H2|].
cbn [List.filter map length].
change (list_sum (targets_updated op :: map targets_updated new))
  with (targets_updated op + list_sum (map targets_updated new))%nat.
split; [rewrite H3; destruct (queue_created op); cbn [length]; lia|].
split; [rewrite H4; destruct (policy_updated op); cbn [length]; lia|].
split; [rewrite H5; destruct (Nat.ltb_spec 0 (targets_updated op)); lia|].
lia.
Qed.

End Accounting.

(** X17. The summary of a pass that returns, dry run or not, adds up:
    there is one operation per rule that is neither managed nor on the skip
    list, in the order of the listing; [queues_created] and
    [policies_updated] count the operations with that flag,
    [targets_attached] is the sum of their [targets_updated];
    [rules_total] is the number of rules listed, and every rule is either
    skipped or has its operation. *)
Theorem summary_counters_add_up
    bus arn tags settings dry_run env_prefix skip_rules w s w' :
  reconcile_bus bus arn tags settings dry_run env_prefix skip_rules w = (Ok s, w') ->
  map op_rule_name (operations s)
  = map Name (List.filter (eligible skip_rules) (concat (w_rules w))) /\
  queues_created s = length (List.filter queue_created (operations s)) /\
  policies_updated s = length (List.filter policy_updated (operations s)) /\
  targets_attached s = list_sum (map targets_updated (operations s)) /\
  rules_total s = length (concat (w_rules w)) /\
  (rules_skipped s + length (operations s) = rules_total s)%nat.
Proof.
unfold reconcile_bus, bind at 1.
destruct (list_all_rules_run bus w) as (r & wa & -> & _ & [->|[code ->]] & _); [|done].
unfold bind at 1.
destruct (reconcile_rules _ _ _ _ _ _ _ _ _ wa) as [[t|e] wb] eqn:Hloop; [|done].
unfold bind at 1.
destruct (cleanup_orphaned_dlqs _ _ wb) as [[oc|e] w2]; [|done].
cbn [ret]. intros [= <- <-]. cbn [operations queues_created policies_updated
  targets_attached rules_total rules_skipped].
destruct (reconcile_rules_tally _ _ _ _ _ _ _ _ _ _ _ _ Hloop)
  as (new & H1 & H2 & H3 & H4 & H5 & H6).
cbn [t_operations t_created t_policies t_attached t_skipped app] in *.
rewrite H1. repeat split; try done; lia.
Qed.

Lemma summary_counters_add_up_witness :
  exists s w',
    reconcile_bus "main" main_bus_arn ∅ sample_settings false "prod" ["legacy"] paged_world
    = (Ok s, w') /\
    map op_rule_name (operations s)
    = map Name (List.filter (eligible ["legacy"]) (concat (w_rules paged_world))) /\
    queues_created s = length (List.filter queue_created (operations s)) /\
    policies_updated s = length (List.filter policy_updated (operations s)) /\
    targets_attached s = list_sum (map targets_updated (operations s)) /\
    rules_total s = length (concat (w_rules paged_world)) /\
    (rules_skipped s + length (operations s) = rules_total s)%nat.
Proof.
eexists _, _. split; [vm_compute; reflexivity|].
eapply (summary_counters_add_up "main" main_bus_arn ∅ sample_settings false "prod"
          ["legacy"] paged_world).
vm_compute. reflexivity.
Defined.

(** ** The teardown in a dry run *)

Section TeardownDry.

Lemma get_queue_by_name_some name w url arn w1 :
get_queue_by_name name w = (Ok (Some (url, arn)), w1) ->
only_lookups w w1 /\
exists q q', List.find (Sqs.by_name name) (w_queues w) = Some q /\ q_url q = url /\
             List.find (Sqs.by_url url) (w_queues w) = Some q' /\ q_arn q' = arn.
Proof.
unfold get_queue_by_name, try_except, bind at 1, Sqs.get_queue_url, request.
destruct (w_faults w _ _) as [code|].
{ cbn. by destruct (is_not_found code). }
cbn [w_queues record_call].
destruct (List.find (Sqs.by_name name) (w_queues w)) as [q|] eqn:Hq; [|done].
unfold bind at 1, Sqs.get_queue_attributes, request.
destruct (w_faults _ _ _) as [code|].
{ cbn. by destruct (is_not_found code). }
cbn [w_queues record_call].
destruct (List.find (Sqs.by_url (q_url q)) (w_queues w)) as [q'|] eqn:Hq'; [|done].
cbn. intros [= <- <- <-]. split.
- eapply only_lookups_trans; by apply only_lookups_record.
- by exists q, q'.
Qed.

(** The rule loop of a dry run: lookups only, the count untouched, one
  entry per queue found. *)
Lemma cleanup_rules_dry bus force env_prefix skip_rules rules :
forall d w,
  exists r w',
    cleanup_rules bus true force env_prefix skip_rules rules d w = (r, w') /\
    only_lookups w w' /\
    match r with
    | Ok d' =>
        d_count d' = d_count d /\
        exists new,
          d_queues d' = d_queues d ++ new /\
          forall x, x ∈ new ->
            dl_action x = "would_delete" /\
            dl_dlq_name x = generate_dlq_name (dl_rule_name x) env_prefix /\
            queue_named (dl_dlq_name x) w
    | Raise e => exists code, e = ClientError code
    end.
Proof.
induction rules as [|rule rules IH]; intros d w; cbn [cleanup_rules].
{ exists (Ok d), w. split; [done|]. split; [apply only_lookups_refl|].
  split; [done|]. exists []. rewrite app_nil_r. split; [done|].
  intros x Hx. by apply elem_of_nil in Hx. }
destruct (is_aws_managed rule); [apply IH|].
destruct (in_list (Name rule) skip_rules); [apply IH|].
unfold bind at 1. unfold bind at 1.
destruct (get_queue_by_name_run (generate_dlq_name (Name rule) env_prefix) w)
  as (r1 & w1 & Hrun & Hl & Hr1).
rewrite Hrun.
destruct Hr1 as [[found ->]|[code ->]]; [|exists (Raise (ClientError code)), w1; by eauto].
destruct (url_truthy found) eqn:Hfound; cbn [ret].
- set (d1 := {| d_queues := _; d_count := _ |}).
  destruct (IH d1 w1) as (r & w' & -> & Hl' & Hr).
  exists r, w'. split; [done|]. split; [by eapply only_lookups_trans|].
  destruct r as [d'|e]; [|done].
  destruct Hr as (Hc & new & Hq & Hnew). split; [done|].
  exists (would_delete env_prefix rule :: new).
  split; [rewrite Hq; subst d1; cbn; by rewrite <- app_assoc|].
  intros x [ -> | Hx ]%elem_of_cons.
  + split; [done|]. split; [done|]. cbn.
    destruct found as [[url arn]|]; [|done].
    apply get_queue_by_name_some in Hrun as (_ & q & q' & Hq0 & _).
    apply queue_named_find. by exists q.
  + destruct (Hnew x Hx) as (? & ? & ?). split; [done|]. split; [done|].
    by apply (queue_named_lookups _ w w1).
- destruct (IH d w1) as (r & w' & -> & Hl' & Hr).
  exists r, w'. split; [done|]. split; [by eapply only_lookups_trans|].
  destruct r as [d'|e]; [|done].
  destruct Hr as (Hc & new & Hq & Hnew). split; [done|].
  exists new. split; [done|]. intros x Hx.
  destruct (Hnew x Hx) as (? & ? & ?). split; [done|]. split; [done|].
  by apply (queue_named_lookups _ w w1).
Qed.

Lemma get_queue_by_name_has_queue name w :
quiet w ->
exists found w',
  get_queue_by_name name w = (Ok found, w') /\ only_lookups w w' /\
  url_truthy found = has_queue name w.
Proof.
intros Hquiet. unfold has_queue.
destruct (List.find (Sqs.by_name name) (w_queues w)) as [q|] eqn:Hf.
- pose proof Hf as Hq. apply find_some in Hq as [Hin Hn].
  apply list_elem_of_In in Hin.
  destruct (find_by_url_of_elem q _ Hin) as (q' & Hf' & Hin' & Hu').
  rewrite (get_queue_by_name_found name w q q'); try done; try (apply Hquiet; lia).
  eexists _, _. split; [reflexivity|]. split; [|done].
  eapply only_lookups_trans; by apply only_lookups_record.
- rewrite get_queue_by_name_absent; try done; try (apply Hquiet; lia).
  eexists _, _. split; [reflexivity|]. split; [by apply only_lookups_record|done].
Qed.

Lemma has_queue_lookups name w w' :
only_lookups w w' -> has_queue name w' = has_queue name w.
Proof. intros (_ & _ & Hq & _). unfold has_queue. by rewrite Hq. Qed.

Lemma cleanup_rules_dry_quiet bus force env_prefix skip_rules rules :
forall d w,
  quiet w ->
  exists d' w',
    cleanup_rules bus true force env_prefix skip_rules rules d w = (Ok d', w') /\
    d_count d' = d_count d /\
    d_queues d' =
      d_queues d ++
      map (would_delete env_prefix)
          (List.filter (fun r => has_queue (generate_dlq_name (Name r) env_prefix) w)
                       (List.filter (eligible skip_rules) rules)).
Proof.
induction rules as [|rule rules IH]; intros d w Hquiet;
  cbn [cleanup_rules List.filter].
{ exists d, w. by rewrite app_nil_r. }
unfold eligible at 1.
destruct (is_aws_managed rule); cbn [negb andb]; [by apply IH|].
destruct (in_list (Name rule) skip_rules); cbn [negb]; [by apply IH|].
unfold bind at 1. unfold bind at 1.
destruct (get_queue_by_name_has_queue (generate_dlq_name (Name rule) env_prefix) w Hquiet)
  as (found & w1 & -> & Hl & Hfound).
assert (Hq1 : quiet w1) by by eapply quiet_lookups.
assert (Hsame : List.filter (fun r => has_queue (generate_dlq_name (Name r) env_prefix) w1)
                  (List.filter (eligible skip_rules) rules)
                = List.filter (fun r => has_queue (generate_dlq_name (Name r) env_prefix) w)
                  (List.filter (eligible skip_rules) rules)).
{ apply List.filter_ext. intros r. by apply has_queue_lookups. }
cbn [List.filter]. rewrite <- Hfound.
destruct (url_truthy found); cbn [ret].
- set (d1 := {| d_queues := _; d_count := _ |}).
  destruct (IH d1 w1 Hq1) as (d' & w' & -> & Hc & Hq).
  exists d', w'. split; [done|]. split; [done|].
  rewrite Hq, Hsame. subst d1. cbn. by rewrite <- app_assoc.
- destruct (IH d w1 Hq1) as (d' & w' & -> & Hc & Hq).
  exists d', w'. split; [done|]. split; [done|]. by rewrite Hq, Hsame.
Qed.

End TeardownDry.

(** X18. A dry run of the teardown only looks up, whatever the service
    answers: it changes no queue and no target, and sends only requests
    that read.  When it returns, its count of deletions is 0 and every entry
    of its log has the action [would_delete], the queue name derived from
    its rule name, and a queue of that name exists; otherwise it ends with
    a client error. *)
Theorem teardown_dry_run_only_looks_up bus force env_prefix skip_rules w :
  exists r w',
    cleanup_all_dlqs bus true force env_prefix skip_rules w = (r, w') /\
    only_lookups w w' /\
    match r with
    | Ok td =>
        td_deleted_count td = 0%nat /\
        forall x, x ∈ td_deleted_queues td ->
          dl_action x = "would_delete" /\
          dl_dlq_name x = generate_dlq_name (dl_rule_name x) env_prefix /\
          queue_named (dl_dlq_name x) w
    | Raise e => exists code, e = ClientError code
    end.
Proof.
unfold cleanup_all_dlqs, bind at 1.
destruct (list_all_rules_run bus w) as (r0 & wa & -> & Hl%only_list_rules_lookups & Hr0 & _).
destruct Hr0 as [->|[code ->]]; [|exists (Raise (ClientError code)), wa; by eauto].
unfold bind at 1.
destruct (cleanup_rules_dry bus force env_prefix skip_rules (concat (w_rules w))
            {| d_queues := []; d_count := 0 |} wa) as (r & w' & -> & Hl' & Hr).
destruct r as [d'|e]; cbn [ret].
- eexists _, _. split; [reflexivity|]. split; [by eapply only_lookups_trans|].
  cbn [td_deleted_count td_deleted_queues].
  destruct Hr as (Hc & new & Hq & Hnew). split; [done|].
  intros x Hx. rewrite Hq in Hx. cbn in Hx.
  destruct (Hnew x Hx) as (? & ? & ?). split; [done|]. split; [done|].
  by apply (queue_named_lookups _ w wa).
- eexists _, _. split; [reflexivity|]. split; [by eapply only_lookups_trans|done].
Qed.

(** X19. When the service answers, a dry run of the teardown returns,
    and its log has one [would_delete] entry for each listed rule that is
    neither managed nor on the skip list and whose derived queue exists
    (with a non-empty URL), in the order of the listing.  Nothing is
    counted as deleted, and [rules_processed] is the number of rules that
    are not managed, those on the skip list included. *)
Theorem teardown_dry_run_reports_existing_queues bus force env_prefix skip_rules w :
  quiet w ->
  exists w',
    cleanup_all_dlqs bus true force env_prefix skip_rules w
    = (Ok {| td_deleted_count := 0;
             td_deleted_queues :=
               map (would_delete env_prefix)
                 (List.filter
                    (fun r => has_queue (generate_dlq_name (Name r) env_prefix) w)
                    (List.filter (eligible skip_rules) (concat (w_rules w))));
             td_rules_processed :=
               length (List.filter (fun r => negb (is_aws_managed r))
                                   (concat (w_rules w))) |}, w').
Proof.
intros Hquiet. unfold cleanup_all_dlqs, bind at 1.
destruct (list_all_rules_run bus w) as (r0 & wa & -> & Hl%only_list_rules_lookups & _ & Hr0).
rewrite (Hr0 Hquiet). unfold bind at 1.
destruct (cleanup_rules_dry_quiet bus force env_prefix skip_rules (concat (w_rules w))
            {| d_queues := []; d_count := 0 |} wa) as (d' & w' & -> & Hc & Hq);
  [by eapply quiet_lookups|].
exists w'. unfold ret. rewrite Hc, Hq. cbn [d_queues d_count app].
rewrite (List.filter_ext
           (fun r => has_queue (generate_dlq_name (Name r) env_prefix) wa)
           (fun r => has_queue (generate_dlq_name (Name r) env_prefix) w));
  [done|].
intros r. by apply has_queue_lookups.
Qed.

Lemma teardown_dry_run_reports_existing_queues_witness :
  exists w',
    cleanup_all_dlqs "main" true false "prod" [] (busy_world no_faults)
    = (Ok {| td_deleted_count := 0;
             td_deleted_queues :=
               map (would_delete "prod")
                 (List.filter
                    (fun r => has_queue (generate_dlq_name (Name r) "prod")
                                (busy_world no_faults))
                    (List.filter (eligible []) (concat (w_rules (busy_world no_faults)))));
             td_rules_processed :=
               length (List.filter (fun r => negb (is_aws_managed r))
                                   (concat (w_rules (busy_world no_faults)))) |}, w').
Proof.
apply (teardown_dry_run_reports_existing_queues "main" false "prod" [] (busy_world no_faults)).
intros n c Hn. reflexivity.
Defined.

(** ** One step of the teardown *)

Section TeardownStep.

Lemma has_messages_lookups url : preserves only_lookups (has_messages url).
Proof.
unfold has_messages.
apply preserves_on_client_error; [apply only_lookups_trans| |].
- apply preserves_bind; [apply only_lookups_trans| |].
  + unfold Sqs.get_queue_attributes.
    apply preserves_request; [apply only_lookups_trans| |].
    * intros w. by apply only_lookups_record.
    * intros w. cbn. destruct (List.find _ _); apply only_lookups_refl.
  + intros attrs. apply preserves_ret, only_lookups_refl.
- intros code. apply preserves_ret, only_lookups_refl.
Qed.

Lemma list_targets_ok rule bus w ts w1 :
list_targets rule bus w = (Ok ts, w1) ->
ts = rule_targets rule w /\ w1 = record_call (ListTargetsByRule rule bus None) w.
Proof.
unfold list_targets. cbn [paginate].
unfold bind, Events.list_targets_by_rule, request.
destruct (w_faults w _ _); [done|]. cbn. by intros [= <- <-].
Qed.

Lemma put_targets_ok rule bus l w w1 :
Events.put_targets rule bus l w = (Ok tt, w1) ->
w_queues w1 = w_queues w /\
rule_targets rule w1 = foldl Events.upsert_target (rule_targets rule w) l /\
forall r, r <> rule -> w_targets w1 !! r = w_targets w !! r.
Proof.
unfold Events.put_targets, request. destruct (w_faults w _ _); [done|].
cbn [w_targets record_call]. destruct (forallb _ _); [|done].
intros [= <-]. split; [done|]. unfold rule_targets. cbn [w_targets set_targets].
split; [by rewrite lookup_insert_eq|].
intros r Hr. by rewrite lookup_insert_ne.
Qed.

Lemma delete_queue_ok url w w1 :
Sqs.delete_queue url w = (Ok tt, w1) ->
w_queues w1 = List.filter (fun q => negb (Sqs.by_url url q)) (w_queues w) /\
w_targets w1 = w_targets w.
Proof.
unfold Sqs.delete_queue, request. destruct (w_faults w _ _); [done|].
cbn [w_queues record_call]. destruct (List.find _ _); [|done].
by intros [= <-].
Qed.

Lemma targets_to_detach_cases q_arn targets :
forall to_update t,
  targets_to_detach q_arn targets = Ok to_update -> t ∈ targets ->
  points_to q_arn t = Ok false \/
  exists clone, clone_target t = Ok clone /\ clone ∈ to_update.
Proof.
induction targets as [|t0 targets IH]; intros to_update t;
  cbn [targets_to_detach]; [intros _ Hin; by apply elem_of_nil in Hin|].
unfold rbind.
destruct (points_to q_arn t0) as [[|]|] eqn:Hp; [| |done].
- destruct (clone_target t0) as [clone|] eqn:Hc; [|done].
  destruct (targets_to_detach q_arn targets) as [l|] eqn:Hl; [|done].
  intros [= <-] [ -> | Hin ]%elem_of_cons.
  + right. exists clone. split; [done|]. by left.
  + destruct (IH l t eq_refl Hin) as [?|(c & ? & ?)]; [by left|].
    right. exists c. split; [done|]. by right.
- intros Hl [ -> | Hin ]%elem_of_cons; [by left|by eauto].
Qed.

Lemma clone_points_nowhere q_arn (t clone : Target) :
clone_target t = Ok clone -> points_to q_arn clone = Ok false.
Proof.
intros Hc. unfold points_to.
rewrite (clone_target_lookup _ _ "DeadLetterConfig" Hc).
by rewrite bool_decide_eq_false_2 by apply dead_letter_config_not_kept.
Qed.

Lemma clone_same_id (t clone : Target) :
clone_target t = Ok clone -> Events.same_id clone t = true.
Proof.
intros Hc. unfold Events.same_id, Events.target_id.
rewrite (clone_target_lookup _ _ "Id" Hc).
rewrite (bool_decide_eq_true_2 ("Id" ∈ kept_keys)) by apply list_elem_of_here.
by apply bool_decide_eq_true_2.
Qed.

End TeardownStep.

Local Ltac step_fails :=
  match goal with
  | |- context [Raise ?e] =>
      destruct e; cbn; try done; intros [= <- _]; done
  end.

(** X20. A deletion that the teardown logs has been carried out in full.
    Whatever the service answers, when the step for a rule returns with its
    log or count changed, then the queue was found under the derived name,
    the log has gained exactly the [deleted] entry for the rule and the
    count one, the queues behind the URL are gone and all others are as
    they were, no target of the rule points to the queue any more, and the
    targets of other rules are untouched. *)
Theorem logged_deletion_is_complete bus force rule dlq_name d w d' w' :
  delete_rule_dlq bus force rule dlq_name d w = (Ok d', w') ->
  d' <> d ->
  exists q q',
    List.find (Sqs.by_name dlq_name) (w_queues w) = Some q /\
    List.find (Sqs.by_url (q_url q)) (w_queues w) = Some q' /\
    d' = {| d_queues := d_queues d ++
              [{| dl_rule_name := rule; dl_dlq_name := dlq_name;
                  dl_action := "deleted" |}];
            d_count := S (d_count d) |} /\
    w_queues w' = List.filter (fun q0 => negb (Sqs.by_url (q_url q) q0)) (w_queues w) /\
    (forall t, t ∈ rule_targets rule w' -> points_to (q_arn q') t = Ok false) /\
    (forall r, r <> rule -> w_targets w' !! r = w_targets w !! r).
Proof.
intros Hrun Hne. revert Hrun.
unfold delete_rule_dlq, try_except. unfold bind at 1.
destruct (get_queue_by_name dlq_name w) as [[[[url arn]|]|e] w1] eqn:Hg; cycle 1.
{ cbn. intros [= <- _]. done. }
{ step_fails. }
apply get_queue_by_name_some in Hg as (Hl1 & q & q' & Hq & <- & Hq' & <-).
destruct (Py.truthy (q_url q)); [|cbn; intros [= <- _]; done].
unfold bind at 1.
destruct ((if force then ret false else has_messages (q_url q)) w1)
  as [[keep|e] w2] eqn:Hkeep; cycle 1.
{ step_fails. }
assert (Hl2 : only_lookups w1 w2).
{ destruct force.
  - injection Hkeep as _ <-. apply only_lookups_refl.
  - pose proof (has_messages_lookups (q_url q) w1) as H. by rewrite Hkeep in H. }
destruct keep; [cbn; intros [= <- _]; done|].
unfold bind at 1.
destruct (list_targets rule bus w2) as [[ts|e] w3] eqn:Hlist; cycle 1.
{ step_fails. }
apply list_targets_ok in Hlist as [-> ->].
set (w3 := record_call (ListTargetsByRule rule bus None) w2).
unfold bind at 1, lift.
destruct (targets_to_detach (q_arn q') (rule_targets rule w2)) as [l|e] eqn:Hdet;
  cycle 1.
{ step_fails. }
unfold bind at 1.
destruct (match l with
          | [] => ret tt
          | _ :: _ => Events.put_targets rule bus l
          end w3) as [[[]|e] w4] eqn:Hput; cycle 1.
{ step_fails. }
unfold bind at 1.
destruct (Sqs.delete_queue (q_url q) w4) as [[[]|e] w5] eqn:Hdel; cycle 1.
{ step_fails. }
cbn [ret]. intros [= <- <-].
destruct (only_lookups_trans _ _ _ Hl1 Hl2) as (_ & Ht2 & Hq2 & _).
assert (Hput' : w_queues w4 = w_queues w3 /\
                rule_targets rule w4
                = foldl Events.upsert_target (rule_targets rule w3) l /\
                forall r, r <> rule -> w_targets w4 !! r = w_targets w3 !! r).
{ destruct l; [by injection Hput as <-|by apply put_targets_ok in Hput]. }
destruct Hput' as (Hq4 & Ht4 & Ho4).
apply delete_queue_ok in Hdel as [Hq5 Ht5].
exists q, q'. split; [done|]. split; [done|]. split; [done|].
split; [by rewrite Hq5, Hq4; cbn [w3 w_queues record_call]; rewrite Hq2|].
split.
- intros t Ht. unfold rule_targets in Ht. rewrite Ht5 in Ht.
  fold (rule_targets rule w4) in Ht. rewrite Ht4 in Ht.
  change (rule_targets rule w3) with (rule_targets rule w2) in Ht.
  apply upsert_all_survivor in Ht as [Hnew|[Hold Hids]].
  + destruct (targets_to_detach_elem _ _ _ _ Hdet Hnew) as (t0 & _ & _ & Hc).
    by eapply clone_points_nowhere.
  + destruct (targets_to_detach_cases _ _ _ _ Hdet Hold) as [?|(clone & Hc & Hin)];
      [done|].
    pose proof (clone_same_id t clone Hc) as Hsame.
    rewrite (Hids _ Hin) in Hsame. done.
- intros r Hr. rewrite Ht5, Ho4 by done. cbn [w3 w_targets record_call].
  by rewrite Ht2.
Qed.

Lemma logged_deletion_is_complete_witness :
  exists q q',
    List.find (Sqs.by_name orders_queue_name) (w_queues (busy_world no_faults)) = Some q /\
    List.find (Sqs.by_url (q_url q)) (w_queues (busy_world no_faults)) = Some q' /\
    fst (delete_rule_dlq "main" true "orders" orders_queue_name
           {| d_queues := []; d_count := 0 |} (busy_world no_faults))
    = Ok {| d_queues := [] ++
              [{| dl_rule_name := "orders"; dl_dlq_name := orders_queue_name;
                  dl_action := "deleted" |}];
            d_count := 1 |} /\
    w_queues (snd (delete_rule_dlq "main" true "orders" orders_queue_name
                     {| d_queues := []; d_count := 0 |} (busy_world no_faults)))
    = List.filter (fun q0 => negb (Sqs.by_url (q_url q) q0))
                  (w_queues (busy_world no_faults)) /\
    (forall t, t ∈ rule_targets "orders"
                     (snd (delete_rule_dlq "main" true "orders" orders_queue_name
                             {| d_queues := []; d_count := 0 |} (busy_world no_faults))) ->
               points_to (q_arn q') t = Ok false).
Proof.
destruct (logged_deletion_is_complete "main" true "orders" orders_queue_name
            {| d_queues := []; d_count := 0 |} (busy_world no_faults)
            {| d_queues := [{| dl_rule_name := "orders"; dl_dlq_name := orders_queue_name;
                               dl_action := "deleted" |}];
               d_count := 1 |}
            (snd (delete_rule_dlq "main" true "orders" orders_queue_name
                    {| d_queues := []; d_count := 0 |} (busy_world no_faults))))
  as (q & q' & H1 & H2 & H3 & H4 & H5 & H6).
- vm_compute. reflexivity.
- discriminate.
- exists q, q'. split; [done|]. split; [done|]. split; [vm_compute; reflexivity|].
  split; [done|done].
Defined.

(** ** The requests a run may send *)

Section Sends.

Variable allowed : Call -> bool.

Lemma sends_only_refl w : sends_only allowed w w.
Proof. exists []. by rewrite app_nil_r. Qed.

Lemma sends_only_trans w1 w2 w3 :
sends_only allowed w1 w2 -> sends_only allowed w2 w3 -> sends_only allowed w1 w3.
Proof.
intros (c1 & Hc1 & Hl1) (c2 & Hc2 & Hl2).
exists (c1 ++ c2). rewrite Hc2, Hc1, <- app_assoc. split; [done|].
rewrite forallb_app. by rewrite Hl1, Hl2.
Qed.

Lemma sends_only_record c w :
allowed c = true -> sends_only allowed w (record_call c w).
Proof. intros Hc. exists [c]. split; [done|]. cbn. by rewrite Hc. Qed.

Lemma sends_only_same_trace w w' :
w_trace w' = w_trace w -> sends_only allowed w w'.
Proof. intros H. exists []. by rewrite app_nil_r. Qed.

Lemma sends_request {A} c (answer : M A) :
allowed c = true ->
(forall w, w_trace (snd (answer w)) = w_trace w) ->
preserves (sends_only allowed) (request c answer).
Proof.
intros Hc Ha. apply preserves_request; [apply sends_only_trans| |].
- intros w. by apply sends_only_record.
- intros w. by apply sends_only_same_trace.
Qed.

Lemma sends_ret {A} (a : A) : preserves (sends_only allowed) (ret a).
Proof. apply preserves_ret, sends_only_refl. Qed.

Lemma sends_lift {A} (r : result A) : preserves (sends_only allowed) (lift r).
Proof. apply preserves_lift, sends_only_refl. Qed.

Lemma sends_bind {A B} (m : M A) (k : A -> M B) :
preserves (sends_only allowed) m ->
(forall a, preserves (sends_only allowed) (k a)) ->
preserves (sends_only allowed) (bind m k).
Proof. apply preserves_bind, sends_only_trans. Qed.

Lemma sends_except {A} (m : M A) k :
preserves (sends_only allowed) m ->
(forall code, preserves (sends_only allowed) (k code)) ->
preserves (sends_only allowed) (try_except m (on_client_error k)).
Proof. apply preserves_on_client_error, sends_only_trans. Qed.

Lemma sends_get_queue_url name :
allowed (GetQueueUrl name) = true ->
preserves (sends_only allowed) (Sqs.get_queue_url name).
Proof.
intros Hc. apply sends_request; [done|].
intros w. by destruct (List.find _ _).
Qed.

Lemma sends_get_queue_attributes url names :
allowed (GetQueueAttributes url names) = true ->
preserves (sends_only allowed) (Sqs.get_queue_attributes url names).
Proof.
intros Hc. apply sends_request; [done|].
intros w. by destruct (List.find _ _).
Qed.

Lemma sends_delete_queue url :
allowed (DeleteQueue url) = true ->
preserves (sends_only allowed) (Sqs.delete_queue url).
Proof.
intros Hc. apply sends_request; [done|].
intros w. by destruct (List.find _ _).
Qed.

Lemma sends_create_queue name attributes tags :
allowed (CreateQueue name attributes tags) = true ->
preserves (sends_only allowed) (Sqs.create_queue name attributes tags).
Proof.
intros Hc. apply sends_request; [done|].
intros w. destruct (negb _); [done|]. by destruct (List.find _ _).
Qed.

Lemma sends_set_queue_attributes url doc :
allowed (SetQueueAttributes url doc) = true ->
preserves (sends_only allowed) (Sqs.set_queue_attributes url doc).
Proof.
intros Hc. apply sends_request; [done|].
intros w. by destruct (List.find _ _).
Qed.

Lemma sends_list_queues :
allowed ListQueues = true -> preserves (sends_only allowed) Sqs.list_queues.
Proof. intros Hc. by apply sends_request. Qed.

Lemma sends_put_targets rule bus targets :
allowed (PutTargets rule bus targets) = true ->
preserves (sends_only allowed) (Events.put_targets rule bus targets).
Proof.
intros Hc. apply sends_request; [done|].
intros w. by destruct (forallb _ _).
Qed.

Lemma sends_list_targets rule bus :
allowed (ListTargetsByRule rule bus None) = true ->
preserves (sends_only allowed) (list_targets rule bus).
Proof.
intros Hc. unfold list_targets. cbn [paginate].
apply sends_bind.
- by apply sends_request.
- intros [page [next|]]; cbn [snd]; [apply preserves_raise, sends_only_refl|apply sends_ret].
Qed.

Lemma sends_list_all_rules bus :
(forall token, allowed (ListRules bus token) = true) ->
preserves (sends_only allowed) (list_all_rules bus).
Proof.
intros Hc w. unfold list_all_rules.
apply (preserves_paginate (sends_only allowed) sends_only_refl sends_only_trans).
intros token. by apply sends_request.
Qed.

Lemma sends_get_queue_by_name name :
allowed (GetQueueUrl name) = true ->
(forall url, allowed (GetQueueAttributes url ["QueueArn"]) = true) ->
preserves (sends_only allowed) (get_queue_by_name name).
Proof.
intros H1 H2. unfold get_queue_by_name. apply sends_except.
- apply sends_bind; [by apply sends_get_queue_url|]. intros url.
  apply sends_bind; [by apply sends_get_queue_attributes|]. intros attrs.
  apply sends_bind; [apply sends_lift|]. intros arn. apply sends_ret.
- intros code. destruct (is_not_found code);
    [apply sends_ret|apply preserves_raise, sends_only_refl].
Qed.

End Sends.

Section TeardownSends.

Lemma sends_delete_rule_dlq bus force rule dlq_name d :
preserves (sends_only (teardown_may_send false force))
          (delete_rule_dlq bus force rule dlq_name d).
Proof.
unfold delete_rule_dlq. apply sends_except; [|intros; apply sends_ret].
apply sends_bind; [by apply sends_get_queue_by_name|].
intros [[url arn]|]; [|apply sends_ret].
destruct (Py.truthy url); [|apply sends_ret].
apply sends_bind.
{ destruct force; [apply sends_ret|].
  unfold has_messages. apply sends_except; [|intros; apply sends_ret].
  apply sends_bind; [by apply sends_get_queue_attributes|].
  intros attrs. apply sends_ret. }
intros [|]; [apply sends_ret|].
apply sends_bind; [by apply sends_list_targets|]. intros targets.
apply sends_bind; [apply sends_lift|]. intros to_update.
apply sends_bind.
{ destruct to_update; [apply sends_ret|by apply sends_put_targets]. }
intros _. apply sends_bind; [by apply sends_delete_queue|].
intros _. apply sends_ret.
Qed.

Lemma sends_cleanup_rules bus dry_run force env_prefix skip_rules rules :
forall d,
  preserves (sends_only (teardown_may_send dry_run force))
            (cleanup_rules bus dry_run force env_prefix skip_rules rules d).
Proof.
induction rules as [|rule rules IH]; intros d; cbn [cleanup_rules].
{ apply sends_ret. }
destruct (is_aws_managed rule); [apply IH|].
destruct (in_list (Name rule) skip_rules); [apply IH|].
apply sends_bind; [|intros; apply IH].
destruct dry_run; [|apply sends_delete_rule_dlq].
apply sends_bind; [by apply sends_get_queue_by_name|].
intros q. destruct (url_truthy q); apply sends_ret.
Qed.

End TeardownSends.

(** X21. Whatever the service answers, a teardown never lists the
    queues, never creates a queue and never writes a policy.  In a dry run
    it sends no request that lists or changes targets or deletes a queue;
    and it reads the message counts of a queue only when it is neither a
    dry run nor forced. *)
Theorem teardown_sends_only_its_requests bus dry_run force env_prefix skip_rules w :
  sends_only (teardown_may_send dry_run force) w
    (snd (cleanup_all_dlqs bus dry_run force env_prefix skip_rules w)).
Proof.
revert w. change (preserves (sends_only (teardown_may_send dry_run force))
                    (cleanup_all_dlqs bus dry_run force env_prefix skip_rules)).
unfold cleanup_all_dlqs.
apply sends_bind; [by apply sends_list_all_rules|]. intros rules.
apply sends_bind; [apply sends_cleanup_rules|]. intros d. apply sends_ret.
Qed.

Section CleanupSends.

Lemma only_deletes_refl w : only_deletes w w.
Proof. split; [done|]. split; [done|]. split; [done|]. apply sends_only_refl. Qed.

Lemma only_deletes_trans w1 w2 w3 :
only_deletes w1 w2 -> only_deletes w2 w3 -> only_deletes w1 w3.
Proof.
intros (Hr & Ht & Hq & Hs) (Hr' & Ht' & Hq' & Hs').
split; [congruence|]. split; [congruence|]. split; [by eauto|].
by eapply sends_only_trans.
Qed.

Lemma only_deletes_record c w :
cleanup_may_send c = true -> only_deletes w (record_call c w).
Proof.
intros Hc. split; [done|]. split; [done|]. split; [done|].
by apply sends_only_record.
Qed.

Lemma only_deletes_cleanup_queues rule_names dry_run dlq_queues :
forall result,
  preserves only_deletes (cleanup_queues rule_names dry_run dlq_queues result).
Proof.
induction dlq_queues as [|q qs IH]; intros result; cbn [cleanup_queues].
{ apply preserves_ret, only_deletes_refl. }
destruct (is_orphan rule_names q); [|apply IH].
destruct dry_run; [apply IH|].
apply preserves_bind; [apply only_deletes_trans| |intros; apply IH].
apply preserves_on_client_error; [apply only_deletes_trans| |].
- apply preserves_bind; [apply only_deletes_trans| |
    intros; apply preserves_ret, only_deletes_refl].
  apply preserves_request; [apply only_deletes_trans| |].
  + intros w. by apply only_deletes_record.
  + intros w. cbn. destruct (List.find _ _); [|apply only_deletes_refl].
    split; [done|]. split; [done|]. split; [|by apply sends_only_same_trace].
    cbn. intros q1 Hq1. apply list_elem_of_In in Hq1.
    apply filter_In in Hq1 as [Hq1 _]. by apply list_elem_of_In.
- intros. apply preserves_ret, only_deletes_refl.
Qed.

End CleanupSends.

(** X22. Whatever the service answers, orphan cleanup does nothing but
    list the queues and delete queues: the rules and all targets stay as
    they are, every queue left is a queue that was there, unchanged, and the
    requests sent are [ListQueues] and [DeleteQueue] only.  In particular it
    reads no message count before it deletes. *)
Theorem orphan_cleanup_only_deletes rules dry_run w :
  only_deletes w (snd (cleanup_orphaned_dlqs rules dry_run w)).
Proof.
revert w. change (preserves only_deletes (cleanup_orphaned_dlqs rules dry_run)).
unfold cleanup_orphaned_dlqs.
destruct dry_run; [apply preserves_ret, only_deletes_refl|].
apply preserves_bind; [apply only_deletes_trans| |
  intros; apply only_deletes_cleanup_queues].
unfold list_all_dlq_queues.
apply preserves_on_client_error; [apply only_deletes_trans| |].
- apply preserves_bind; [apply only_deletes_trans| |
    intros; apply preserves_ret, only_deletes_refl].
  apply preserves_request; [apply only_deletes_trans| |].
  + intros w. by apply only_deletes_record.
  + intros w. apply only_deletes_refl.
- intros. apply preserves_ret, only_deletes_refl.
Qed.

Section ProvisionSends.

Lemma sends_rule_has_dlq_attached rule bus :
preserves (sends_only provision_may_send) (rule_has_dlq_attached rule bus).
Proof.
unfold rule_has_dlq_attached. apply sends_except; [|intros; apply sends_ret].
apply sends_bind; [by apply sends_list_targets|]. intros targets.
induction targets as [|t targets IH]; cbn [any_dlq_exists]; [apply sends_ret|].
apply sends_bind; [apply sends_lift|]. intros [arn|]; [|apply IH].
apply sends_bind; [apply sends_lift|]. intros name.
apply sends_bind; [by apply sends_get_queue_by_name|].
intros [q|]; [apply sends_ret|apply IH].
Qed.

Lemma sends_update_queue_policy url arn rule_arn :
preserves (sends_only provision_may_send) (update_queue_policy url arn rule_arn).
Proof.
unfold update_queue_policy. apply sends_except; [|intros; apply sends_ret].
cbv zeta. apply sends_bind.
{ unfold read_policy.
  apply preserves_try_except; [apply sends_only_trans| |].
  - apply sends_bind; [by apply sends_get_queue_attributes|]. intros resp.
    destruct (Policy resp) as [text|]; [|apply sends_ret].
    destruct (policy_text_truthy text); [apply sends_lift|apply sends_ret].
  - intros e k. destruct e; intros [= <-]; apply sends_ret. }
intros policy. apply sends_bind; [apply sends_lift|]. intros statements.
apply sends_bind; [apply sends_lift|]. intros items.
apply sends_bind; [apply sends_lift|]. intros [|]; [apply sends_ret|].
apply sends_bind; [apply sends_lift|]. intros statements'.
apply sends_bind; [apply sends_lift|]. intros policy'.
apply sends_bind; [by apply sends_set_queue_attributes|]. intros _. apply sends_ret.
Qed.

Lemma sends_attach_dlq_to_targets rule bus queue_arn :
preserves (sends_only provision_may_send) (attach_dlq_to_targets rule bus queue_arn).
Proof.
unfold attach_dlq_to_targets. apply sends_except; [|intros; apply sends_ret].
apply sends_bind; [by apply sends_list_targets|]. intros targets.
apply sends_bind; [apply sends_lift|]. intros to_update.
apply sends_bind; [|intros; apply sends_ret].
destruct to_update; [apply sends_ret|by apply sends_put_targets].
Qed.

Lemma sends_ensure_queue_and_policy rule dlq_name tags settings arn dry_run bus :
preserves (sends_only provision_may_send)
          (ensure_queue_and_policy rule dlq_name tags settings arn dry_run bus).
Proof.
unfold ensure_queue_and_policy. destruct dry_run; [apply sends_ret|].
apply sends_bind; [apply sends_rule_has_dlq_attached|].
intros [|]; [apply sends_ret|].
apply sends_bind; [by apply sends_get_queue_by_name|]. intros found.
apply sends_bind.
{ destruct found as [[url q_arn]|]; [apply sends_ret|].
  apply sends_bind; [by apply sends_create_queue|]. intros url.
  apply sends_bind; [by apply sends_get_queue_attributes|]. intros attrs.
  apply sends_bind; [apply sends_lift|]. intros q_arn. apply sends_ret. }
intros [[url q_arn] created].
apply sends_bind; [apply sends_lift|]. intros rule_arn.
apply sends_bind; [apply sends_update_queue_policy|]. intros policy.
apply sends_bind; [apply sends_attach_dlq_to_targets|]. intros updated.
apply sends_ret.
Qed.

End ProvisionSends.

(** X23. Whatever the service answers, the work on one rule
    ([ensure_queue_and_policy]) leaves the rules and the targets of every
    other rule as they are and removes no queue: a queue name that was
    there is still there.  It sends no request that deletes a queue or
    lists queues or rules. *)
Theorem provisioning_touches_one_rule rule dlq_name tags settings arn dry_run bus w :
  w_rules (snd (ensure_queue_and_policy rule dlq_name tags settings arn dry_run bus w))
  = w_rules w /\
  (forall r, r <> rule ->
     w_targets (snd (ensure_queue_and_policy rule dlq_name tags settings arn dry_run bus w))
       !! r = w_targets w !! r) /\
  (forall name, queue_named name w ->
     queue_named name
       (snd (ensure_queue_and_policy rule dlq_name tags settings arn dry_run bus w))) /\
  sends_only provision_may_send w
    (snd (ensure_queue_and_policy rule dlq_name tags settings arn dry_run bus w)).
Proof.
destruct (prov_ensure_queue_and_policy rule dlq_name tags settings arn dry_run bus w)
  as (Hr & _ & _ & Ht & Hq & _).
split; [done|]. split; [done|]. split; [done|].
apply sends_ensure_queue_and_policy.
Qed.

(** ** Provisioning a rule for the first time *)

Section FirstProvisioning.

Lemma any_dlq_exists_none targets w :
(forall t, t ∈ targets -> dead_letter_arn t = Ok None) ->
any_dlq_exists targets w = (Ok false, w).
Proof.
induction targets as [|t targets IH]; intros H; cbn [any_dlq_exists]; [done|].
unfold bind, lift. rewrite (H t) by by left.
apply IH. intros t0 Ht0. apply H. by right.
Qed.

Lemma find_app_new (f : Queue -> bool) (qs : list Queue) q :
(forall q0, q0 ∈ qs -> f q0 = false) -> f q = true ->
List.find f (qs ++ [q]) = Some q.
Proof.
intros Hqs Hq. induction qs as [|q0 qs IH]; cbn [app List.find].
- by rewrite Hq.
- rewrite (Hqs q0) by by left. apply IH. intros q1 Hq1. apply Hqs. by right.
Qed.

Lemma map_app_new (f : Queue -> bool) (g : Queue -> Queue) (qs : list Queue) q :
(forall q0, q0 ∈ qs -> f q0 = false) -> f q = true ->
map (fun q0 => if f q0 then g q0 else q0) (qs ++ [q]) = qs ++ [g q].
Proof.
intros Hqs Hq. rewrite map_app. cbn [map]. rewrite Hq. f_equal.
induction qs as [|q0 qs IH]; [done|]. cbn [map].
rewrite (Hqs q0) by by left. f_equal. apply IH. intros q1 Hq1. apply Hqs. by right.
Qed.

(** No queue of a well-formed world has the URL of a queue that is not
  there. *)
Lemma url_is_free name w :
wf_queues w -> Sqs.valid_name name = true -> ~ queue_named name w ->
forall q0, q0 ∈ w_queues w -> Sqs.by_url (Sqs.url_base +:+ name) q0 = false.
Proof.
intros Hwf Hv Hno q0 Hq0. unfold Sqs.by_url.
destruct (String.eqb_spec (q_url q0) (Sqs.url_base +:+ name)) as [Hu|]; [|done].
destruct Hno. exists q0. split; [done|].
destruct (Hwf q0 Hq0) as [_ <-]. rewrite Hu. by apply valid_name_url.
Qed.

End FirstProvisioning.

(** X24. The first provisioning of a rule.  Take a service that answers
    and whose queues carry their names in their URLs, a rule none of whose
    targets has a dead-letter ARN, a valid queue name under which there is no
    queue yet, and a bus ARN from which the rule ARN can be built.  Then
    [ensure_queue_and_policy] returns the operation with [queue_created]
    and [policy_updated] set, status [updated] and as many updated targets
    as the attach loop selects; the queue has been added, with the
    settings and tags given and a policy holding the one grant for the
    rule; and the selected targets have been republished. *)
Theorem first_provisioning_creates_grants_and_attaches
    rule dlq_name tags settings arn bus w rule_arn to_update :
  quiet w ->
  wf_queues w ->
  (forall t, t ∈ rule_targets rule w -> dead_letter_arn t = Ok None) ->
  Sqs.valid_name dlq_name = true ->
  ~ queue_named dlq_name w ->
  get_rule_arn rule arn = Ok rule_arn ->
  targets_to_attach (Sqs.arn_base +:+ dlq_name) (rule_targets rule w) = Ok to_update ->
  (forall u, u ∈ to_update -> is_Some (Events.target_id u)) ->
  exists w',
    ensure_queue_and_policy rule dlq_name tags settings arn false bus w
    = (Ok {| op_rule_name := rule; op_dlq_name := dlq_name;
             queue_created := true; policy_updated := true;
             targets_updated := length to_update;
             status := "updated"; reason := "" |}, w') /\
    w_queues w'
    = w_queues w ++
      [Sqs.with_policy (lone_grant_policy (Sqs.arn_base +:+ dlq_name) rule_arn)
         (Sqs.new_queue dlq_name (queue_attributes settings) tags)] /\
    rule_targets rule w'
    = foldl Events.upsert_target (rule_targets rule w) to_update /\
    (forall r, r <> rule -> w_targets w' !! r = w_targets w !! r).
Proof.
intros Hquiet Hwf Hnone Hvalid Hno Harn Hsel Hids.
set (url := Sqs.url_base +:+ dlq_name).
set (the_arn := Sqs.arn_base +:+ dlq_name) in *.
set (new := Sqs.new_queue dlq_name (queue_attributes settings) tags).
set (doc := lone_grant_policy the_arn rule_arn).
assert (Hfree : forall q0, q0 ∈ w_queues w -> Sqs.by_url url q0 = false)
  by by apply url_is_free.
assert (Hnew : Sqs.by_url url new = true) by apply String.eqb_refl.
assert (Habsent : List.find (Sqs.by_name dlq_name) (w_queues w) = None).
{ destruct (List.find _ _) as [q|] eqn:Hf; [|done].
  destruct Hno. apply queue_named_find. by exists q. }
unfold ensure_queue_and_policy.
(* the check *)
unfold bind at 1. unfold rule_has_dlq_attached, try_except, bind at 1.
rewrite list_targets_quiet by done.
set (w1 := record_call (ListTargetsByRule rule bus None) w).
rewrite any_dlq_exists_none by done.
assert (Hq1 : quiet w1) by (by apply (quiet_step w w1 [ListTargetsByRule rule bus None])).
(* the lookup *)
unfold bind at 1.
rewrite get_queue_by_name_absent; [|apply Hq1; lia|done].
set (w2 := record_call (GetQueueUrl dlq_name) w1).
assert (Hq2 : quiet w2) by (by apply (quiet_step w1 w2 [GetQueueUrl dlq_name])).
(* the creation *)
unfold bind at 1. unfold bind at 1.
unfold Sqs.create_queue at 1. rewrite request_answer by (apply Hq2; lia).
rewrite Hvalid. cbn [negb].
change (w_queues (record_call (CreateQueue dlq_name (queue_attributes settings) tags) w2))
  with (w_queues w).
rewrite Habsent.
set (w3 := set_queues (w_queues w ++ [new])
             (record_call (CreateQueue dlq_name (queue_attributes settings) tags) w2)).
assert (Hq3 : quiet w3).
{ by apply (quiet_step w2 w3 [CreateQueue dlq_name (queue_attributes settings) tags]). }
unfold bind at 1.
unfold Sqs.get_queue_attributes at 1. fold new. fold w3.
rewrite request_answer by (apply Hq3; lia).
change (w_queues (record_call (GetQueueAttributes (q_url new) ["QueueArn"]) w3))
  with (w_queues w ++ [new]).
change (q_url new) with url.
rewrite (find_app_new _ _ new Hfree Hnew).
set (w4 := record_call (GetQueueAttributes url ["QueueArn"]) w3).
assert (Hq4 : quiet w4) by (by apply (quiet_step w3 w4 [GetQueueAttributes url ["QueueArn"]])).
cbn [Sqs.attributes_of QueueArn Sqs.asked existsb String.eqb Ascii.eqb Bool.eqb orb
     require lift bind ret].
change (q_arn new) with the_arn.
unfold bind at 1, lift. rewrite Harn.
(* the policy *)
unfold bind at 1.
assert (Hpolicy : update_queue_policy url the_arn rule_arn w4
                  = (Ok true,
                     set_queues (w_queues w ++ [Sqs.with_policy doc new])
                       (record_call (SetQueueAttributes url doc)
                          (record_call (GetQueueAttributes url ["Policy"]) w4)))).
{ unfold update_queue_policy, try_except, bind at 1.
  unfold read_policy, try_except, bind, Sqs.get_queue_attributes, request.
  rewrite Hq4 by lia. cbn [w_queues record_call w4 w3 set_queues].
  rewrite (find_app_new _ _ new Hfree Hnew). cbn.
  unfold Sqs.set_queue_attributes, request. cbn [w_trace w_faults record_call].
  rewrite Hq4 by (rewrite length_app; lia).
  cbn [w_queues record_call w4 w3 set_queues].
  rewrite (find_app_new _ _ new Hfree Hnew).
  by rewrite (map_app_new _ _ _ new Hfree Hnew). }
rewrite Hpolicy.
set (w6 := set_queues _ _).
assert (Hq6 : quiet w6).
{ apply (quiet_step w4 w6 [GetQueueAttributes url ["Policy"]; SetQueueAttributes url doc]);
    [done| |done].
  cbn. by rewrite <- app_assoc. }
(* the targets *)
unfold attach_dlq_to_targets, try_except, bind at 1.
rewrite list_targets_quiet by done.
change (rule_targets rule w6) with (rule_targets rule w).
unfold bind at 1, lift. rewrite Hsel.
set (w7 := record_call (ListTargetsByRule rule bus None) w6).
destruct to_update as [|u us].
- cbn. exists w7. split; [done|]. split; [done|]. split; [done|done].
- unfold bind at 1, Events.put_targets, request.
  assert (Hq7 : quiet w7) by (by apply (quiet_step w6 w7 [ListTargetsByRule rule bus None])).
  rewrite Hq7 by lia.
  assert (Hall : forallb (fun t => bool_decide (is_Some (Events.target_id t))) (u :: us)
                 = true).
  { apply forallb_forall. intros t Ht. apply bool_decide_eq_true_2.
    apply Hids. by apply list_elem_of_In. }
  rewrite Hall. cbn [ret length]. eexists. split; [reflexivity|].
  split; [done|]. unfold rule_targets. cbn [w_targets set_targets record_call].
  split; [by rewrite lookup_insert_eq|].
  intros r Hr. by rewrite lookup_insert_ne.
Qed.

Lemma first_provisioning_creates_grants_and_attaches_witness :
  exists w',
    ensure_queue_and_policy "order-events" order_events_queue_name ∅ sample_settings
      main_bus_arn false "main" orders_world
    = (Ok {| op_rule_name := "order-events"; op_dlq_name := order_events_queue_name;
             queue_created := true; policy_updated := true;
             targets_updated := length [order_events_target_attached];
             status := "updated"; reason := "" |}, w') /\
    w_queues w'
    = w_queues orders_world ++
      [Sqs.with_policy
         (lone_grant_policy (Sqs.arn_base +:+ order_events_queue_name)
            order_events_rule_arn)
         (Sqs.new_queue order_events_queue_name (queue_attributes sample_settings) ∅)] /\
    rule_targets "order-events" w'
    = foldl Events.upsert_target (rule_targets "order-events" orders_world)
        [order_events_target_attached] /\
    (forall r, r <> "order-events" -> w_targets w' !! r = w_targets orders_world !! r).
Proof.
apply (first_provisioning_creates_grants_and_attaches "order-events"
         order_events_queue_name ∅ sample_settings main_bus_arn "main" orders_world
         order_events_rule_arn [order_events_target_attached]).
- intros n c Hn. reflexivity.
- intros q Hq. by apply elem_of_nil in Hq.
- intros t Ht. change (rule_targets "order-events" orders_world)
    with [lambda_target "1"] in Ht.
  apply list_elem_of_singleton in Ht as ->. vm_compute. reflexivity.
- vm_compute. reflexivity.
- intros (q & Hq & _). by apply elem_of_nil in Hq.
- vm_compute. reflexivity.
- vm_compute. reflexivity.
- intros u Hu. apply list_elem_of_singleton in Hu as ->. exists "1". vm_compute. reflexivity.
Defined.

(** ** Rules a run does not work on *)

Section OtherTargets.

Variable names : list string.

Lemma keeps_refl w : keeps_other_targets names w w.
Proof. by intros r Hr. Qed.

Lemma keeps_trans w1 w2 w3 :
keeps_other_targets names w1 w2 -> keeps_other_targets names w2 w3 ->
keeps_other_targets names w1 w3.
Proof. intros H1 H2 r Hr. rewrite H2 by done. by apply H1. Qed.

Lemma keeps_same_targets w w' :
w_targets w' = w_targets w -> keeps_other_targets names w w'.
Proof. intros H r Hr. by rewrite H. Qed.

Lemma keeps_request {A} c (answer : M A) :
(forall w, w_targets (snd (answer w)) = w_targets w) ->
preserves (keeps_other_targets names) (request c answer).
Proof.
intros Ha. apply preserves_request; [apply keeps_trans| |].
- intros w. by apply keeps_same_targets.
- intros w. by apply keeps_same_targets.
Qed.

Lemma keeps_ret {A} (a : A) : preserves (keeps_other_targets names) (ret a).
Proof. apply preserves_ret, keeps_refl. Qed.

Lemma keeps_bind {A B} (m : M A) (k : A -> M B) :
preserves (keeps_other_targets names) m ->
(forall a, preserves (keeps_other_targets names) (k a)) ->
preserves (keeps_other_targets names) (bind m k).
Proof. apply preserves_bind, keeps_trans. Qed.

Lemma keeps_except {A} (m : M A) k :
preserves (keeps_other_targets names) m ->
(forall code, preserves (keeps_other_targets names) (k code)) ->
preserves (keeps_other_targets names) (try_except m (on_client_error k)).
Proof. apply preserves_on_client_error, keeps_trans. Qed.

Lemma keeps_lookups {A} (m : M A) :
preserves only_lookups m -> preserves (keeps_other_targets names) m.
Proof.
intros Hm w. destruct (Hm w) as (_ & Ht & _). by apply keeps_same_targets.
Qed.

Lemma keeps_put_targets rule bus targets :
rule ∈ names ->
preserves (keeps_other_targets names) (Events.put_targets rule bus targets).
Proof.
intros Hin. apply preserves_request; [apply keeps_trans| |].
- intros w. by apply keeps_same_targets.
- intros w. destruct (forallb _ _); [|apply keeps_refl].
  intros r Hr. cbn. rewrite lookup_insert_ne; [done|]. by intros <-.
Qed.

Lemma keeps_delete_queue url :
preserves (keeps_other_targets names) (Sqs.delete_queue url).
Proof. apply keeps_request. intros w. by destruct (List.find _ _). Qed.

Lemma keeps_ensure_queue_and_policy rule dlq_name tags settings arn dry_run bus :
rule ∈ names ->
preserves (keeps_other_targets names)
          (ensure_queue_and_policy rule dlq_name tags settings arn dry_run bus).
Proof.
intros Hin w r Hr.
destruct (prov_ensure_queue_and_policy rule dlq_name tags settings arn dry_run bus w)
  as (_ & _ & _ & Ht & _).
apply Ht. by intros ->.
Qed.

End OtherTargets.

Section OtherTargetsLoops.

Lemma keeps_mono names names' w w' :
(forall r, r ∈ names -> r ∈ names') ->
keeps_other_targets names w w' -> keeps_other_targets names' w w'.
Proof. intros Hsub H r Hr. apply H. intros Hin. by apply Hr, Hsub. Qed.

Lemma get_queue_by_name_lookups name : preserves only_lookups (get_queue_by_name name).
Proof.
intros w. destruct (get_queue_by_name_run name w) as (r & w' & Hrun & Hl & _).
by rewrite Hrun.
Qed.

Lemma list_targets_lookups rule bus : preserves only_lookups (list_targets rule bus).
Proof.
unfold list_targets. cbn [paginate].
apply preserves_bind; [apply only_lookups_trans| |].
- apply preserves_request; [apply only_lookups_trans| |].
  + intros w. by apply only_lookups_record.
  + intros w. apply only_lookups_refl.
- intros [page [next|]]; cbn [snd];
    [apply preserves_raise, only_lookups_refl|apply preserves_ret, only_lookups_refl].
Qed.

Lemma keeps_delete_rule_dlq names bus force rule dlq_name d :
rule ∈ names ->
preserves (keeps_other_targets names) (delete_rule_dlq bus force rule dlq_name d).
Proof.
intros Hin. unfold delete_rule_dlq.
apply keeps_except; [|intros; apply keeps_ret].
apply keeps_bind; [apply keeps_lookups, get_queue_by_name_lookups|].
intros [[url arn]|]; [|apply keeps_ret].
destruct (Py.truthy url); [|apply keeps_ret].
apply keeps_bind.
{ destruct force; [apply keeps_ret|apply keeps_lookups, has_messages_lookups]. }
intros [|]; [apply keeps_ret|].
apply keeps_bind; [apply keeps_lookups, list_targets_lookups|]. intros targets.
apply keeps_bind; [apply preserves_lift, keeps_refl|]. intros to_update.
apply keeps_bind.
{ destruct to_update; [apply keeps_ret|by apply keeps_put_targets]. }
intros _. apply keeps_bind; [apply keeps_delete_queue|].
intros _. apply keeps_ret.
Qed.

Lemma keeps_reconcile_rules bus arn tags settings dry_run env_prefix skip_rules rules :
forall t,
  preserves (keeps_other_targets (map Name (List.filter (eligible skip_rules) rules)))
            (reconcile_rules bus arn tags settings dry_run env_prefix skip_rules rules t).
Proof.
induction rules as [|rule rules IH]; intros t; cbn [reconcile_rules List.filter].
{ apply keeps_ret. }
unfold eligible at 1.
destruct (is_aws_managed rule); cbn [negb andb]; [apply IH|].
destruct (in_list (Name rule) skip_rules); cbn [negb]; [apply IH|].
cbn [map]. apply keeps_bind.
- apply keeps_ensure_queue_and_policy. by left.
- intros op w. eapply keeps_mono; [|apply IH]. intros r Hr. by right.
Qed.

Lemma keeps_cleanup_rules bus dry_run force env_prefix skip_rules rules :
forall d,
  preserves (keeps_other_targets (map Name (List.filter (eligible skip_rules) rules)))
            (cleanup_rules bus dry_run force env_prefix skip_rules rules d).
Proof.
induction rules as [|rule rules IH]; intros d; cbn [cleanup_rules List.filter].
{ apply keeps_ret. }
unfold eligible at 1.
destruct (is_aws_managed rule); cbn [negb andb]; [apply IH|].
destruct (in_list (Name rule) skip_rules); cbn [negb]; [apply IH|].
cbn [map]. apply keeps_bind.
- destruct dry_run.
  + apply keeps_bind; [apply keeps_lookups, get_queue_by_name_lookups|].
    intros q. destruct (url_truthy q); apply keeps_ret.
  + apply keeps_delete_rule_dlq. by left.
- intros d' w. eapply keeps_mono; [|apply IH]. intros r Hr. by right.
Qed.

End OtherTargetsLoops.

(** X25. Whatever the service answers, a pass and a teardown change the
    targets of no rule but the ones they work on: the targets of every rule
    whose name is not the name of a listed rule that is neither managed nor
    on the skip list are afterwards what they were. *)
Theorem runs_keep_targets_of_other_rules
    bus arn tags settings dry_run force env_prefix skip_rules w :
  keeps_other_targets (eligible_names skip_rules w) w
    (snd (reconcile_bus bus arn tags settings dry_run env_prefix skip_rules w)) /\
  keeps_other_targets (eligible_names skip_rules w) w
    (snd (cleanup_all_dlqs bus dry_run force env_prefix skip_rules w)).
Proof.
unfold eligible_names. split.
- unfold reconcile_bus, bind at 1.
  destruct (list_all_rules_run bus w) as (r0 & wa & -> & (_ & Hta & _) & Hr0 & _).
  destruct Hr0 as [->|[code ->]]; [|by apply keeps_same_targets].
  eapply keeps_trans; [by apply keeps_same_targets|].
  apply keeps_bind; [apply keeps_reconcile_rules|]. intros t.
  apply keeps_bind; [|intros; apply keeps_ret].
  intros w0. destruct (cleans_cleanup_orphaned_dlqs (concat (w_rules w)) dry_run w0)
    as (_ & Ht & _).
  by apply keeps_same_targets.
- unfold cleanup_all_dlqs, bind at 1.
  destruct (list_all_rules_run bus w) as (r0 & wa & -> & (_ & Hta & _) & Hr0 & _).
  destruct Hr0 as [->|[code ->]]; [|by apply keeps_same_targets].
  eapply keeps_trans; [by apply keeps_same_targets|].
  apply keeps_bind; [apply keeps_cleanup_rules|]. intros d. apply keeps_ret.
Qed.

(** ** A teardown step that goes through *)

(** X26. When the service answers, the queue is there under the derived
    name with a non-empty URL, the teardown is forced or the queue holds no
    message, and the targets that point to the queue can be rewritten, the
    step for the rule deletes: it logs the [deleted] entry and counts it,
    and it sends, in this order, the two lookups of the queue, the read of
    the counts unless forced, the listing of the targets, one update of
    the targets if any points to the queue, and the deletion. *)
Theorem teardown_step_detaches_then_deletes
    bus force rule dlq_name d w q q' to_update :
  quiet w ->
  List.find (Sqs.by_name dlq_name) (w_queues w) = Some q ->
  Py.truthy (q_url q) = true ->
  List.find (Sqs.by_url (q_url q)) (w_queues w) = Some q' ->
  force = true \/ q_visible q' + q_not_visible q' <= 0 ->
  targets_to_detach (q_arn q') (rule_targets rule w) = Ok to_update ->
  (forall u, u ∈ to_update -> is_Some (Events.target_id u)) ->
  exists w',
    delete_rule_dlq bus force rule dlq_name d w
    = (Ok {| d_queues := d_queues d ++ [deleted_entry rule dlq_name];
             d_count := S (d_count d) |}, w') /\
    w_trace w'
    = w_trace w
      ++ [GetQueueUrl dlq_name; GetQueueAttributes (q_url q) ["QueueArn"]]
      ++ (if force then [] else [GetQueueAttributes (q_url q) message_count_names])
      ++ [ListTargetsByRule rule bus None]
      ++ match to_update with
         | [] => []
         | _ => [PutTargets rule bus to_update]
         end
      ++ [DeleteQueue (q_url q)].
Proof.
intros Hquiet Hq Htruthy Hq' Hempty Hdet Hids.
unfold delete_rule_dlq, try_except. unfold bind at 1.
rewrite (get_queue_by_name_found dlq_name w q q'); try done; try (apply Hquiet; lia).
set (w2 := record_call (GetQueueAttributes (q_url q) ["QueueArn"])
             (record_call (GetQueueUrl dlq_name) w)).
assert (Hq2 : quiet w2).
{ by apply (quiet_step w w2 [GetQueueUrl dlq_name;
                             GetQueueAttributes (q_url q) ["QueueArn"]]);
    [|cbn; rewrite <- app_assoc|]. }
rewrite Htruthy. unfold bind at 1.
assert (Hkeep : exists w3,
          (if force then ret false else has_messages (q_url q)) w2 = (Ok false, w3) /\
          w_targets w3 = w_targets w /\ w_queues w3 = w_queues w /\
          w_faults w3 = w_faults w /\
          w_trace w3 = w_trace w2 ++
            (if force then [] else [GetQueueAttributes (q_url q) message_count_names])).
{ destruct force.
  - exists w2. rewrite app_nil_r. repeat split; reflexivity.
  - destruct Hempty as [?|Hempty]; [done|].
    exists (record_call (GetQueueAttributes (q_url q) message_count_names) w2).
    split; [|done].
    unfold has_messages, try_except, bind, Sqs.get_queue_attributes, request.
    rewrite Hq2 by lia. cbn [w_queues record_call w2]. rewrite Hq'. cbn.
    destruct (Z.gtb_spec (q_visible q' + q_not_visible q') 0); [lia|done]. }
destruct Hkeep as (w3 & -> & Ht3 & Hq3 & Hf3 & Htr3).
assert (Hquiet3 : quiet w3) by (by eapply (quiet_step w2 w3)).
unfold bind at 1. rewrite list_targets_quiet by done.
set (w4 := record_call (ListTargetsByRule rule bus None) w3).
assert (Hquiet4 : quiet w4)
  by (by apply (quiet_step w3 w4 [ListTargetsByRule rule bus None])).
unfold bind at 1, lift.
assert (Hsame : rule_targets rule w3 = rule_targets rule w)
  by (unfold rule_targets; by rewrite Ht3).
rewrite Hsame, Hdet.
unfold bind at 1.
assert (Hput : exists w5,
          match to_update with
          | [] => ret tt
          | _ :: _ => Events.put_targets rule bus to_update
          end w4 = (Ok tt, w5) /\
          w_queues w5 = w_queues w /\ w_faults w5 = w_faults w /\
          w_trace w5 = w_trace w4 ++ match to_update with
                                     | [] => []
                                     | _ => [PutTargets rule bus to_update]
                                     end).
{ destruct to_update as [|u us].
  - exists w4. rewrite app_nil_r. repeat split; try reflexivity; done.
  - unfold Events.put_targets, request. rewrite Hquiet4 by lia.
    assert (Hall : forallb (fun t => bool_decide (is_Some (Events.target_id t))) (u :: us)
                   = true).
    { apply forallb_forall. intros t Ht. apply bool_decide_eq_true_2.
      apply Hids. by apply list_elem_of_In. }
    rewrite Hall. eexists. split; [reflexivity|]. by cbn. }
destruct Hput as (w5 & -> & Hq5 & Hf5 & Htr5).
assert (Hquiet5 : quiet w5).
{ eapply (quiet_step w4 w5); [|done|done]. by rewrite Hf5. }
unfold bind at 1, Sqs.delete_queue, request.
rewrite Hquiet5 by lia. cbn [w_queues record_call]. rewrite Hq5, Hq'.
cbn [ret]. eexists. split; [reflexivity|].
cbn [w_trace set_queues record_call]. rewrite Htr5. cbn [w_trace w4 record_call].
rewrite Htr3. cbn [w_trace w2 record_call].
by rewrite <- !app_assoc.
Qed.

Lemma teardown_step_detaches_then_deletes_witness :
  exists w',
    delete_rule_dlq "main" true "orders" orders_queue_name
      {| d_queues := []; d_count := 0 |} (busy_world no_faults)
    = (Ok {| d_queues := [] ++ [deleted_entry "orders" orders_queue_name];
             d_count := 1 |}, w') /\
    w_trace w'
    = w_trace (busy_world no_faults)
      ++ [GetQueueUrl orders_queue_name;
          GetQueueAttributes (q_url busy_queue) ["QueueArn"]]
      ++ []
      ++ [ListTargetsByRule "orders" "main" None]
      ++ [PutTargets "orders" "main" [lambda_target "1"]]
      ++ [DeleteQueue (q_url busy_queue)].
Proof.
apply (teardown_step_detaches_then_deletes "main" true "orders" orders_queue_name
         {| d_queues := []; d_count := 0 |} (busy_world no_faults)
         busy_queue busy_queue [lambda_target "1"]).
- intros n c Hn. reflexivity.
- vm_compute. reflexivity.
- reflexivity.
- vm_compute. reflexivity.
- by left.
- vm_compute. reflexivity.
- intros u Hu. apply list_elem_of_singleton in Hu as ->. exists "1".
  vm_compute. reflexivity.
Defined.

(** ** A teardown step whose deletion fails *)

(** X27. When the deletion of the queue is refused while every other
    request is answered, the teardown step has already detached.  With the
    queue there under the derived name, the teardown forced or the queue
    empty, and the targets that point to the queue rewritable, the step
    returns its log and count unchanged and the queue is still there, yet
    the rule's targets have been republished and none of them points to
    the queue any more. *)
Theorem refused_deletion_leaves_targets_detached
    bus force rule dlq_name d w q q' to_update code :
  (forall n c, (forall url, c <> DeleteQueue url) -> w_faults w n c = None) ->
  (forall n, w_faults w n (DeleteQueue (q_url q)) = Some code) ->
  List.find (Sqs.by_name dlq_name) (w_queues w) = Some q ->
  Py.truthy (q_url q) = true ->
  List.find (Sqs.by_url (q_url q)) (w_queues w) = Some q' ->
  force = true \/ q_visible q' + q_not_visible q' <= 0 ->
  targets_to_detach (q_arn q') (rule_targets rule w) = Ok to_update ->
  (forall u, u ∈ to_update -> is_Some (Events.target_id u)) ->
  exists w',
    delete_rule_dlq bus force rule dlq_name d w = (Ok d, w') /\
    w_queues w' = w_queues w /\
    rule_targets rule w'
    = foldl Events.upsert_target (rule_targets rule w) to_update /\
    (forall t, t ∈ rule_targets rule w' -> points_to (q_arn q') t = Ok false).
Proof.
intros Hans Hdenied Hq Htruthy Hq' Hempty Hdet Hids.
unfold delete_rule_dlq, try_except. unfold bind at 1.
rewrite (get_queue_by_name_found dlq_name w q q'); try done; try (by apply Hans).
set (w2 := record_call (GetQueueAttributes (q_url q) ["QueueArn"])
             (record_call (GetQueueUrl dlq_name) w)).
rewrite Htruthy. unfold bind at 1.
assert (Hkeep : exists w3,
          (if force then ret false else has_messages (q_url q)) w2 = (Ok false, w3) /\
          w_targets w3 = w_targets w /\ w_queues w3 = w_queues w /\
          w_faults w3 = w_faults w).
{ destruct force.
  - exists w2. repeat split; reflexivity.
  - destruct Hempty as [?|Hempty]; [done|].
    exists (record_call (GetQueueAttributes (q_url q) message_count_names) w2).
    split; [|done].
    unfold has_messages, try_except, bind, Sqs.get_queue_attributes, request.
    cbn [w_faults w2 record_call]. rewrite Hans by done.
    cbn [w_queues record_call w2]. rewrite Hq'. cbn.
    destruct (Z.gtb_spec (q_visible q' + q_not_visible q') 0); [lia|done]. }
destruct Hkeep as (w3 & -> & Ht3 & Hq3 & Hf3).
unfold bind at 1.
assert (Hlist : list_targets rule bus w3
                = (Ok (rule_targets rule w),
                   record_call (ListTargetsByRule rule bus None) w3)).
{ unfold list_targets. cbn [paginate].
  unfold bind, Events.list_targets_by_rule, request.
  rewrite Hf3, Hans by done. cbn. unfold rule_targets. by rewrite Ht3. }
rewrite Hlist.
set (w4 := record_call (ListTargetsByRule rule bus None) w3).
unfold bind at 1, lift. rewrite Hdet.
unfold bind at 1.
assert (Hput : exists w5,
          match to_update with
          | [] => ret tt
          | _ :: _ => Events.put_targets rule bus to_update
          end w4 = (Ok tt, w5) /\
          w_queues w5 = w_queues w /\ w_faults w5 = w_faults w /\
          rule_targets rule w5
          = foldl Events.upsert_target (rule_targets rule w) to_update).
{ destruct to_update as [|u us].
  - exists w4. split; [done|]. split; [done|]. split; [done|].
    unfold rule_targets. cbn [w_targets w4 record_call foldl]. by rewrite Ht3.
  - unfold Events.put_targets, request.
    cbn [w_faults w4 record_call]. rewrite Hf3, Hans by done.
    assert (Hall : forallb (fun t => bool_decide (is_Some (Events.target_id t))) (u :: us)
                   = true).
    { apply forallb_forall. intros t Ht. apply bool_decide_eq_true_2.
      apply Hids. by apply list_elem_of_In. }
    rewrite Hall. eexists. split; [reflexivity|].
    split; [done|]. split; [done|].
    unfold rule_targets. cbn [w_targets set_targets record_call w4].
    by rewrite lookup_insert_eq, Ht3. }
destruct Hput as (w5 & -> & Hq5 & Hf5 & Ht5).
unfold bind at 1, Sqs.delete_queue, request.
rewrite Hf5, Hdenied. cbn [on_client_error ret].
eexists. split; [reflexivity|]. cbn [w_queues record_call].
split; [done|]. split; [done|].
intros t Ht. unfold rule_targets in Ht. cbn [w_targets record_call] in Ht.
fold (rule_targets rule w5) in Ht. rewrite Ht5 in Ht.
apply upsert_all_survivor in Ht as [Hnew|[Hold Hsurv]].
- destruct (targets_to_detach_elem _ _ _ _ Hdet Hnew) as (t0 & _ & _ & Hc).
  by eapply clone_points_nowhere.
- destruct (targets_to_detach_cases _ _ _ _ Hdet Hold) as [?|(clone & Hc & Hin)];
    [done|].
  pose proof (clone_same_id t clone Hc) as Hsame.
  rewrite (Hsurv _ Hin) in Hsame. done.
Qed.

Lemma refused_deletion_leaves_targets_detached_witness :
  exists w',
    delete_rule_dlq "main" true "orders" orders_queue_name
      {| d_queues := []; d_count := 0 |} (busy_world delete_denied)
    = (Ok {| d_queues := []; d_count := 0 |}, w') /\
    w_queues w' = w_queues (busy_world delete_denied) /\
    rule_targets "orders" w'
    = foldl Events.upsert_target (rule_targets "orders" (busy_world delete_denied))
        [lambda_target "1"] /\
    (forall t, t ∈ rule_targets "orders" w' -> points_to (q_arn busy_queue) t = Ok false).
Proof.
apply (refused_deletion_leaves_targets_detached "main" true "orders" orders_queue_name
         {| d_queues := []; d_count := 0 |} (busy_world delete_denied)
         busy_queue busy_queue [lambda_target "1"] "AccessDenied").
- intros n c Hc. destruct c; try reflexivity. by destruct (Hc url).
- intros n. reflexivity.
- vm_compute. reflexivity.
- reflexivity.
- vm_compute. reflexivity.
- by left.
- vm_compute. reflexivity.
- intros u Hu. apply list_elem_of_singleton in Hu as ->. exists "1".
  vm_compute. reflexivity.
Defined.
